(** * Timeline construction and orchestration layer of sat-bundleadjust

    A shallow embedding of [bundle_adjust/loader.py] and
    [bundle_adjust/ba_timeseries.py] (class [Scene]), and the properties of
    the date clusterer, the camera-model store, the adjustment-state
    tracker, the pair generator and the three scheduling strategies.

    Conventions of the embedding.
    - A Python [datetime] is a point of the time line with microsecond
      resolution: an integer number of microseconds.  [total_seconds() / 60.0]
      is taken exactly, as a rational; for the time spans of a scene the
      floating-point quotient compares with the margin [30] as the exact one
      does (spans are whole microseconds, the nearest ones to 30 minutes are
      1e-6 s away from it, eleven orders of magnitude above the rounding).
    - [strftime("%Y%m%d_%H%M%S")] keeps the whole seconds of a datetime and
      nothing else, and is injective on them.  The embedding renders the
      whole-second count in decimal: the same key under another spelling.
    - A Python exception is a value of [exn]; fallible code returns
      [res A = exn + A]; code with effects on the file system threads a
      [World] through.
    - A Python list index is a [Z] read with Python's rule for negative
      indices ([py_getitem]); positions produced by [enumerate] and [range]
      are [nat].
    - The file system is a set of directories and a map from paths to
      files; every access to it and every call of the optimisation core is
      appended to a trace.  What is printed and the wall-clock times of the
      reports are left out.
    - The optimisation core ([BundleAdjustmentPipeline]) and the
      triangulation behind the reprojection errors are not part of these
      two files: the strategies take them as parameters. *)

From Stdlib Require Import ZArith QArith Qabs Ascii.
From stdpp Require Import base option list strings pretty gmap sorting.

Open Scope string_scope.
Open Scope list_scope.
Open Scope Z_scope.

(** ** Python exceptions and results *)

Inductive exn : Type :=
| KeyError (key : string)
| IndexError
| ValueError (msg : string)
| FileNotFoundError (path : string)
| SceneError (msg : string)          (* class Error(Exception) of ba_timeseries.py *)
| TypeError (msg : string)
| AttributeError (msg : string)
| PipelineError                      (* anything BundleAdjustmentPipeline raises *)
| SystemExit.

Definition res (A : Type) : Type := (exn + A)%type.

Definition raise {A : Type} (e : exn) : res A := inl e.

Definition res_bind {A B : Type} (m : res A) (k : A -> res B) : res B :=
  match m with
  | inl e => inl e
  | inr a => k a
  end.

Notation "'do' x <- m ; k" := (res_bind m (fun x => k))
  (at level 10, x name, m at level 100, k at level 200).
Notation "'do' ' p <- m ; k" := (res_bind m (fun x => match x with p => k end))
  (at level 10, p pattern, m at level 100, k at level 200).

Definition is_ok {A : Type} (m : res A) : bool :=
  match m with inl _ => false | inr _ => true end.

(** [for x in l: st = body(st, x)] with exceptions. *)
Fixpoint res_fold {A S : Type} (body : S -> A -> res S) (l : list A) (st : S) : res S :=
  match l with
  | [] => inr st
  | x :: l' => do st' <- body st x; res_fold body l' st'
  end.

(** [[f(x) for x in l]] with exceptions. *)
Fixpoint res_map {A B : Type} (f : A -> res B) (l : list A) : res (list B) :=
  match l with
  | [] => inr []
  | x :: l' => do y <- f x; do ys <- res_map f l'; inr (y :: ys)
  end.

(** ** Python lists *)

(** [l[i]] for a Python int [i]: negative indices count from the end. *)
Definition py_getitem {A : Type} (l : list A) (i : Z) : res A :=
  let n := Z.of_nat (length l) in
  let j := if i <? 0 then i + n else i in
  if (0 <=? j) && (j <? n) then
    match l !! Z.to_nat j with
    | Some x => inr x
    | None => raise IndexError
    end
  else raise IndexError.

(** [l[i]] for a position [i] that comes from [enumerate] or [range]. *)
Definition nth_res {A : Type} (l : list A) (i : nat) : res A :=
  match l !! i with
  | Some x => inr x
  | None => raise IndexError
  end.

(** [l[:n]] for a Python int [n]. *)
Definition py_take {A : Type} (n : Z) (l : list A) : list A :=
  if n <? 0 then take (length l - Z.to_nat (- n))%nat l else take (Z.to_nat n) l.

(** [sorted(l, key=key)]: Python's sort is stable. *)
Fixpoint insert_by_key (key : Z -> Z) (x : Z) (l : list Z) : list Z :=
  match l with
  | [] => [x]
  | y :: l' => if key x <=? key y then x :: y :: l' else y :: insert_by_key key x l'
  end.

Definition sorted_by_key (key : Z -> Z) (l : list Z) : list Z :=
  foldr (insert_by_key key) [] l.

(** [min(l)] *)
Definition py_min (l : list Z) : res Z :=
  match l with
  | [] => raise (ValueError "min() arg is an empty sequence")
  | x :: l' => inr (foldl Z.min x l')
  end.

(** [np.arange(a, b)] on integers. *)
Definition arange (a b : Z) : list Z :=
  fmap (fun i : nat => a + Z.of_nat i) (seq 0 (Z.to_nat (b - a))).

(** [enumerate(l)]. *)
Definition enumerate {A : Type} (l : list A) : list (nat * A) :=
  zip (seq 0 (length l)) l.

(** ** Python strings and [os.path] (posixpath) *)

Definition slash : ascii := "/"%char.
Definition dot : ascii := "."%char.

Definition str (c : ascii) : string := String c "".

(** [s.startswith(p)] and [s.endswith(p)] *)
Definition startswith (s p : string) : bool := String.prefix p s.

Definition endswith (s p : string) : bool :=
  String.prefix (String.rev p) (String.rev s).

(** [needle in hay] *)
Fixpoint contains (needle hay : string) : bool :=
  String.prefix needle hay ||
  match hay with
  | "" => false
  | String _ hay' => contains needle hay'
  end.

(** [(p[:i], p[i:])] for [i = p.rfind(c) + 1]; [done] and [cur] accumulate
    the text up to the last [c] seen and the text after it. *)
Fixpoint rsplit_after (c : ascii) (done cur p : string) : string * string :=
  match p with
  | "" => (done, cur)
  | String a p' =>
      if decide (a = c) then rsplit_after c (done +:+ cur +:+ str a) "" p'
      else rsplit_after c done (cur +:+ str a) p'
  end.

Definition basename (p : string) : string := (rsplit_after slash "" "" p).2.

(** [s.rstrip("/")] *)
Fixpoint rstrip_slash (s : string) : string :=
  match s with
  | "" => ""
  | String a s' =>
      match rstrip_slash s' with
      | "" => if decide (a = slash) then "" else str a
      | r => String a r
      end
  end.

Definition dirname (p : string) : string :=
  let head := (rsplit_after slash "" "" p).1 in
  match rstrip_slash head with
  | "" => head            (* empty, or slashes only *)
  | r => r
  end.

(** [os.path.join(a, b)] *)
Definition os_path_join (a b : string) : string :=
  if startswith b "/" then b
  else if decide (a = "") then b
  else if endswith a "/" then a +:+ b
  else a +:+ "/" +:+ b.

(** The leading dots of a file name and what follows them. *)
Fixpoint leading_dots (s : string) : string * string :=
  match s with
  | String a s' =>
      if decide (a = dot) then
        let '(dots, rest) := leading_dots s' in (String a dots, rest)
      else ("", s)
  | "" => ("", "")
  end.

(** [os.path.splitext] on a name without directory part: the extension
    starts at the last dot, leading dots set aside. *)
Definition splitext_name (name : string) : string * string :=
  let '(dots, rest) := leading_dots name in
  match rsplit_after dot "" "" rest with
  | ("", _) => (name, "")
  | (upto, after) =>
      (* [upto] ends with the last dot of [rest] *)
      (dots +:+ String.substring 0 (String.length upto - 1) upto, str dot +:+ after)
  end.

Definition splitext (p : string) : string * string :=
  let '(head, tail) := rsplit_after slash "" "" p in
  let '(root, ext) := splitext_name tail in
  (head +:+ root, ext).

(** [s.replace(old, new)]: the occurrences of [old] are replaced from left
    to right, without overlap; [skip] counts the characters of an occurrence
    still to be dropped. *)
Fixpoint replace_go (old new : string) (skip : nat) (s : string) : string :=
  match s with
  | "" => ""
  | String a s' =>
      match skip with
      | S n => replace_go old new n s'
      | O =>
          if String.prefix old s
          then new +:+ replace_go old new (String.length old - 1) s'
          else String a (replace_go old new O s')
      end
  end.

(** For an empty [old], Python puts [new] before every character and at the
    end. *)
Fixpoint intersperse_str (new s : string) : string :=
  match s with
  | "" => new
  | String a s' => new +:+ String a (intersperse_str new s')
  end.

Definition str_replace (s old new : string) : string :=
  if decide (old = "") then intersperse_str new s
  else replace_go old new O s.

(** A [datetime]: microseconds on the time line. *)
Abbreviation datetime := Z (only parsing).

(** ** Camera models, images, JSON values *)

(** An RPC camera model is never computed on by this layer: it is loaded,
    handed to the optimisation core and stored.  Its coefficients are an
    opaque payload. *)
Inductive RPCModel : Type := RPC (coefficients : list Z).

Inductive json : Type :=
| JInt (z : Z)
| JNum (q : Q)
| JStr (s : string)
| JMatrix (rows : list (list Q)).

(** [cam_utils.SatelliteImage(fn, rpc)] *)
Record SatelliteImage : Type := {
  geotiff_path : string;
  rpc : RPCModel;
}.

(** What [BundleAdjustmentPipeline(ba_data, tracks_config, extra_ba_config)]
    receives. *)
Record ba_data_t : Type := {
  in_dir : string;
  out_dir : string;
  images : list SatelliteImage;
}.

Record tracks_config_t : Type := {
  FT_predefined_pairs : list (Z * Z);
  FT_settings : list (string * json);
}.

Record extra_ba_config_t : Type := {
  x_cam_model : string;
  x_aoi : option json;
  x_n_adj : Z;
  x_correction_params : list string;
  x_predefined_matches : bool;
  x_fix_ref_cam : bool;
  x_ref_cam_weight : Q;
  x_clean_outliers : bool;
}.

Record ba_call : Type := {
  c_data : ba_data_t;
  c_tracks : tracks_config_t;
  c_extra : extra_ba_config_t;
}.

(** What the orchestrator reads from the pipeline object after [run()]. *)
Record pipeline_t : Type := {
  p_images : list SatelliteImage;
  p_n_tracks : Z;
  p_ba_e : Q;
  p_init_e : Q;
  p_feature_tracks_running_time : Q;
  p_ba_iters : Z;
  p_C : list (list Q);
  p_pairs_to_triangulate : list (Z * Z);
}.

(** ** The file system

    Paths are compared as they are written (no normalisation of [a//b] or
    [./a]).  A directory exists when it is in [fs_dirs]; a file holds a
    value of [file]. *)

Inductive file : Type :=
| ImageFile (acquired : option datetime) (embedded_rpc : option RPCModel)
| RpcFile (model : RPCModel)               (* text RPC file, [rpc.write_to_file] *)
| RpcJsonFile (model : RPCModel)           (* RPC in rpcm's JSON format *)
| JsonFile (content : gmap string json)    (* a JSON object *)
| DataFile.                                (* point clouds, matches, ... *)

Record FS : Type := {
  fs_dirs : gset string;
  fs_files : gmap string file;
}.

(** Every access to the file system and every call of the optimisation core
    is recorded, in order. *)
Inductive io_event : Type :=
| EvIsdir (p : string)
| EvExists (p : string)
| EvMakedirs (p : string)
| EvRmtree (p : string)
| EvGlob (pattern : string)
| EvRead (p : string)
| EvWrite (p : string)
| EvCopyfile (src dst : string)
| EvBundleAdjust (call : ba_call).

Record World : Type := {
  w_fs : FS;
  w_trace : list io_event;
}.

Definition IO (A : Type) : Type := World -> res A * World.

Definition io_ret {A : Type} (a : A) : IO A := fun w => (inr a, w).

Definition io_raise {A : Type} (e : exn) : IO A := fun w => (inl e, w).

Definition io_lift {A : Type} (r : res A) : IO A := fun w => (r, w).

Definition io_bind {A B : Type} (m : IO A) (k : A -> IO B) : IO B :=
  fun w =>
    match m w with
    | (inl e, w') => (inl e, w')
    | (inr a, w') => k a w'
    end.

Notation "'io' x <- m ; k" := (io_bind m (fun x => k))
  (at level 10, x name, m at level 100, k at level 200).
Notation "'io' ' p <- m ; k" := (io_bind m (fun x => match x with p => k end))
  (at level 10, p pattern, m at level 100, k at level 200).

Fixpoint io_fold {A S : Type} (body : S -> A -> IO S) (l : list A) (st : S) : IO S :=
  match l with
  | [] => io_ret st
  | x :: l' => io st' <- body st x; io_fold body l' st'
  end.

Fixpoint io_map {A B : Type} (f : A -> IO B) (l : list A) : IO (list B) :=
  match l with
  | [] => io_ret []
  | x :: l' => io y <- f x; io ys <- io_map f l'; io_ret (y :: ys)
  end.

Definition emit (ev : io_event) : IO unit :=
  fun w => (inr tt, {| w_fs := w_fs w; w_trace := w_trace w ++ [ev] |}).

Definition get_fs : IO FS := fun w => (inr (w_fs w), w).

Definition put_fs (fs : FS) : IO unit :=
  fun w => (inr tt, {| w_fs := fs; w_trace := w_trace w |}).

(** The directory [p] and the directories above it: [a], [a/b], [a/b/c]. *)
Fixpoint path_prefixes (done p : string) : list string :=
  match p with
  | "" => if decide (done = "") then [] else if endswith done "/" then [] else [done]
  | String a p' =>
      if decide (a = slash) then
        (if decide (done = "") then [] else [done]) ++ path_prefixes (done +:+ str a) p'
      else path_prefixes (done +:+ str a) p'
  end.

Definition is_under (dir p : string) : bool := startswith p (dir +:+ "/").

Definition string_le (a b : string) : Prop := String.leb a b = true.

#[global] Instance string_le_dec (a b : string) : Decision (string_le a b) :=
  bool_eq_dec (String.leb a b) true.

(** [sorted(paths)] *)
Definition sorted (paths : list string) : list string := merge_sort string_le paths.

Definition fs_paths (fs : FS) : list string :=
  sorted ((map_to_list (fs_files fs)).*1 ++ elements (fs_dirs fs)).

Definition os_path_isdir (p : string) : IO bool :=
  io _ <- emit (EvIsdir p);
  io fs <- get_fs;
  io_ret (bool_decide (p ∈ fs_dirs fs)).

Definition os_path_exists (p : string) : IO bool :=
  io _ <- emit (EvExists p);
  io fs <- get_fs;
  io_ret (bool_decide (p ∈ fs_dirs fs) || bool_decide (is_Some (fs_files fs !! p))).

(** [os.makedirs(p, exist_ok=True)] *)
Definition os_makedirs (p : string) : IO unit :=
  io _ <- emit (EvMakedirs p);
  io fs <- get_fs;
  if decide (p = "") then io_raise (FileNotFoundError p)
  else
    put_fs {| fs_dirs := fs_dirs fs ∪ list_to_set (path_prefixes "" p);
              fs_files := fs_files fs |}.

(** The file system without the directory [p] and what is below it. *)
Definition fs_rmtree (p : string) (fs : FS) : FS :=
  {| fs_dirs := filter (fun d => d ≠ p ∧ is_under p d = false) (fs_dirs fs);
     fs_files := filter (fun kv => is_under p kv.1 = false) (fs_files fs) |}.

(** [shutil.rmtree(p)] *)
Definition shutil_rmtree (p : string) : IO unit :=
  io _ <- emit (EvRmtree p);
  io fs <- get_fs;
  if bool_decide (p ∈ fs_dirs fs) then put_fs (fs_rmtree p fs)
  else io_raise (FileNotFoundError p).

Definition read_file (p : string) : IO file :=
  io _ <- emit (EvRead p);
  io fs <- get_fs;
  match fs_files fs !! p with
  | Some f => io_ret f
  | None => io_raise (FileNotFoundError p)
  end.

(** [open(p, "w")] and what follows: the directory of [p] must exist. *)
Definition write_file (p : string) (f : file) : IO unit :=
  io _ <- emit (EvWrite p);
  io fs <- get_fs;
  if bool_decide (dirname p = "") || bool_decide (dirname p ∈ fs_dirs fs) then
    put_fs {| fs_dirs := fs_dirs fs; fs_files := <[p := f]> (fs_files fs) |}
  else io_raise (FileNotFoundError p).

(** [shutil.copyfile(src, dst)] *)
Definition shutil_copyfile (src dst : string) : IO unit :=
  io _ <- emit (EvCopyfile src dst);
  io fs <- get_fs;
  match fs_files fs !! src with
  | None => io_raise (FileNotFoundError src)
  | Some f =>
      if bool_decide (dirname dst = "") || bool_decide (dirname dst ∈ fs_dirs fs) then
        put_fs {| fs_dirs := fs_dirs fs; fs_files := <[dst := f]> (fs_files fs) |}
      else io_raise (FileNotFoundError dst)
  end.

(** A relative path below a directory that [*] and [**] can reach: no
    component starts with a dot. *)
Definition not_hidden (rel : string) : bool :=
  negb (startswith rel ".") && negb (contains "/." rel).

Definition relative_to (dir p : string) : string :=
  String.substring (String.length dir + 1) (String.length p) p.

(** [glob.glob(dir + "/*" + ext)]: the entries of [dir] whose name ends with
    [ext].  The order of the result of [glob] is the one of the directory
    listing; the model lists in ascending order. *)
Definition glob_in_dir (dir ext : string) : IO (list string) :=
  io _ <- emit (EvGlob (dir +:+ "/*" +:+ ext));
  io fs <- get_fs;
  io_ret (filter (fun p => is_under dir p = true
                        ∧ contains "/" (relative_to dir p) = false
                        ∧ endswith p ext = true
                        ∧ not_hidden (relative_to dir p) = true) (fs_paths fs)).

(** [glob.glob(os.path.join(dir, "**/" + name), recursive=True)]: the paths
    below [dir], at any depth, whose last component is [name] (a name
    without wildcard characters). *)
Definition glob_recursive_name (dir name : string) : IO (list string) :=
  io _ <- emit (EvGlob (os_path_join dir ("**/" +:+ name)));
  io fs <- get_fs;
  io_ret (filter (fun p => startswith p (os_path_join dir "") = true
                        ∧ basename p = name
                        ∧ not_hidden (relative_to dir p) = true) (fs_paths fs)).

(** [glob.glob(os.path.join(dir, "**/*" + ext), recursive=True)] *)
Definition glob_recursive_ext (dir ext : string) : IO (list string) :=
  io _ <- emit (EvGlob (os_path_join dir ("**/*" +:+ ext)));
  io fs <- get_fs;
  io_ret (filter (fun p => startswith p (os_path_join dir "") = true
                        ∧ endswith (basename p) ext = true
                        ∧ not_hidden (relative_to dir p) = true) (fs_paths fs)).

(** ** Dates *)

(** [timedelta.total_seconds()] of a difference of two datetimes. *)
Definition total_seconds (td : Z) : Q := td # 1000000.

Definition strftime (t : datetime) : string := pretty (t `div` 1000000).

Definition Qltb (x y : Q) : bool := negb (Qle_bool y x).

(** [np.argmin]: the first position of the least element. *)
Fixpoint argmin_from (best : Q) (best_pos : nat) (pos : nat) (l : list Q) : nat :=
  match l with
  | [] => best_pos
  | x :: l' =>
      if Qltb x best then argmin_from x pos (S pos) l'
      else argmin_from best best_pos (S pos) l'
  end.

Definition argmin (l : list Q) : nat :=
  match l with
  | [] => 0%nat
  | x :: l' => argmin_from x 0%nat 1%nat l'
  end.

(** [np.argsort(datetimes)]: the positions of the input in ascending order of
    date.  The order numpy gives to equal dates is not specified; it plays no
    role for inputs with distinct dates. *)
Definition date_le (x y : nat * datetime) : Prop := x.2 <= y.2.

#[global] Instance date_le_dec (x y : nat * datetime) : Decision (date_le x y) :=
  Z.le_dec x.2 y.2.

Definition argsort (datetimes : list datetime) : list nat :=
  (merge_sort date_le (enumerate datetimes)).*1.

(** [np.array(l)[indices].tolist()] *)
Definition take_indices {A : Type} (l : list A) (indices : list nat) : res (list A) :=
  res_map (nth_res l) indices.

(** ** The Python dict [d] of [group_files_by_date]

    Keys keep their order of insertion, which is the order of [d.keys()]. *)

Abbreviation dict := (list (string * list nat)) (only parsing).

Fixpoint dict_get (d : dict) (k : string) : option (list nat) :=
  match d with
  | [] => None
  | (k', v) :: d' => if decide (k' = k) then Some v else dict_get d' k
  end.

(** [d[k] = v] *)
Fixpoint dict_setitem (d : dict) (k : string) (v : list nat) : dict :=
  match d with
  | [] => [(k, v)]
  | (k', v') :: d' =>
      if decide (k' = k) then (k', v) :: d'
      else (k', v') :: dict_setitem d' k v
  end.

(** [d[k].append(i)] *)
Definition dict_append (d : dict) (k : string) (i : nat) : res dict :=
  match dict_get d k with
  | None => raise (KeyError k)
  | Some v => inr (dict_setitem d k (v ++ [i]))
  end.

(** ** Timeline entries *)

Record TimelineEntry : Type := {
  t_datetime : datetime;
  t_id : string;
  t_fnames : list string;
  t_n_images : Z;
  t_adjusted : bool;
  t_image_weights : list Q;
}.

Abbreviation Timeline := (list TimelineEntry) (only parsing).

(** ** Text files of paths *)

Definition LF : ascii := "010"%char.
Definition CR : ascii := "013"%char.

(** [c.isspace()] for a character below 256. *)
Definition is_space (c : ascii) : bool :=
  bool_decide (nat_of_ascii c ∈ [9; 10; 11; 12; 13; 28; 29; 30; 31; 32; 133; 160]%nat).

(** [s.rstrip()], [s.lstrip()], [s.strip()] *)
Fixpoint py_rstrip (s : string) : string :=
  match s with
  | "" => ""
  | String a s' =>
      match py_rstrip s' with
      | "" => if is_space a then "" else str a
      | r => String a r
      end
  end.

Fixpoint py_lstrip (s : string) : string :=
  match s with
  | "" => ""
  | String a s' => if is_space a then py_lstrip s' else s
  end.

Definition py_strip (s : string) : string := py_lstrip (py_rstrip s).

(** Reading in text mode: the line ends [\r\n] and [\r] are read as [\n]. *)
Fixpoint universal_newlines (s : string) : string :=
  match s with
  | "" => ""
  | String a s' =>
      if decide (a = CR) then
        String LF (match s' with
                   | String b s'' =>
                       if decide (b = LF) then universal_newlines s''
                       else universal_newlines s'
                   | "" => ""
                   end)
      else String a (universal_newlines s')
  end.

(** [f.readlines()]: the lines, each with its line end; [cur] is the line
    being read. *)
Fixpoint readlines_go (cur s : string) : list string :=
  match s with
  | "" => if decide (cur = "") then [] else [cur]
  | String a s' =>
      if decide (a = LF) then (cur +:+ str LF) :: readlines_go "" s'
      else readlines_go (cur +:+ str a) s'
  end.

Definition readlines (content : string) : list string :=
  readlines_go "" (universal_newlines content).

(** ** Arrays of pairs

    What [np.array] makes of a list of pairs of integers: an array with one
    row per pair, or, of the empty list, a one-dimensional array without
    items. *)
Inductive ndarray : Type :=
| Nd1 (items : list Z)
| Nd2 (ncols : nat) (rows : list (list Z)).

Inductive np_item : Type :=
| NpScalar (z : Z)
| NpRow (items : list Z).

Definition np_array_of_pairs (l : list (Z * Z)) : ndarray :=
  match l with
  | [] => Nd1 []
  | _ => Nd2 2 ((fun '(a, b) => [a; b]) <$> l)
  end.

(** [a.T] *)
Definition np_transpose (a : ndarray) : ndarray :=
  match a with
  | Nd1 items => Nd1 items
  | Nd2 ncols rows =>
      Nd2 (length rows) ((fun j => (fun r => nth j r 0) <$> rows) <$> seq 0 ncols)
  end.

(** [a[k]] *)
Definition np_getitem (a : ndarray) (k : nat) : res np_item :=
  match a with
  | Nd1 items => do z <- nth_res items k; inr (NpScalar z)
  | Nd2 _ rows => do r <- nth_res rows k; inr (NpRow r)
  end.

Module Loader.

(** *** [group_files_by_date] (loader.py 235-289, ba_timeseries.py 62-116) *)

Definition dt_diff_in_mins (d1 d2 : datetime) : Q :=
  Qabs (total_seconds (d1 - d2) / 60).

Definition margin : Q := 30.

(** One turn of the loop [for im_idx, fname in enumerate(sorted_fnames)];
    the state is the pair of [d] and [dates_already_seen]. *)
Definition cluster_step (sorted_datetimes : list datetime)
    (st : dict * list datetime) (im_idx : nat) : res (dict * list datetime) :=
  let '(d, dates_already_seen) := st in
  do current_dt <- nth_res sorted_datetimes im_idx;
  let diff_wrt_prev_dates_in_mins :=
    fmap (fun x => dt_diff_in_mins x current_dt) dates_already_seen in
  do joined <-
    (if (0 <? length diff_wrt_prev_dates_in_mins)%nat then
       let min_pos := argmin diff_wrt_prev_dates_in_mins in
       do diff <- nth_res diff_wrt_prev_dates_in_mins min_pos;
       if Qltb diff margin then
         do ref_date <- nth_res dates_already_seen min_pos;
         let ref_date_id := strftime ref_date in
         do d' <- dict_append d ref_date_id im_idx;
         inr (Some d')
       else inr None
     else inr None);
  match joined with
  | Some d' => inr (d', dates_already_seen)
  | None =>
      let date_id := strftime current_dt in
      inr (dict_setitem d date_id [im_idx], dates_already_seen ++ [current_dt])
  end.

(** The entry of the timeline for a key [k] of [d]; the id is
    [k.split("/")[-1]], which is [k]: a key has no slash. *)
Definition timeline_entry (sorted_datetimes : list datetime)
    (sorted_fnames : list string) (kv : string * list nat) : res TimelineEntry :=
  let '(k, members) := kv in
  do first <- nth_res members 0;
  do current_datetime <- nth_res sorted_datetimes first;
  do im_fnames_current_datetime <- take_indices sorted_fnames members;
  inr {| t_datetime := current_datetime;
         t_id := k;
         t_fnames := im_fnames_current_datetime;
         t_n_images := Z.of_nat (length members);
         t_adjusted := false;
         t_image_weights := [] |}.

(** The loop that builds [d] and [dates_already_seen]. *)
Definition build_clusters (sorted_datetimes : list datetime)
    (sorted_fnames : list string) : res (dict * list datetime) :=
  res_fold (cluster_step sorted_datetimes) (enumerate sorted_fnames).*1 ([], []).

Definition group_files_by_date (datetimes : list datetime)
    (image_fnames : list string) : res Timeline :=
  let sorted_indices := argsort datetimes in
  do sorted_datetimes <- take_indices datetimes sorted_indices;
  do sorted_fnames <- take_indices image_fnames sorted_indices;
  do '(d, _) <- build_clusters sorted_datetimes sorted_fnames;
  res_map (timeline_entry sorted_datetimes sorted_fnames) d.

(** *** [load_pairs_from_same_date_and_next_dates] (loader.py 202-232) *)

Definition count_cams (tl : Timeline) (timeline_indices : list Z) : res Z :=
  do ns <- res_map (fun t_idx => do e <- py_getitem tl t_idx; inr (t_n_images e))
             timeline_indices;
  inr (foldr Z.add 0 ns).

(** [[(int(cam_i), int(cam_j)) for cam_i in A for cam_j in B(cam_i)]] *)
Definition pairs_of (cams_i : list Z) (cams_j : Z -> list Z) : list (Z * Z) :=
  concat (fmap (fun cam_i => fmap (fun cam_j => (cam_i, cam_j)) (cams_j cam_i)) cams_i).

(** The state of the loop over the selected dates. *)
Record pairs_state : Type := {
  init_pairs : list (Z * Z);
  cams_so_far : Z;
  dates_left : Z;
}.

Definition next_dates_step (tl : Timeline) (timeline_indices : list Z)
    (k : nat) (cams_so_far cams_current_date : Z)
    (pairs : list (Z * Z)) (next_date : Z) : res (list (Z * Z)) :=
  do next_date_t_idx <- py_getitem timeline_indices (Z.of_nat k + next_date);
  do next_entry <- py_getitem tl next_date_t_idx;
  let cams_next_date := t_n_images next_entry in
  do cams_until_next_date <-
    count_cams tl (take (Z.to_nat (Z.of_nat k + next_date)) timeline_indices);
  inr (pairs ++
       pairs_of (arange cams_so_far (cams_so_far + cams_current_date))
         (fun _ => arange cams_until_next_date (cams_until_next_date + cams_next_date))).

Definition pairs_step (tl : Timeline) (timeline_indices : list Z)
    (next_dates : Z) (intra_date : bool)
    (st : pairs_state) (kt : nat * Z) : res pairs_state :=
  let '(k, t_idx) := kt in
  do entry <- py_getitem tl t_idx;
  let cams_current_date := t_n_images entry in
  let pairs1 :=
    if intra_date then
      init_pairs st ++
      pairs_of (arange (cams_so_far st) (cams_so_far st + cams_current_date))
        (fun cam_i => arange (cam_i + 1) (cams_so_far st + cams_current_date))
    else init_pairs st in
  let dates_left' := dates_left st - 1 in
  do pairs2 <-
    res_fold (next_dates_step tl timeline_indices k (cams_so_far st) cams_current_date)
      (arange 1 (Z.min (next_dates + 1) (dates_left' + 1))) pairs1;
  inr {| init_pairs := pairs2;
         cams_so_far := cams_so_far st + cams_current_date;
         dates_left := dates_left' |}.

Definition load_pairs_from_same_date_and_next_dates (tl : Timeline)
    (timeline_indices : list Z) (next_dates : Z) (intra_date : bool)
    : res (list (Z * Z)) :=
  do st <- res_fold (pairs_step tl timeline_indices next_dates intra_date)
             (enumerate timeline_indices)
             {| init_pairs := []; cams_so_far := 0;
                dates_left := Z.of_nat (length timeline_indices) |};
  inr (init_pairs st).

(** *** File names and camera-model files *)

(** [get_id] (loader.py 65-69) *)
Definition get_id (fname : string) : string := (splitext (basename fname)).1.

(** [add_suffix_to_fname] (loader.py 55-62) *)
Definition add_suffix_to_fname (src_fname suffix : string) : string :=
  let src_basename := basename src_fname in
  let '(file_id, file_extension) := splitext src_basename in
  str_replace src_fname src_basename (file_id +:+ suffix +:+ file_extension).

(** [get_acquisition_date] (loader.py 72-85, ba_timeseries.py 28-59): the
    date is read from the tags of the image or parsed from its name; the
    model keeps it with the image file.  A file that is missing or is not
    an image cannot be opened; an image without a readable date makes
    [strptime] fail. *)
Definition get_acquisition_date (geotiff_path : string) : IO datetime :=
  io f <- read_file geotiff_path;
  match f with
  | ImageFile (Some dt) _ => io_ret dt
  | ImageFile None _ => io_raise (ValueError "strptime")
  | _ => io_raise (ValueError "not an image")
  end.

(** [rpcm.rpc_from_geotiff] *)
Definition rpc_from_geotiff (path : string) : IO RPCModel :=
  io f <- read_file path;
  match f with
  | ImageFile _ (Some m) => io_ret m
  | _ => io_raise (ValueError "no rpc in geotiff")
  end.

(** [rpcm.rpc_from_rpc_file] *)
Definition rpc_from_rpc_file (path : string) : IO RPCModel :=
  io f <- read_file path;
  match f with
  | RpcFile m => io_ret m
  | _ => io_raise (ValueError "not an rpc file")
  end.

(** [json.load] followed by [rpcm.RPCModel(d, dict_format="rpcm")] *)
Definition rpc_from_json (path : string) : IO RPCModel :=
  io f <- read_file path;
  match f with
  | RpcJsonFile m => io_ret m
  | _ => io_raise (ValueError "not an rpc json file")
  end.

(** [save_dict_to_json] (loader.py 88-93) *)
Definition save_dict_to_json (input_dict : gmap string json)
    (output_json_fname : string) : IO unit :=
  write_file output_json_fname (JsonFile input_dict).

(** [load_dict_from_json] (loader.py 96-102) *)
Definition load_dict_from_json (input_json_fname : string) : IO (gmap string json) :=
  io f <- read_file input_json_fname;
  match f with
  | JsonFile d => io_ret d
  | _ => io_raise (ValueError "JSONDecodeError")
  end.

(** [d[k]] on a dict read from JSON *)
Definition json_getitem (d : gmap string json) (k : string) : IO json :=
  match d !! k with
  | Some v => io_ret v
  | None => io_raise (KeyError k)
  end.

(** [save_rpcs] (loader.py 436-442) *)
Definition save_rpcs (filenames : list string) (rpcs : list RPCModel) : IO unit :=
  io_fold (fun _ '(fn, m) =>
             io _ <- os_makedirs (dirname fn);
             write_file fn (RpcFile m))
    (zip filenames rpcs) tt.

(** [load_rpcs_from_dir] (loader.py 445-456); the defaults of [suffix] and
    [extension] are ["RPC_adj"] and ["rpc"]. *)
Definition default_suffix : string := "RPC_adj".

Definition rpc_path (rpc_dir suffix extension fname : string) : string :=
  let rpc_basename := get_id (add_suffix_to_fname fname suffix) +:+ "." +:+ extension in
  os_path_join rpc_dir rpc_basename.

Definition load_rpcs_from_dir (image_fnames_list : list string)
    (rpc_dir suffix extension : string) : IO (list RPCModel) :=
  io_map (fun fname => rpc_from_rpc_file (rpc_path rpc_dir suffix extension fname))
    image_fnames_list.

(** *** Projection matrices and crop offsets *)

(** A crop offset as the callers build it ([load_image_crops],
    [load_geotiff_lonlat_footprints]): numbers. *)
Record crop_offset : Type := {
  col0 : Q;
  row0 : Q;
  width : Q;
  height : Q;
}.

(** A crop offset as [load_offsets_from_dir] returns it: values read from
    JSON. *)
Record loaded_crop_offset : Type := {
  l_col0 : json;
  l_row0 : json;
  l_width : json;
  l_height : json;
}.

(** [int(x)] on a number: truncation towards zero. *)
Definition py_int (x : Q) : Z := Z.quot (Qnum x) (Z.pos (Qden x)).

(** [save_projection_matrices] (loader.py 459-476) *)
Definition save_projection_matrices (filenames : list string)
    (projection_matrices : list (list (list Q)))
    (crop_offsets : list crop_offset) : IO unit :=
  io_fold (fun _ '(fn, (P, offset)) =>
             io _ <- os_makedirs (dirname fn);
             io r0 <- io_lift (nth_res P 0);
             io r1 <- io_lift (nth_res P 1);
             io r2 <- io_lift (nth_res P 2);
             let to_write : gmap string json :=
               <["P" := JMatrix [r0; r1; r2]]>
               (<["height" := JInt (py_int (height offset))]>
               (<["width" := JInt (py_int (width offset))]>
               (<["col_offset" := JInt (py_int (col0 offset))]>
               (<["row_offset" := JInt (py_int (row0 offset))]> ∅)))) in
             save_dict_to_json to_write fn)
    (zip filenames (zip projection_matrices crop_offsets)) tt.

Definition offsets_path (P_dir suffix fname : string) : string :=
  os_path_join P_dir (get_id fname +:+ "_" +:+ suffix +:+ ".json").

(** [load_offsets_from_dir] (loader.py 493-511); the default of [suffix]
    is ["pinhole_adj"]. *)
Definition load_offsets_from_dir (image_fnames_list : list string)
    (P_dir suffix : string) : IO (list loaded_crop_offset) :=
  io_map (fun fname =>
            let path_to_P := offsets_path P_dir suffix fname in
            io d <- load_dict_from_json path_to_P;
            io c0 <- json_getitem d "col_offset";
            io r0 <- json_getitem d "col_offset";
            io w <- json_getitem d "width";
            io h <- json_getitem d "height";
            io_ret {| l_col0 := c0; l_row0 := r0; l_width := w; l_height := h |})
    image_fnames_list.

(** *** Lists of paths and of pairs (loader.py 567-587) *)

(** [save_list_of_paths] (loader.py 578-581): the text it writes to the
    file, one [f.write("%s\n" % p)] after the other. *)
Definition save_list_of_paths (list_of_paths : list string) : string :=
  foldr (fun p text => p +:+ str LF +:+ text) "" list_of_paths.

(** [load_list_of_paths] (loader.py 584-587): what it makes of the text of
    the file. *)
Definition load_list_of_paths (content : string) : list string :=
  py_strip <$> readlines content.

(** [save_list_of_pairs] (loader.py 567-569): the array it stores. *)
Definition save_list_of_pairs (list_of_pairs : list (Z * Z)) : ndarray :=
  np_array_of_pairs list_of_pairs.

(** [load_list_of_pairs] (loader.py 572-575): what it makes of the array it
    loads. *)
Definition load_list_of_pairs (a : ndarray) : res (list (Z * Z)) :=
  let array_t := np_transpose a in
  do r0 <- np_getitem array_t 0;
  do r1 <- np_getitem array_t 1;
  match r0, r1 with
  | NpRow x, NpRow y => inr (zip x y)
  | _, _ => raise (TypeError "zip argument is not iterable")
  end.

(** *** [load_matrices_from_dir] (loader.py 479-490)

    [P[2, 3]] on a value read from JSON, which is a list, a string or a
    number, never a numpy array: it raises for each of them, and the
    division [P / P[2, 3]] is not reached. *)
Definition json_getitem_pair (v : json) (i j : Z) : res Empty_set :=
  match v with
  | JMatrix _ => raise (TypeError "list indices must be integers or slices, not tuple")
  | JStr _ => raise (TypeError "string indices must be integers")
  | JInt _ | JNum _ => raise (TypeError "object is not subscriptable")
  end.

Definition matrices_path (P_dir suffix fname : string) : string :=
  os_path_join P_dir (get_id fname +:+ "_" +:+ suffix +:+ ".json").

Definition load_matrices_from_dir (image_fnames_list : list string)
    (P_dir suffix : string) : IO (list json) :=
  io_map (fun fname =>
            let path_to_P := matrices_path P_dir suffix fname in
            io d <- load_dict_from_json path_to_P;
            io P <- json_getitem d "P";
            io x <- io_lift (json_getitem_pair P 2 3);
            match x with end)
    image_fnames_list.

End Loader.

(** * [ba_timeseries.py]: the class [Scene] *)

Module BaTimeseries.

Import Loader.

(** The scene configuration as read from JSON; [None] is a key that is
    absent. *)
Record Args : Type := {
  a_geotiff_dir : string;
  a_rpc_dir : string;
  a_rpc_src : string;
  a_output_dir : string;
  a_ba_method : option string;
  a_timeline_indices : option (list Z);
  a_geotiff_label : option string;
  a_n_dates : option Z;
  a_cam_model : option string;
  a_correction_params : option (list string);
  a_predefined_matches : option bool;
  a_fix_ref_cam : option bool;
  a_ref_cam_weight : option Q;
  a_clean_outliers : option bool;
  a_reset : option bool;
  a_remove_FT_files : option bool;
  a_aoi_geojson : option string;
  a_tracks : list (string * json);
}.

(** The attributes of a [Scene] that no method assigns after [__init__]. *)
Record Settings : Type := {
  geotiff_dir : string;
  rpc_dir : string;
  rpc_src : string;
  dst_dir : string;
  ba_method : string;
  geotiff_label : option string;
  n_dates : Z;
  cam_model : string;
  correction_params : list string;
  predefined_matches : bool;
  ref_cam_weight : Q;
  clean_outliers : bool;
  reset : bool;
  remove_FT_files : bool;
}.

(** The object [self]: its settings and the attributes that methods assign. *)
Record Scene : Type := {
  settings : Settings;
  selected_timeline_indices : option (list Z);
  fix_ref_cam : bool;
  n_adj : Z;
  images_adj : list SatelliteImage;
  images_new : list SatelliteImage;
  tracks_config : tracks_config_t;
  aoi_lonlat : option json;
  timeline : Timeline;
  ba_data : option ba_data_t;
  ba_pipeline : option pipeline_t;
}.

Definition set_selected_timeline_indices (s : Scene) (v : option (list Z)) : Scene :=
  {| settings := settings s; selected_timeline_indices := v;
     fix_ref_cam := fix_ref_cam s; n_adj := n_adj s; images_adj := images_adj s;
     images_new := images_new s; tracks_config := tracks_config s;
     aoi_lonlat := aoi_lonlat s; timeline := timeline s; ba_data := ba_data s;
     ba_pipeline := ba_pipeline s |}.

Definition set_fix_ref_cam (s : Scene) (v : bool) : Scene :=
  {| settings := settings s; selected_timeline_indices := selected_timeline_indices s;
     fix_ref_cam := v; n_adj := n_adj s; images_adj := images_adj s;
     images_new := images_new s; tracks_config := tracks_config s;
     aoi_lonlat := aoi_lonlat s; timeline := timeline s; ba_data := ba_data s;
     ba_pipeline := ba_pipeline s |}.

Definition set_input (s : Scene) (n : Z) (adj new : list SatelliteImage) : Scene :=
  {| settings := settings s; selected_timeline_indices := selected_timeline_indices s;
     fix_ref_cam := fix_ref_cam s; n_adj := n; images_adj := adj;
     images_new := new; tracks_config := tracks_config s;
     aoi_lonlat := aoi_lonlat s; timeline := timeline s; ba_data := ba_data s;
     ba_pipeline := ba_pipeline s |}.

Definition set_FT_predefined_pairs (s : Scene) (v : list (Z * Z)) : Scene :=
  {| settings := settings s; selected_timeline_indices := selected_timeline_indices s;
     fix_ref_cam := fix_ref_cam s; n_adj := n_adj s; images_adj := images_adj s;
     images_new := images_new s;
     tracks_config := {| FT_predefined_pairs := v;
                         FT_settings := FT_settings (tracks_config s) |};
     aoi_lonlat := aoi_lonlat s; timeline := timeline s; ba_data := ba_data s;
     ba_pipeline := ba_pipeline s |}.

Definition set_timeline (s : Scene) (v : Timeline) : Scene :=
  {| settings := settings s; selected_timeline_indices := selected_timeline_indices s;
     fix_ref_cam := fix_ref_cam s; n_adj := n_adj s; images_adj := images_adj s;
     images_new := images_new s; tracks_config := tracks_config s;
     aoi_lonlat := aoi_lonlat s; timeline := v; ba_data := ba_data s;
     ba_pipeline := ba_pipeline s |}.

Definition set_ba_data (s : Scene) (v : ba_data_t) : Scene :=
  {| settings := settings s; selected_timeline_indices := selected_timeline_indices s;
     fix_ref_cam := fix_ref_cam s; n_adj := n_adj s; images_adj := images_adj s;
     images_new := images_new s; tracks_config := tracks_config s;
     aoi_lonlat := aoi_lonlat s; timeline := timeline s; ba_data := Some v;
     ba_pipeline := ba_pipeline s |}.

Definition set_ba_pipeline (s : Scene) (v : pipeline_t) : Scene :=
  {| settings := settings s; selected_timeline_indices := selected_timeline_indices s;
     fix_ref_cam := fix_ref_cam s; n_adj := n_adj s; images_adj := images_adj s;
     images_new := images_new s; tracks_config := tracks_config s;
     aoi_lonlat := aoi_lonlat s; timeline := timeline s; ba_data := ba_data s;
     ba_pipeline := Some v |}.

Definition set_adjusted (e : TimelineEntry) (v : bool) : TimelineEntry :=
  {| t_datetime := t_datetime e; t_id := t_id e; t_fnames := t_fnames e;
     t_n_images := t_n_images e; t_adjusted := v;
     t_image_weights := t_image_weights e |}.

(** [is_ba_method_valid] (ba_timeseries.py 495-496) *)
Definition is_ba_method_valid (method : string) : bool :=
  bool_decide (method ∈ ["ba_global"; "ba_sequential"; "ba_bruteforce"]).

(** [get_timeline_attributes] (ba_timeseries.py 242-284) prints a table; what
    is kept of it is how it can fail: an index outside the timeline, or
    [max] of an empty list of indices. *)
Definition get_timeline_attributes (s : Scene) (timeline_indices : list Z) : res unit :=
  do _ <- res_map (py_getitem (timeline s)) timeline_indices;
  match timeline_indices with
  | [] => raise (ValueError "max() arg is an empty sequence")
  | _ => inr tt
  end.

(** [init_ba_input_data] (ba_timeseries.py 349-352) *)
Definition init_ba_input_data (s : Scene) : Scene := set_input s 0 [] [].

(** The two nested loops of [check_adjusted_dates] (298-303): one turn of
    the inner loop, for the position [idx] of the timeline. *)
Definition mark_one (adj_id : string) (t_idx : Z)
    (st : Timeline * bool) (idx : nat) : Timeline * bool :=
  match st.1 !! idx with
  | Some e =>
      if bool_decide (t_id e = adj_id) && (Z.of_nat idx <? t_idx)
      then (<[idx := set_adjusted e true]> st.1, true)
      else st
  | None => st
  end.

Definition mark_adjusted_dates (timeline_adj : Timeline) (t_idx : Z)
    (st : Timeline * bool) : Timeline * bool :=
  foldl (fun st d => foldl (mark_one (t_id d) t_idx) st (seq 0 (length st.1)))
    st timeline_adj.

(** [check_adjusted_dates] (ba_timeseries.py 286-308) *)
Definition check_adjusted_dates (s : Scene) (input_dir : string) (t_idx : Z)
    : IO (bool * Scene) :=
  let dir_adj_rpc := os_path_join input_dir "rpcs_adj" in
  io is_dir <- os_path_isdir dir_adj_rpc;
  if is_dir then
    io adj_paths <- glob_in_dir dir_adj_rpc ".rpc_adj";
    io found <- io_map (fun adj_id =>
                  glob_recursive_name (geotiff_dir (settings s)) (adj_id +:+ ".tif"))
                  (fmap get_id adj_paths);
    let adj_fnames := concat found in
    io datetimes_adj <- io_map get_acquisition_date adj_fnames;
    io timeline_adj <- io_lift (group_files_by_date datetimes_adj adj_fnames);
    let '(tl, prev_adj_data_found) :=
      mark_adjusted_dates timeline_adj t_idx (timeline s, false) in
    io_ret (prev_adj_data_found, set_timeline s tl)
  else io_ret (false, s).

(** [load_data_from_dates] (ba_timeseries.py 310-333) *)
Definition load_data_from_dates (s : Scene) (timeline_indices : list Z)
    (input_dir : string) (adjusted : bool) : IO Scene :=
  io entries <- io_lift (res_map (py_getitem (timeline s)) timeline_indices);
  let im_fnames := concat (fmap t_fnames entries) in
  let n_cam := Z.of_nat (length im_fnames) in
  io images <-
    (if 0 <? n_cam then
       let rpc_dir := if adjusted then os_path_join input_dir "rpcs_adj"
                      else os_path_join (dst_dir (settings s)) "rpcs_init" in
       let extension := if adjusted then "rpc_adj" else "rpc" in
       io im_rpcs <- load_rpcs_from_dir im_fnames rpc_dir default_suffix extension;
       io_ret (fmap (fun '(fn, m) => {| geotiff_path := fn; rpc := m |})
                 (zip im_fnames im_rpcs))
     else io_ret []);
  if adjusted then
    io_ret (set_input s (n_adj s + n_cam) (images_adj s ++ images) (images_new s))
  else
    io_ret (set_input s (n_adj s + 0) (images_adj s) (images_new s ++ images)).

(** [[idx for idx, d in enumerate(self.timeline) if d["adjusted"]]] *)
Definition adjusted_indices (tl : Timeline) : list Z :=
  fmap (fun '(idx, _) => Z.of_nat idx)
    (filter (fun '(_, d) => t_adjusted d = true) (enumerate tl)).

(** [load_prev_adjusted_dates] (ba_timeseries.py 335-347) *)
Definition load_prev_adjusted_dates (s : Scene) (t_idx : Z) (input_dir : string)
    (previous_dates : Z) : IO Scene :=
  io '(found_adj_dates, s) <- check_adjusted_dates s input_dir t_idx;
  if found_adj_dates : bool then
    let all_prev_adj_t_indices := adjusted_indices (timeline s) in
    let closest_adj_t_indices :=
      sorted_by_key (fun x => Z.abs (x - t_idx)) all_prev_adj_t_indices in
    let adj_t_indices_to_use := py_take previous_dates closest_adj_t_indices in
    io _ <- io_lift (res_map (py_getitem (timeline s)) adj_t_indices_to_use);
    load_data_from_dates s adj_t_indices_to_use input_dir true
  else io_ret s.

(** [set_ba_input_data] (ba_timeseries.py 354-369) *)
Definition set_ba_input_data (s : Scene) (t_indices : list Z)
    (input_dir output_dir : string) (previous_dates : Z) : IO Scene :=
  let s := init_ba_input_data s in
  io s <- (if 0 <? previous_dates then
             io t_min <- io_lift (py_min t_indices);
             load_prev_adjusted_dates s t_min input_dir previous_dates
           else io_ret s);
  io s <- load_data_from_dates s t_indices input_dir false;
  io_ret (set_ba_data s {| in_dir := input_dir; out_dir := output_dir;
                           images := images_adj s ++ images_new s |}).

(** [reset_ba_params] (ba_timeseries.py 403-408) *)
Definition reset_ba_params (s : Scene) : IO Scene :=
  let ba_dir := dst_dir (settings s) +:+ "/" +:+ ba_method (settings s) in
  io ex <- os_path_exists ba_dir;
  io _ <- (if ex : bool then shutil_rmtree ba_dir else io_ret tt);
  io_ret (set_timeline s (fmap (fun e => set_adjusted e false) (timeline s))).

(** [rm_tmp_files_after_ba] (ba_timeseries.py 400-401) *)
Definition rm_tmp_files_after_ba (s : Scene) : IO unit :=
  shutil_rmtree (dst_dir (settings s) +:+ "/" +:+ ba_method (settings s) +:+ "/matches").

(** The branch on [rpc_src] of [load_scene] (216-226). *)
Definition load_initial_rpc (st : Settings) (tif_fname : string) : IO RPCModel :=
  let f_id := get_id tif_fname in
  if decide (rpc_src st = "geotiff") then rpc_from_geotiff tif_fname
  else if decide (rpc_src st = "json") then
    rpc_from_json (os_path_join (rpc_dir st) (f_id +:+ ".json"))
  else if decide (rpc_src st = "txt") then
    rpc_from_rpc_file (os_path_join (rpc_dir st) (f_id +:+ ".rpc"))
  else io_raise (ValueError "Unknown rpc_src value").

(** The file in which [load_scene] stores the initial camera model of an
    image (233-234). *)
Definition init_rpc_fname (st : Settings) (fn : string) : string :=
  os_path_join (dst_dir st) "rpcs_init" +:+ "/" +:+ get_id fn +:+ ".rpc".

(** [load_scene] (ba_timeseries.py 201-240) *)
Definition load_scene (st : Settings) : IO Timeline :=
  io found <- glob_recursive_ext (geotiff_dir st) ".JP2";
  let geotiff_paths := sorted found in
  let geotiff_paths :=
    match geotiff_label st with
    | None => geotiff_paths
    | Some label =>
        fmap basename (filter (fun fn => contains label fn = true) geotiff_paths)
    end in
  io loaded <- io_map (fun tif_fname =>
                 io m <- load_initial_rpc st tif_fname;
                 io dt <- get_acquisition_date tif_fname;
                 io_ret (tif_fname, m, dt)) geotiff_paths;
  let all_im_fnames := fmap (fun x => x.1.1) loaded in
  let all_im_rpcs := fmap (fun x => x.1.2) loaded in
  let all_im_datetimes := fmap (fun x => x.2) loaded in
  let all_rpc_fnames := fmap (init_rpc_fname st) all_im_fnames in
  io _ <- save_rpcs all_rpc_fnames all_im_rpcs;
  io_lift (group_files_by_date all_im_datetimes all_im_fnames).

(** [Scene.__init__] (ba_timeseries.py 124-199); [ft_defaults] is the result
    of [init_feature_tracks_config()]. *)
Definition Scene_init (ft_defaults : list (string * json)) (args : Args) : IO Scene :=
  let st :=
    {| geotiff_dir := a_geotiff_dir args;
       rpc_dir := a_rpc_dir args;
       rpc_src := a_rpc_src args;
       dst_dir := a_output_dir args;
       ba_method := default "ba_bruteforce" (a_ba_method args);
       geotiff_label := a_geotiff_label args;
       n_dates := default 1 (a_n_dates args);
       cam_model := default "rpc" (a_cam_model args);
       correction_params := default ["R"] (a_correction_params args);
       predefined_matches := default false (a_predefined_matches args);
       ref_cam_weight := default 1%Q (a_ref_cam_weight args);
       clean_outliers := default true (a_clean_outliers args);
       reset := default true (a_reset args);
       remove_FT_files := default false (a_remove_FT_files args) |} in
  io ok1 <- os_path_isdir (geotiff_dir st);
  if negb ok1 then io_raise (SceneError "geotiff_dir does not exist") else
  io ok2 <- os_path_isdir (rpc_dir st);
  if negb ok2 then io_raise (SceneError "rpc_dir does not exist") else
  if negb (forallb (fun v => bool_decide (v ∈ ["R"; "T"; "K"; "COMMON_K"]))
             (correction_params st))
  then io_raise (SceneError "not a valid camera parameter to optimize") else
  io _ <- os_makedirs (dst_dir st);
  let ft := fmap (fun '(k, v) =>
                   match list_find (fun kv => kv.1 = k) (a_tracks args) with
                   | Some (_, (_, v')) => (k, v')
                   | None => (k, v)
                   end) ft_defaults in
  io tl <- load_scene st;
  io aoi <- (match a_aoi_geojson args with
             | None => io_ret None
             | Some path =>
                 io d <- load_dict_from_json path;
                 io coordinates <- json_getitem d "coordinates";
                 io _ <- save_dict_to_json
                           (<["coordinates" := coordinates]>
                              (<["type" := JStr "Polygon"]> ∅))
                           (dst_dir st +:+ "/AOI_init.json");
                 io_ret (Some coordinates)
             end);
  io _ <- io_lift (py_getitem tl 0);
  io _ <- io_lift (py_getitem tl (-1));
  io_ret {| settings := st;
            selected_timeline_indices := a_timeline_indices args;
            fix_ref_cam := default false (a_fix_ref_cam args);
            n_adj := 0; images_adj := []; images_new := [];
            tracks_config := {| FT_predefined_pairs := []; FT_settings := ft |};
            aoi_lonlat := aoi;
            timeline := tl;
            ba_data := None;
            ba_pipeline := None |}.

Section Orchestration.

(** The optimisation core, [BundleAdjustmentPipeline(...).run()]: it reads
    and writes files and either raises or leaves the pipeline object. *)
Variable pipeline_run : ba_call -> FS -> res pipeline_t * FS.

(** [init_pts3d] and [ba_utils.reproject_pts3d] followed by [np.mean]: the
    mean reprojection errors before and after. *)
Variable reprojection_errors :
  pipeline_t -> list RPCModel -> list RPCModel -> res (Q * Q).

(** [bundle_adjust] (ba_timeseries.py 371-398).  The result is what the
    callers use of [(elapsed_time, elapsed_time_FT, n_tracks, ba_e, init_e)]:
    all but the wall-clock time. *)
Definition bundle_adjust (s : Scene) : IO ((Q * Z * Q * Q) * Scene) :=
  let extra_ba_config :=
    {| x_cam_model := cam_model (settings s);
       x_aoi := aoi_lonlat s;
       x_n_adj := n_adj s;
       x_correction_params := correction_params (settings s);
       x_predefined_matches := predefined_matches (settings s);
       x_fix_ref_cam := fix_ref_cam s;
       x_ref_cam_weight := ref_cam_weight (settings s);
       x_clean_outliers := clean_outliers (settings s) |} in
  match ba_data s with
  | None => io_raise (AttributeError "ba_data")
  | Some data =>
      let call := {| c_data := data; c_tracks := tracks_config s;
                     c_extra := extra_ba_config |} in
      io _ <- emit (EvBundleAdjust call);
      io p <- (fun w =>
                 let '(r, fs') := pipeline_run call (w_fs w) in
                 (r, {| w_fs := fs'; w_trace := w_trace w |}));
      io_ret ((p_feature_tracks_running_time p, p_n_tracks p, p_ba_e p, p_init_e p),
              set_ba_pipeline s p)
  end.

(** [compute_reprojection_error_before_and_after_bundle_adjust]
    (ba_timeseries.py 498-530) *)
Definition compute_reprojection_error_before_and_after_bundle_adjust (s : Scene)
    : IO (Q * Q) :=
  match ba_pipeline s with
  | None => io_raise (AttributeError "ba_pipeline")
  | Some p =>
      let im_fnames := fmap geotiff_path (p_images p) in
      let rpcs_init_dir := os_path_join (dst_dir (settings s)) "rpcs_init" in
      io rpcs_init <- load_rpcs_from_dir im_fnames rpcs_init_dir default_suffix "rpc";
      let rpcs_ba_dir :=
        os_path_join (dst_dir (settings s)) (ba_method (settings s) +:+ "/rpcs_adj") in
      io rpcs_ba <- load_rpcs_from_dir im_fnames rpcs_ba_dir default_suffix "rpc_adj";
      io_lift (reprojection_errors p rpcs_init rpcs_ba)
  end.

(** One turn of the loop of [run_sequential_bundle_adjustment] (420-442). *)
Definition sequential_step (ba_dir : string) (s : Scene) (it : nat * Z) : IO Scene :=
  let '(idx, t_idx) := it in
  io s <- set_ba_input_data s [t_idx] ba_dir ba_dir (n_dates (settings s));
  let s :=
    if (bool_decide (idx = 0%nat) && fix_ref_cam s)
       || (bool_decide (n_dates (settings s) = 0) && fix_ref_cam s)
    then set_fix_ref_cam s true
    else set_fix_ref_cam s false in
  io '(_, s) <- bundle_adjust s;
  io entry <- io_lift (py_getitem (timeline s) t_idx);
  let pts_out_fn := ba_dir +:+ "/pts3d_adj/" +:+ t_id entry +:+ "_pts3d_adj.ply" in
  io _ <- os_makedirs (dirname pts_out_fn);
  io _ <- shutil_copyfile (ba_dir +:+ "/pts3d_adj.ply") pts_out_fn;
  io _ <- compute_reprojection_error_before_and_after_bundle_adjust s;
  io_ret s.

(** [run_sequential_bundle_adjustment] (ba_timeseries.py 410-453) *)
Definition run_sequential_bundle_adjustment (s : Scene) : IO Scene :=
  let ba_dir := os_path_join (dst_dir (settings s)) (ba_method (settings s)) in
  io _ <- os_makedirs ba_dir;
  match selected_timeline_indices s with
  | None => io_raise (TypeError "len() of NoneType")
  | Some selected =>
      let s := set_FT_predefined_pairs s [] in
      io s <- io_fold (sequential_step ba_dir) (enumerate selected) s;
      io _ <- (if remove_FT_files (settings s) then rm_tmp_files_after_ba s
               else io_ret tt);
      (* the mean of an empty list of track counts cannot be made an int *)
      match selected with
      | [] => io_raise (ValueError "cannot convert float NaN to integer")
      | _ => io_ret s
      end
  end.

(** [run_global_bundle_adjustment] (ba_timeseries.py 455-475); the pair
    generator is the one of loader.py. *)
Definition run_global_bundle_adjustment (s : Scene) : IO Scene :=
  let ba_dir := os_path_join (dst_dir (settings s)) (ba_method (settings s)) in
  io _ <- os_makedirs ba_dir;
  match selected_timeline_indices s with
  | None => io_raise (TypeError "iteration over a 0-d array")
  | Some selected =>
      io pairs <- io_lift (load_pairs_from_same_date_and_next_dates
                             (timeline s) selected (n_dates (settings s)) true);
      let s := set_FT_predefined_pairs s pairs in
      io s <- set_ba_input_data s selected ba_dir ba_dir 0;
      io '(_, s) <- bundle_adjust s;
      io _ <- (if remove_FT_files (settings s) then rm_tmp_files_after_ba s
               else io_ret tt);
      io_ret s
  end.

(** [run_bruteforce_bundle_adjustment] (ba_timeseries.py 477-493) *)
Definition run_bruteforce_bundle_adjustment (s : Scene) : IO Scene :=
  let ba_dir := os_path_join (dst_dir (settings s)) (ba_method (settings s)) in
  io _ <- os_makedirs ba_dir;
  let s := set_FT_predefined_pairs s [] in
  match selected_timeline_indices s with
  | None => io_raise (TypeError "NoneType is not iterable")
  | Some selected =>
      io s <- set_ba_input_data s selected ba_dir ba_dir 0;
      io '(_, s) <- bundle_adjust s;
      io _ <- (if remove_FT_files (settings s) then rm_tmp_files_after_ba s
               else io_ret tt);
      io_ret s
  end.

(** [run_bundle_adjustment_for_RPC_refinement] (ba_timeseries.py 532-566) *)
Definition run_bundle_adjustment_for_RPC_refinement (s : Scene) : IO Scene :=
  io s <- (match selected_timeline_indices s with
           | None =>
               io_ret (set_selected_timeline_indices s
                         (Some (arange 0 (Z.of_nat (length (timeline s))))))
           | Some selected =>
               io _ <- io_lift (get_timeline_attributes s selected);
               io_ret s
           end);
  io _ <- io_lift (res_map (py_getitem (timeline s))
                     (default [] (selected_timeline_indices s)));
  io s <- (if reset (settings s) then reset_ba_params s else io_ret s);
  if decide (ba_method (settings s) = "ba_sequential") then
    run_sequential_bundle_adjustment s
  else if decide (ba_method (settings s) = "ba_global") then
    run_global_bundle_adjustment s
  else if decide (ba_method (settings s) = "ba_bruteforce") then
    run_bruteforce_bundle_adjustment s
  else io_raise SystemExit.

End Orchestration.

End BaTimeseries.

(** * Notions used by the statements *)

Import Loader BaTimeseries.

Definition minutes (m : Z) : Z := m * 60000000.

(** The timeline entry that [group_files_by_date] makes of a cluster whose
    first image was acquired at [t]. *)
Definition new_entry (t : datetime) (fnames : list string) : TimelineEntry :=
  {| t_datetime := t; t_id := strftime t; t_fnames := fnames;
     t_n_images := Z.of_nat (length fnames); t_adjusted := false;
     t_image_weights := [] |}.

(** The invariant of the clustering loop before image [i] of the sorted
    images [sd]: every key of [d] is the id of the representative at the same
    position of [dates_already_seen], its members are images before [i]
    acquired in the 30 minutes that start at the representative;
    representatives are 30 minutes or more apart, each is the date of an
    image before [i], and every image before [i] is in a cluster. *)
Definition cluster_ok (sd : list datetime) (i : nat)
    (kv : string * list nat) (r : datetime) : Prop :=
  kv.1 = strftime r /\ kv.2 <> [] /\
  forall m : nat, m ∈ kv.2 ->
    (m < i)%nat /\ exists t : datetime, sd !! m = Some t /\ r <= t < r + 1800000000.

Definition clusters_inv (sd : list datetime) (i : nat)
    (st : dict * list datetime) : Prop :=
  Forall2 (cluster_ok sd i) st.1 st.2 /\
  (forall (p q : nat) (a b : datetime), (p < q)%nat ->
     st.2 !! p = Some a -> st.2 !! q = Some b -> a + 1800000000 <= b) /\
  (forall r : datetime, r ∈ st.2 -> exists m : nat, (m < i)%nat /\ sd !! m = Some r) /\
  (forall m : nat, (m < i)%nat -> exists kv : string * list nat, kv ∈ st.1 /\ m ∈ kv.2).

(** The calls of the optimisation core recorded in a trace. *)
Definition ba_calls (trace : list io_event) : list ba_call :=
  omap (fun ev => match ev with EvBundleAdjust c => Some c | _ => None end) trace.

(** The images a call of the optimisation core has to adjust: those after
    the first [n_adj]. *)
Definition new_image_paths (c : ba_call) : list string :=
  drop (Z.to_nat (x_n_adj (c_extra c))) (geotiff_path <$> images (c_data c)).

(** A computation is quiet when it only appends to the trace, and no call
    of the optimisation core, whether it returns or raises. *)
Definition quiet {A : Type} (m : IO A) : Prop :=
  forall w : World,
    exists evs : list io_event,
      w_trace (m w).2 = w_trace w ++ evs /\ ba_calls evs = [].

(** From [s] to [s']: the settings, the flags a run consults and the images
    of the timeline are the same; the [adjusted] marks and the input data
    may differ. *)
Definition evolves (s s' : Scene) : Prop :=
  settings s' = settings s
  /\ fix_ref_cam s' = fix_ref_cam s
  /\ selected_timeline_indices s' = selected_timeline_indices s
  /\ tracks_config s' = tracks_config s
  /\ aoi_lonlat s' = aoi_lonlat s
  /\ t_fnames <$> timeline s' = t_fnames <$> timeline s
  /\ t_id <$> timeline s' = t_id <$> timeline s.

(** The input data are well formed when [n_adj] counts the anchor images. *)
Definition input_ok (s : Scene) : Prop := n_adj s = Z.of_nat (length (images_adj s)).

(** The reference-fixing flag that [run_sequential_bundle_adjustment] sets
    at position [idx] of the selection, from the current one. *)
Definition step_flag (s : Scene) (idx : nat) : bool :=
  (bool_decide (idx = 0%nat) && fix_ref_cam s)
  || (bool_decide (n_dates (settings s) = 0) && fix_ref_cam s).

(** [c] is a call for the date at [t_idx] of the timeline [tl], made with
    the reference-fixing flag [flag]. *)
Definition call_for (tl : Timeline) (t_idx : Z) (flag : bool) (c : ba_call) : Prop :=
  x_fix_ref_cam (c_extra c) = flag
  /\ exists e : TimelineEntry, py_getitem tl t_idx = inr e /\ new_image_paths c = t_fnames e.

(** The flag of the [k]-th turn of the sequential loop that starts at
    position [idx] with the current flag [cur]. *)
Definition next_flag (n_dates : Z) (idx : nat) (cur : bool) : bool :=
  (bool_decide (idx = 0%nat) && cur) || (bool_decide (n_dates = 0) && cur).

Fixpoint flag_at (n_dates : Z) (idx : nat) (cur : bool) (k : nat) : bool :=
  match k with
  | O => next_flag n_dates idx cur
  | S k' => flag_at n_dates (S idx) (next_flag n_dates idx cur) k'
  end.

(** The scene after [reset_ba_params]: no entry is marked adjusted. *)
Definition cleared (s : Scene) : Scene :=
  set_timeline s ((fun e => set_adjusted e false) <$> timeline s).

(** What [run_bundle_adjustment_for_RPC_refinement] does before it resets:
    it fixes the selection and reads the selected entries for its report. *)
Definition prelude (s : Scene) : res Scene :=
  do s1 <- match selected_timeline_indices s with
           | None =>
               inr (set_selected_timeline_indices s
                      (Some (arange 0 (Z.of_nat (length (timeline s))))))
           | Some selected => do _ <- get_timeline_attributes s selected; inr s
           end;
  do _ <- res_map (py_getitem (timeline s1)) (default [] (selected_timeline_indices s1));
  inr s1.

(** The dates a run processes: the configured selection, or all. *)
Definition selection (s : Scene) : list Z :=
  default (arange 0 (Z.of_nat (length (timeline s)))) (selected_timeline_indices s).

(** The paths written and the directory trees removed, as a trace records
    them. *)
Definition written_paths (trace : list io_event) : list string :=
  omap (fun ev => match ev with EvWrite p => Some p | _ => None end) trace.

Definition removed_trees (trace : list io_event) : list string :=
  omap (fun ev => match ev with EvRmtree p => Some p | _ => None end) trace.

(** ** Numbering of the images of a selection *)

(** The images of the selected dates are numbered in the order of the
    selection; with [counts] the numbers of images of the selected dates,
    [cams_before counts k] images precede those of the [k]-th selected date,
    whose images are [cams_of counts k]. *)
Definition cams_before (counts : list Z) (k : nat) : Z := foldr Z.add 0 (take k counts).

Definition cams_of (counts : list Z) (k : nat) : list Z :=
  arange (cams_before counts k) (cams_before counts (S k)).

(** The pairs that the [k]-th turn of the loop of
    [load_pairs_from_same_date_and_next_dates] appends. *)
Definition date_block (counts : list Z) (next_dates : Z) (intra_date : bool) (k : nat)
    : list (Z * Z) :=
  (if intra_date
   then pairs_of (cams_of counts k) (fun cam_i => arange (cam_i + 1) (cams_before counts (S k)))
   else [])
  ++ concat ((fun d => pairs_of (cams_of counts k) (fun _ => cams_of counts (k + Z.to_nat d)))
               <$> arange 1 (Z.min (next_dates + 1)
                               (Z.of_nat (length counts) - Z.of_nat k))).

(** * Scenes used as examples *)

(** Three dates, an hour apart, with 2, 1 and 3 images. *)
Definition timeline_2_1_3 : Timeline :=
  [new_entry 0 ["a1.JP2"; "a2.JP2"]; new_entry (minutes 60) ["b1.JP2"];
   new_entry (minutes 120) ["c1.JP2"; "c2.JP2"; "c3.JP2"]].

Definition day (d : Z) : datetime := 1577836800000000 + d * 86400000000.

Definition rpc_of (n : Z) : RPCModel := RPC [n].

(** The optimisation core of the examples: it stores an adjusted model
    [<out_dir>/rpcs_adj/<id>.rpc_adj] for every new image (the images after
    the first [n_adj]), the names [check_adjusted_dates] looks for, and the
    point cloud [<out_dir>/pts3d_adj.ply] that the sequential strategy
    copies. *)
Definition adjusted_model (m : RPCModel) : RPCModel :=
  match m with RPC c => RPC (0 :: c) end.

Definition example_pipeline (call : ba_call) (fs : FS) : res pipeline_t * FS :=
  let data := c_data call in
  let new_images := drop (Z.to_nat (x_n_adj (c_extra call))) (images data) in
  let save :=
    io _ <- save_rpcs
              (fmap (fun im => out_dir data +:+ "/rpcs_adj/"
                               +:+ get_id (geotiff_path im) +:+ ".rpc_adj") new_images)
              (fmap (fun im => adjusted_model (rpc im)) new_images);
    io _ <- write_file (out_dir data +:+ "/pts3d_adj.ply") DataFile;
    io_ret {| p_images := images data; p_n_tracks := 100; p_ba_e := 1 # 2;
              p_init_e := 2; p_feature_tracks_running_time := 1; p_ba_iters := 10;
              p_C := []; p_pairs_to_triangulate := [] |} in
  let '(r, w) := save {| w_fs := fs; w_trace := [] |} in
  (r, w_fs w).

Definition example_reprojection_errors (p : pipeline_t)
    (rpcs_init rpcs_ba : list RPCModel) : res (Q * Q) := inr (2%Q, 1 # 2).

(** A scene of three images acquired on three consecutive days, after a
    first sequential run: the images exist as [.JP2] and as [.tif], and the
    output directory holds the initial and the adjusted camera models, under
    the names [load_scene] and the pipeline write
    ([<id>.rpc], [<id>.rpc_adj]) and under the names [load_rpcs_from_dir]
    reads ([<id>RPC_adj.rpc], [<id>RPC_adj.rpc_adj]). *)
Definition adjusted_scene_files : gmap string file :=
  list_to_map
    [ ("geo/a.JP2", ImageFile (Some (day 0)) (Some (rpc_of 1)));
      ("geo/b.JP2", ImageFile (Some (day 1)) (Some (rpc_of 2)));
      ("geo/c.JP2", ImageFile (Some (day 2)) (Some (rpc_of 3)));
      ("geo/a.tif", ImageFile (Some (day 0)) (Some (rpc_of 1)));
      ("geo/b.tif", ImageFile (Some (day 1)) (Some (rpc_of 2)));
      ("geo/c.tif", ImageFile (Some (day 2)) (Some (rpc_of 3)));
      ("out/rpcs_init/a.rpc", RpcFile (rpc_of 1));
      ("out/rpcs_init/b.rpc", RpcFile (rpc_of 2));
      ("out/rpcs_init/c.rpc", RpcFile (rpc_of 3));
      ("out/rpcs_init/aRPC_adj.rpc", RpcFile (rpc_of 1));
      ("out/rpcs_init/bRPC_adj.rpc", RpcFile (rpc_of 2));
      ("out/rpcs_init/cRPC_adj.rpc", RpcFile (rpc_of 3));
      ("out/ba_sequential/rpcs_adj/a.rpc_adj", RpcFile (adjusted_model (rpc_of 1)));
      ("out/ba_sequential/rpcs_adj/b.rpc_adj", RpcFile (adjusted_model (rpc_of 2)));
      ("out/ba_sequential/rpcs_adj/c.rpc_adj", RpcFile (adjusted_model (rpc_of 3)));
      ("out/ba_sequential/rpcs_adj/aRPC_adj.rpc_adj", RpcFile (adjusted_model (rpc_of 1)));
      ("out/ba_sequential/rpcs_adj/bRPC_adj.rpc_adj", RpcFile (adjusted_model (rpc_of 2)));
      ("out/ba_sequential/rpcs_adj/cRPC_adj.rpc_adj", RpcFile (adjusted_model (rpc_of 3)));
      ("out/ba_sequential/pts3d_adj.ply", DataFile) ].

Definition adjusted_scene_world : World :=
  {| w_fs := {| fs_dirs := list_to_set ["geo"; "out"; "out/rpcs_init"; "out/ba_sequential";
                                        "out/ba_sequential/rpcs_adj"];
                fs_files := adjusted_scene_files |};
     w_trace := [] |}.

Definition sequential_args (indices : option (list Z)) (fix_ref : bool)
    (reset_flag : option bool) : Args :=
  {| a_geotiff_dir := "geo"; a_rpc_dir := "geo"; a_rpc_src := "geotiff";
     a_output_dir := "out"; a_ba_method := Some "ba_sequential";
     a_timeline_indices := indices;
     a_geotiff_label := None; a_n_dates := None; a_cam_model := None;
     a_correction_params := None; a_predefined_matches := None;
     a_fix_ref_cam := Some fix_ref; a_ref_cam_weight := None; a_clean_outliers := None;
     a_reset := reset_flag; a_remove_FT_files := None; a_aoi_geojson := None;
     a_tracks := [] |}.


Definition orchestrate (args : Args) : IO Scene :=
  io s <- Scene_init [] args;
  run_bundle_adjustment_for_RPC_refinement example_pipeline example_reprojection_errors s.

(** The scenes that [Scene.__init__] makes of these files. *)
Definition scene_with (method : string) (sel : option (list Z)) (fix_ref : bool)
    (nd : Z) (reset_flag : bool) : Scene :=
  {| settings :=
       {| geotiff_dir := "geo"; rpc_dir := "geo"; rpc_src := "geotiff";
          dst_dir := "out"; ba_method := method; geotiff_label := None;
          n_dates := nd; cam_model := "rpc"; correction_params := ["R"];
          predefined_matches := false; ref_cam_weight := 1; clean_outliers := true;
          reset := reset_flag; remove_FT_files := false |};
     selected_timeline_indices := sel;
     fix_ref_cam := fix_ref;
     n_adj := 0; images_adj := []; images_new := [];
     tracks_config := {| FT_predefined_pairs := []; FT_settings := [] |};
     aoi_lonlat := None;
     timeline := [new_entry (day 0) ["geo/a.JP2"]; new_entry (day 1) ["geo/b.JP2"];
                  new_entry (day 2) ["geo/c.JP2"]];
     ba_data := None;
     ba_pipeline := None |}.

(** With the arguments [sequential_args None false None]. *)
Definition adjusted_scene : Scene := scene_with "ba_sequential" None false 1 true.

(** The result of [check_adjusted_dates] for the second date of that scene. *)
Definition checked_scene : bool * Scene :=
  match (check_adjusted_dates adjusted_scene "out/ba_sequential" 1
           adjusted_scene_world).1 with
  | inr r => r
  | inl _ => (false, adjusted_scene)
  end.

(** The same files when the first run was interrupted after the second
    date: no adjusted model of [c]. *)
Definition interrupted_scene_world : World :=
  {| w_fs := {| fs_dirs := fs_dirs (w_fs adjusted_scene_world);
                fs_files := delete "out/ba_sequential/rpcs_adj/c.rpc_adj"
                              (delete "out/ba_sequential/rpcs_adj/cRPC_adj.rpc_adj"
                                 adjusted_scene_files) |};
     w_trace := [] |}.

(** The same files with a directory [out/ba_fast] left by something else. *)
Definition stale_dir_world : World :=
  {| w_fs := {| fs_dirs := {[ "out/ba_fast" ]} ∪ fs_dirs (w_fs adjusted_scene_world);
                fs_files := <["out/ba_fast/notes.txt" := DataFile]> adjusted_scene_files |};
     w_trace := [] |}.

(** A configuration with a strategy name that does not exist. *)
Definition invalid_method_args : Args :=
  {| a_geotiff_dir := "geo"; a_rpc_dir := "geo"; a_rpc_src := "geotiff";
     a_output_dir := "out"; a_ba_method := Some "ba_fast";
     a_timeline_indices := None;
     a_geotiff_label := None; a_n_dates := None; a_cam_model := None;
     a_correction_params := None; a_predefined_matches := None;
     a_fix_ref_cam := None; a_ref_cam_weight := None; a_clean_outliers := None;
     a_reset := None; a_remove_FT_files := None; a_aoi_geojson := None;
     a_tracks := [] |}.

(** What a call of the optimisation core is made with, for the examples:
    the images, the number of anchors and the flag. *)
Definition call_summary (c : ba_call) : list string * Z * bool :=
  (geotiff_path <$> images (c_data c), x_n_adj (c_extra c), x_fix_ref_cam (c_extra c)).

(** A scene of one image, before anything was run. *)
Definition one_image_world : World :=
  {| w_fs := {| fs_dirs := {[ "geo" ]};
                fs_files := {[ "geo/img_01.JP2" :=
                                 ImageFile (Some (day 0)) (Some (rpc_of 1)) ]} |};
     w_trace := [] |}.

Definition one_image_args : Args :=
  {| a_geotiff_dir := "geo"; a_rpc_dir := "geo"; a_rpc_src := "geotiff";
     a_output_dir := "out"; a_ba_method := None; a_timeline_indices := None;
     a_geotiff_label := None; a_n_dates := None; a_cam_model := None;
     a_correction_params := None; a_predefined_matches := None;
     a_fix_ref_cam := None; a_ref_cam_weight := None; a_clean_outliers := None;
     a_reset := None; a_remove_FT_files := None; a_aoi_geojson := None;
     a_tracks := [] |}.

(** * Properties *)

(** ** The date clusterer *)

Lemma within_margin_iff (a b : datetime) :
  Qltb (dt_diff_in_mins a b) margin = true <-> Z.abs (a - b) < 1800000000.
Proof.
  unfold Qltb, dt_diff_in_mins, margin, total_seconds.
  rewrite negb_true_iff, <- not_true_iff_false, Qle_bool_iff.
  unfold Qle, Qabs, Qdiv, Qmult, Qinv. simpl. lia.
Qed.

Lemma strftime_far (a b : datetime) :
  1000000 <= Z.abs (a - b) -> strftime a <> strftime b.
Proof.
  intros Hfar Heq. unfold strftime in Heq.
  apply (inj pretty) in Heq.
  pose proof (Z.div_mod a 1000000 ltac:(lia)).
  pose proof (Z.div_mod b 1000000 ltac:(lia)).
  pose proof (Z.mod_pos_bound a 1000000 ltac:(lia)).
  pose proof (Z.mod_pos_bound b 1000000 ltac:(lia)).
  lia.
Qed.

#[local] Instance date_le_trans : Transitive date_le.
Proof. intros x y z; unfold date_le; lia. Qed.
#[local] Instance date_le_total : Total date_le.
Proof. intros x y; unfold date_le; lia. Qed.

Lemma enumerate_lookup {A} (l : list A) i x :
  enumerate l !! i = Some x <-> x.1 = i /\ l !! i = Some x.2.
Proof.
  unfold enumerate. rewrite lookup_zip_with_Some. split.
  - intros (a & b & -> & Ha & Hb). apply lookup_seq in Ha as [-> _]. done.
  - intros [<- H]. exists x.1, x.2. split; [by destruct x|]. split; [|done].
    apply lookup_seq. split; [done|]. by apply lookup_lt_Some in H.
Qed.

Lemma enumerate_sorted (dts : list datetime) :
  StronglySorted Z.lt dts -> StronglySorted date_le (enumerate dts).
Proof.
  unfold enumerate. generalize 0%nat.
  induction dts as [|t dts IH]; intros n Hs; simpl; [constructor|].
  apply StronglySorted_inv in Hs as [Hs Hall].
  constructor; [by apply IH|].
  apply Forall_forall. intros [i u] Hin.
  apply elem_of_zip_r in Hin. simpl in Hin.
  rewrite Forall_forall in Hall. unfold date_le; simpl. specialize (Hall u Hin). lia.
Qed.

Lemma argsort_sorted (dts : list datetime) :
  StronglySorted Z.lt dts -> argsort dts = seq 0 (length dts).
Proof.
  intros Hs. unfold argsort.
  assert (merge_sort date_le (enumerate dts) = enumerate dts) as ->.
  { apply (StronglySorted_unique_strong date_le).
    - intros x1 x2 H1 H2 H12 H21.
      rewrite merge_sort_Permutation in H1.
      apply list_elem_of_lookup in H1 as [i1 H1], H2 as [i2 H2].
      apply enumerate_lookup in H1 as [E1 H1], H2 as [E2 H2].
      unfold date_le in *.
      assert (x1.2 = x2.2) as Heq by lia.
      assert (i1 = i2).
      { destruct (decide (i1 = i2)) as [|Hne]; [done|exfalso].
        assert (forall i j (a b : Z), (i < j)%nat -> dts !! i = Some a -> dts !! j = Some b -> a < b) as Hlt.
        { clear -Hs. induction Hs as [|t l Hs IH Hall]; intros i j a b Hij Hi Hj; [done|].
          destruct i, j; simpl in *; try lia.
          - injection Hi as ->. rewrite Forall_forall in Hall. apply Hall.
            by eapply list_elem_of_lookup_2.
          - eapply IH; [|done..]. lia. }
        destruct (decide (i1 < i2)%nat).
        - pose proof (Hlt _ _ _ _ ltac:(done) H1 H2). lia.
        - pose proof (Hlt i2 i1 _ _ ltac:(lia) H2 H1). lia. }
      destruct x1, x2; simpl in *; congruence.
    - apply StronglySorted_merge_sort; apply _.
    - by apply enumerate_sorted.
    - apply merge_sort_Permutation. }
  unfold enumerate. rewrite fst_zip; [done|]. rewrite length_seq. done.
Qed.

Lemma take_indices_seq {A} (l : list A) n :
  (n <= length l)%nat -> take_indices l (seq 0 n) = inr (take n l).
Proof.
  unfold take_indices.
  assert (forall k, (k + n <= length l)%nat -> res_map (nth_res l) (seq k n) = inr (take n (drop k l))) as H.
  { induction n as [|n IH]; intros k Hk; simpl; [done|].
    unfold nth_res at 1. destruct (l !! k) as [x|] eqn:E.
    2:{ apply lookup_ge_None in E. lia. }
    simpl. rewrite IH by lia. simpl.
    rewrite (drop_S _ _ _ E). done. }
  intros Hn. rewrite (H 0%nat) by lia. by rewrite drop_0.
Qed.

Lemma group_sorted (dts : list datetime) (fnames : list string) :
  StronglySorted Z.lt dts -> length fnames = length dts ->
  group_files_by_date dts fnames =
    (do '(d, _) <- build_clusters dts fnames;
     res_map (timeline_entry dts fnames) d).
Proof.
  intros Hs Hlen. unfold group_files_by_date.
  rewrite argsort_sorted by done.
  rewrite take_indices_seq by lia. rewrite <- Hlen at 1.
  rewrite take_indices_seq by lia. simpl.
  rewrite take_ge by lia. rewrite take_ge by lia. done.
Qed.

Lemma Qltb_false_iff (x y : Q) : Qltb x y = false <-> (y <= x)%Q.
Proof. unfold Qltb. rewrite negb_false_iff. apply Qle_bool_iff. Qed.

Lemma Qltb_true_le (x y : Q) : Qltb x y = true -> (x <= y)%Q.
Proof.
  unfold Qltb. rewrite negb_true_iff, <- not_true_iff_false, Qle_bool_iff.
  intros H. apply Qlt_le_weak. by apply Qnot_le_lt.
Qed.

Lemma argmin_from_spec (l : list Q) (best : Q) (bp pos : nat) :
  exists v : Q,
    ((argmin_from best bp pos l = bp /\ v = best)
     \/ (exists k : nat, argmin_from best bp pos l = (pos + k)%nat /\ l !! k = Some v))
    /\ (v <= best)%Q /\ Forall (Qle v) l.
Proof.
  revert best bp pos. induction l as [|x l IH]; intros best bp pos; simpl.
  - exists best. split; [by left|]. split; [apply Qle_refl|constructor].
  - destruct (Qltb x best) eqn:E.
    + destruct (IH x pos (S pos)) as (v & Hpos & Hle & Hall).
      exists v. split; [|split].
      * right. destruct Hpos as [[-> ->]|(k & -> & Hk)].
        -- exists 0%nat. split; [lia|done].
        -- exists (S k). split; [lia|done].
      * eapply Qle_trans; [done|]. by apply Qltb_true_le.
      * by constructor.
    + destruct (IH best bp (S pos)) as (v & Hpos & Hle & Hall).
      exists v. split; [|split; [done|]].
      * destruct Hpos as [[-> ->]|(k & -> & Hk)]; [by left|].
        right. exists (S k). split; [lia|done].
      * constructor; [|done]. eapply Qle_trans; [done|]. by apply Qltb_false_iff.
Qed.

Lemma argmin_spec (l : list Q) :
  l <> [] -> exists v : Q, l !! argmin l = Some v /\ Forall (Qle v) l.
Proof.
  destruct l as [|x l]; [done|intros _]. simpl.
  destruct (argmin_from_spec l x 0%nat 1%nat) as (v & Hpos & Hle & Hall).
  exists v. split; [|by constructor].
  destruct Hpos as [[-> ->]|(k & -> & Hk)]; done.
Qed.

(** The dict under distinct keys *)
Lemma dict_get_lookup (d : dict) p k v :
  NoDup d.*1 -> d !! p = Some (k, v) -> dict_get d k = Some v.
Proof.
  revert p. induction d as [|[k' v'] d IH]; intros p Hnd Hp; [done|].
  simpl in *. apply NoDup_cons in Hnd as [Hnotin Hnd].
  destruct p as [|p]; simpl in Hp.
  - injection Hp as -> ->. by rewrite decide_True.
  - rewrite decide_False; [by eapply IH|].
    intros ->. apply Hnotin. apply list_elem_of_fmap. exists (k, v). split; [done|].
    by eapply list_elem_of_lookup_2.
Qed.

Lemma dict_setitem_lookup (d : dict) p k v v' :
  NoDup d.*1 -> d !! p = Some (k, v) -> dict_setitem d k v' = <[p := (k, v')]> d.
Proof.
  revert p. induction d as [|[k' w] d IH]; intros p Hnd Hp; [done|].
  simpl in *. apply NoDup_cons in Hnd as [Hnotin Hnd].
  destruct p as [|p]; simpl in Hp.
  - injection Hp as -> ->. by rewrite decide_True.
  - rewrite decide_False.
    + simpl. f_equal. by eapply IH.
    + intros ->. apply Hnotin. apply list_elem_of_fmap. exists (k, v). split; [done|].
      by eapply list_elem_of_lookup_2.
Qed.

Lemma dict_setitem_fresh (d : dict) k v :
  k ∉ d.*1 -> dict_setitem d k v = d ++ [(k, v)].
Proof.
  induction d as [|[k' w] d IH]; intros Hk; [done|]. simpl in *.
  apply not_elem_of_cons in Hk as [Hne Hk].
  rewrite decide_False by done. f_equal. by apply IH.
Qed.


Lemma sorted_lookup_le (sd : list datetime) (i j : nat) (a b : datetime) :
  StronglySorted Z.le sd -> (i <= j)%nat ->
  sd !! i = Some a -> sd !! j = Some b -> a <= b.
Proof.
  intros Hs. revert i j. induction Hs as [|t l Hs IH Hall]; intros i j Hij Hi Hj; [done|].
  destruct i, j; simpl in *; try lia.
  - injection Hi as ->. injection Hj as ->. lia.
  - injection Hi as ->. rewrite Forall_forall in Hall. apply Hall.
    by eapply list_elem_of_lookup_2.
  - eapply IH; [|done..]. lia.
Qed.

Lemma clusters_inv_keys (sd : list datetime) (i : nat) (st : dict * list datetime) :
  clusters_inv sd i st -> st.1.*1 = fmap strftime st.2 /\ NoDup st.1.*1.
Proof.
  intros (Hf & Hsep & _ & _).
  assert (st.1.*1 = fmap strftime st.2) as Hkeys.
  { clear Hsep. induction Hf as [|kv r d seen [Hk _] Hf IH]; [done|].
    rewrite fmap_cons. simpl. by f_equal. }
  split; [done|]. rewrite Hkeys. apply NoDup_alt.
  intros p q k Hp Hq.
  apply list_lookup_fmap_Some in Hp as (a & -> & Ha).
  apply list_lookup_fmap_Some in Hq as (b & Heq & Hb).
  destruct (decide (p = q)) as [|Hne]; [done|exfalso].
  destruct (decide (p < q)%nat).
  - pose proof (Hsep _ _ _ _ ltac:(done) Ha Hb).
    eapply (strftime_far a b); [lia|done].
  - pose proof (Hsep q p _ _ ltac:(lia) Hb Ha).
    eapply (strftime_far a b); [lia|done].
Qed.

Lemma cluster_ok_mono (sd : list datetime) (i : nat) kv r :
  cluster_ok sd i kv r -> cluster_ok sd (S i) kv r.
Proof.
  intros (Hk & Hne & Hm). split; [done|]. split; [done|].
  intros m Hin. destruct (Hm m Hin) as [Hlt Ht]. split; [lia|done].
Qed.

Lemma cluster_step_inv (sd : list datetime) (i : nat) (st : dict * list datetime) :
  StronglySorted Z.le sd -> (i < length sd)%nat -> clusters_inv sd i st ->
  exists st' : dict * list datetime,
    cluster_step sd st i = inr st' /\ clusters_inv sd (S i) st'.
Proof.
  intros Hs Hi Hinv.
  destruct (clusters_inv_keys _ _ _ Hinv) as [Hkeys Hnd].
  destruct Hinv as (Hf & Hsep & Hreps & Hcov).
  destruct st as [d seen]. simpl in *.
  destruct (lookup_lt_is_Some_2 sd i Hi) as [t Ht].
  assert (forall r, r ∈ seen -> r <= t) as Hle.
  { intros r Hr. destruct (Hreps r Hr) as (m & Hm & Hsm).
    eapply (sorted_lookup_le sd m i); [done|lia|done..]. }
  assert ((forall r, r ∈ seen -> r + 1800000000 <= t) ->
          clusters_inv sd (S i) (dict_setitem d (strftime t) [i], seen ++ [t])) as Hnew.
  { intros Hfar.
    assert (strftime t ∉ d.*1) as Hfresh.
    { rewrite Hkeys. intros Hin. apply list_elem_of_fmap in Hin as (r & Heq & Hr).
      specialize (Hfar r Hr). eapply (strftime_far t r); [lia|done]. }
    rewrite dict_setitem_fresh by done.
    split; [|split; [|split]]; simpl.
    - apply Forall2_app.
      + eapply Forall2_impl; [done|]. intros. by apply cluster_ok_mono.
      + constructor; [|constructor]. split; [done|]. split; [done|].
        intros m Hm. apply list_elem_of_singleton in Hm as ->.
        split; [lia|]. exists t. split; [done|lia].
    - intros p q a b Hpq Ha Hb.
      apply lookup_lt_Some in Ha as Hplt.
      destruct (decide (q < length seen)%nat).
      + rewrite lookup_app_l in Ha, Hb by lia. exact (Hsep p q a b Hpq Ha Hb).
      + rewrite length_app in Hplt. simpl in Hplt.
        apply lookup_lt_Some in Hb as Hqlt. rewrite length_app in Hqlt. simpl in Hqlt.
        assert (q = length seen) as -> by lia.
        rewrite lookup_app_l in Ha by lia.
        rewrite lookup_app_r in Hb by lia. rewrite Nat.sub_diag in Hb.
        injection Hb as <-. apply Hfar. by eapply list_elem_of_lookup_2.
    - intros r Hr. apply elem_of_app in Hr as [Hr|Hr].
      + destruct (Hreps r Hr) as (m & Hm & Hsm). exists m. split; [lia|done].
      + apply list_elem_of_singleton in Hr as ->. exists i. split; [lia|done].
    - intros m Hm. destruct (decide (m = i)) as [->|Hne].
      + exists (strftime t, [i]). split; [|by left].
        apply elem_of_app. right. by left.
      + destruct (Hcov m ltac:(lia)) as (kv & Hkv & Hin).
        exists kv. split; [|done]. apply elem_of_app. by left. }
  unfold cluster_step. unfold nth_res at 1. rewrite Ht. simpl.
  rewrite length_fmap.
  destruct seen as [|r0 seen'] eqn:Eseen.
  { simpl. eexists. split; [done|]. apply Hnew. intros r Hr. by apply elem_of_nil in Hr. }
  rewrite <- Eseen in *.
  assert ((0 <? length seen)%nat = true) as -> by (apply Nat.ltb_lt; rewrite Eseen; simpl; lia).
  set (diffs := fmap (fun x => dt_diff_in_mins x t) seen).
  destruct (argmin_spec diffs) as (v & Hv & Hmin).
  { unfold diffs. rewrite Eseen. done. }
  unfold nth_res at 1. rewrite Hv. simpl.
  apply list_lookup_fmap_Some in Hv as (r & -> & Hr).
  destruct (Qltb (dt_diff_in_mins r t) margin) eqn:Eq.
  - apply within_margin_iff in Eq.
    unfold nth_res. rewrite Hr. simpl.
    destruct (Forall2_lookup_r _ _ _ _ _ Hf Hr) as ([k members] & Hd & Hok).
    destruct Hok as (Hk & Hne & Hm). simpl in Hk, Hne, Hm. subst k.
    unfold dict_append. rewrite (dict_get_lookup d _ _ _ Hnd Hd). simpl.
    rewrite (dict_setitem_lookup d _ _ _ _ Hnd Hd).
    eexists. split; [done|].
    assert (r <= t) as Hrt by (apply Hle; by eapply list_elem_of_lookup_2).
    split; [|split; [|split]]; simpl.
    + rewrite <- (list_insert_id seen (argmin diffs) r) by done.
      apply Forall2_insert.
      * eapply Forall2_impl; [done|]. intros. by apply cluster_ok_mono.
      * split; [done|]. split; [by destruct members|]. simpl.
        intros m Hin. apply elem_of_app in Hin as [Hin|Hin].
        -- destruct (Hm m Hin) as [Hlt Hex]. split; [lia|done].
        -- apply list_elem_of_singleton in Hin as ->. split; [lia|].
           exists t. split; [done|lia].
    + done.
    + intros r' Hr'. destruct (Hreps r' Hr') as (m & Hm' & Hsm). exists m. split; [lia|done].
    + intros m Hlt.
      assert (<[argmin diffs := (strftime r, members ++ [i])]> d !! argmin diffs
              = Some (strftime r, members ++ [i])) as Hnewkv.
      { apply list_lookup_insert_eq. by apply lookup_lt_Some in Hd. }
      destruct (decide (m = i)) as [->|Hne'].
      * exists (strftime r, members ++ [i]). split.
        -- by eapply list_elem_of_lookup_2.
        -- simpl. apply elem_of_app. right. by left.
      * destruct (Hcov m ltac:(lia)) as (kv & Hkv & Hin).
        apply list_elem_of_lookup in Hkv as [p Hp].
        destruct (decide (p = argmin diffs)) as [->|Hp'].
        -- exists (strftime r, members ++ [i]). split.
           ++ by eapply list_elem_of_lookup_2.
           ++ rewrite Hd in Hp. injection Hp as <-. simpl in *.
              apply elem_of_app. by left.
        -- exists kv. split; [|done].
           eapply list_elem_of_lookup_2. rewrite list_lookup_insert_ne by done. done.
  - simpl. eexists. split; [done|]. apply Hnew.
    intros r' Hr'.
    assert (Qltb (dt_diff_in_mins r' t) margin = false) as Hfar.
    { apply Qltb_false_iff. apply Qltb_false_iff in Eq.
      eapply Qle_trans; [done|].
      rewrite Forall_forall in Hmin. apply Hmin.
      unfold diffs. apply list_elem_of_fmap. by exists r'. }
    apply not_true_iff_false in Hfar. rewrite within_margin_iff in Hfar.
    specialize (Hle r' Hr'). lia.
Qed.

Lemma res_map_Forall2 {A B : Type} (f : A -> res B) (P : A -> B -> Prop) (l : list A) :
  (forall x : A, x ∈ l -> exists y : B, f x = inr y /\ P x y) ->
  exists ys : list B, res_map f l = inr ys /\ Forall2 P l ys.
Proof.
  induction l as [|x l IH]; intros H; simpl.
  - exists []. by split.
  - destruct (H x) as (y & Hy & HP); [by left|].
    destruct IH as (ys & Hys & HF); [intros; apply H; by right|].
    exists (y :: ys). rewrite Hy, Hys. simpl. split; [done|by constructor].
Qed.

Lemma take_indices_ok {A : Type} (l : list A) (idxs : list nat) :
  Forall (fun i => (i < length l)%nat) idxs ->
  exists out : list A,
    take_indices l idxs = inr out /\ Forall2 (fun i x => l !! i = Some x) idxs out.
Proof.
  intros H. apply res_map_Forall2. intros i Hi.
  rewrite Forall_forall in H. specialize (H i Hi).
  destruct (lookup_lt_is_Some_2 l i H) as [x Hx].
  exists x. unfold nth_res. by rewrite Hx.
Qed.

Lemma build_clusters_inv (sd : list datetime) (sf : list string) :
  StronglySorted Z.le sd -> length sf = length sd ->
  exists st : dict * list datetime,
    build_clusters sd sf = inr st /\ clusters_inv sd (length sd) st.
Proof.
  intros Hs Hlen. unfold build_clusters, enumerate.
  rewrite fst_zip by (rewrite length_seq; lia). rewrite Hlen.
  assert (forall n k st, (k + n <= length sd)%nat -> clusters_inv sd k st ->
            exists st', res_fold (cluster_step sd) (seq k n) st = inr st'
                        /\ clusters_inv sd (k + n) st') as Hloop.
  { induction n as [|n IH]; intros k st Hk Hinv; simpl.
    - exists st. rewrite Nat.add_0_r. by split.
    - destruct (cluster_step_inv sd k st Hs ltac:(lia) Hinv) as (st1 & -> & Hinv1).
      simpl. destruct (IH (S k) st1 ltac:(lia) Hinv1) as (st2 & -> & Hinv2).
      exists st2. split; [done|]. by replace (k + S n)%nat with (S k + n)%nat by lia. }
  apply (Hloop (length sd) 0%nat ([], [])); [lia|].
  split; [constructor|]. split; [|split].
  - intros p q a b _ Ha. done.
  - intros r Hr. by apply elem_of_nil in Hr.
  - intros m Hm. lia.
Qed.

Lemma StronglySorted_dates (l : list (nat * datetime)) :
  StronglySorted date_le l -> StronglySorted Z.le l.*2.
Proof.
  induction 1 as [|x l Hs IH Hall]; [constructor|].
  rewrite fmap_cons. constructor; [done|].
  apply Forall_fmap. eapply Forall_impl; [done|]. by intros y Hy.
Qed.

Lemma argsort_take (dts : list datetime) (fnames : list string) :
  length dts = length fnames ->
  exists (sd : list datetime) (sf : list string),
    take_indices dts (argsort dts) = inr sd
    /\ take_indices fnames (argsort dts) = inr sf
    /\ length sf = length sd
    /\ StronglySorted Z.le sd
    /\ (forall (k : nat) (t : datetime) (f : string),
         sd !! k = Some t -> sf !! k = Some f ->
         exists i : nat, dts !! i = Some t /\ fnames !! i = Some f)
    /\ (forall (i : nat) (f : string), fnames !! i = Some f ->
         exists k : nat, sf !! k = Some f).
Proof.
  intros Hlen. unfold argsort.
  set (P := merge_sort date_le (enumerate dts)).
  assert (Forall (fun x => dts !! x.1 = Some x.2) P) as HP.
  { apply Forall_forall. intros x Hx. unfold P in Hx.
    rewrite merge_sort_Permutation in Hx.
    apply list_elem_of_lookup in Hx as [i Hi]. apply enumerate_lookup in Hi as [<- Hi]. done. }
  assert (Forall (fun i => (i < length dts)%nat) P.*1) as Hlt.
  { apply Forall_fmap. eapply Forall_impl; [done|]. intros x Hx. simpl.
    by apply lookup_lt_Some in Hx. }
  destruct (take_indices_ok dts P.*1 Hlt) as (sd & Hsd & HFd).
  rewrite Hlen in Hlt.
  destruct (take_indices_ok fnames P.*1 Hlt) as (sf & Hsf & HFf).
  exists sd, sf. split; [done|]. split; [done|].
  assert (sd = P.*2) as Esd.
  { apply list_eq. intros k. rewrite list_lookup_fmap.
    destruct (P !! k) as [x|] eqn:E; simpl.
    - rewrite Forall_forall in HP. specialize (HP x (list_elem_of_lookup_2 _ _ _ E)).
      assert (P.*1 !! k = Some x.1) as E1 by (by rewrite list_lookup_fmap, E).
      destruct (Forall2_lookup_l _ _ _ _ _ HFd E1) as (y & Hy & Hxy). congruence.
    - apply lookup_ge_None. apply lookup_ge_None in E.
      apply Forall2_length in HFd. rewrite length_fmap in HFd. lia. }
  split; [|split; [|split]].
  - apply Forall2_length in HFd, HFf. lia.
  - rewrite Esd. apply StronglySorted_dates.
    apply StronglySorted_merge_sort; apply _.
  - intros k t f Ht Hf.
    destruct (Forall2_lookup_r _ _ _ _ _ HFd Ht) as (i & Hi & Hdi).
    destruct (Forall2_lookup_r _ _ _ _ _ HFf Hf) as (i' & Hi' & Hfi).
    exists i. split; [done|]. rewrite Hi in Hi'. by injection Hi' as <-.
  - intros i f Hf.
    destruct (lookup_lt_is_Some_2 dts i) as [t Ht].
    { rewrite Hlen. by apply lookup_lt_Some in Hf. }
    assert ((i, t) ∈ P) as Hin.
    { unfold P. rewrite merge_sort_Permutation.
      apply list_elem_of_lookup. exists i. by apply enumerate_lookup. }
    apply list_elem_of_lookup in Hin as [k Hk].
    assert (P.*1 !! k = Some i) as Hk1 by (by rewrite list_lookup_fmap, Hk).
    destruct (Forall2_lookup_l _ _ _ _ _ HFf Hk1) as (f' & Hf' & Hif).
    exists k. congruence.
Qed.

Lemma timeline_entries_ok (sd : list datetime) (sf : list string)
    (st : dict * list datetime) :
  length sf = length sd -> clusters_inv sd (length sd) st ->
  exists tl : Timeline,
    res_map (timeline_entry sd sf) st.1 = inr tl
    /\ Forall2 (fun kv e => t_id e = kv.1
                 /\ Forall2 (fun m f => sf !! m = Some f) kv.2 (t_fnames e)
                 /\ forall m1 m2 a b, m1 ∈ kv.2 -> m2 ∈ kv.2 ->
                      sd !! m1 = Some a -> sd !! m2 = Some b ->
                      Z.abs (a - b) < 1800000000) st.1 tl.
Proof.
  intros Hlen (Hf & _ & _ & _). apply res_map_Forall2.
  intros [k members] Hin.
  apply list_elem_of_lookup in Hin as [p Hp].
  destruct (Forall2_lookup_l _ _ _ _ _ Hf Hp) as (r & Hr & Hk & Hne & Hm).
  simpl in *. destruct members as [|m0 members']; [done|].
  set (members := m0 :: members') in *.
  destruct (Hm m0) as (Hlt0 & t0 & Ht0 & _); [by left|].
  destruct (take_indices_ok sf members) as (fs & Hfs & HF).
  { apply Forall_forall. intros m Hmin. rewrite Hlen. by destruct (Hm m Hmin). }
  eexists. unfold timeline_entry. unfold nth_res at 1. simpl.
  unfold nth_res at 1. rewrite Ht0. simpl. fold members. rewrite Hfs. simpl.
  split; [done|]. simpl. split; [done|]. split; [done|].
  intros m1 m2 a b H1 H2 Ha Hb.
  destruct (Hm m1 H1) as (_ & a' & Ha' & Hra).
  destruct (Hm m2 H2) as (_ & b' & Hb' & Hrb).
  assert (a' = a) by congruence. assert (b' = b) by congruence. lia.
Qed.

(** Any two images of one timeline entry were acquired less than 30 minutes
    apart. *)
Lemma group_files_by_date_spec (dts : list datetime) (fnames : list string) :
  length dts = length fnames -> NoDup fnames ->
  exists tl : Timeline,
    group_files_by_date dts fnames = inr tl
    /\ (forall (i : nat) (f : string), fnames !! i = Some f ->
         exists e : TimelineEntry, e ∈ tl /\ f ∈ t_fnames e)
    /\ forall (e : TimelineEntry) (i j : nat) (t1 t2 : datetime) (f1 f2 : string),
         e ∈ tl ->
         dts !! i = Some t1 -> fnames !! i = Some f1 ->
         dts !! j = Some t2 -> fnames !! j = Some f2 ->
         f1 ∈ t_fnames e -> f2 ∈ t_fnames e ->
         Z.abs (t1 - t2) < 1800000000.
Proof.
  intros Hlen Hnd. unfold group_files_by_date.
  destruct (argsort_take dts fnames Hlen)
    as (sd & sf & -> & -> & Hl & Hs & Horig & Hconv).
  simpl.
  destruct (build_clusters_inv sd sf Hs Hl) as ([d seen] & -> & Hinv). simpl.
  destruct (timeline_entries_ok sd sf (d, seen) Hl Hinv) as (tl & Htl & HF).
  simpl in Htl. rewrite Htl.
  exists tl. split; [done|]. split.
  { intros i f Hif. destruct (Hconv i f Hif) as (k & Hk).
    destruct Hinv as (_ & _ & _ & Hcov).
    destruct (Hcov k) as (kv & Hkv & Hin).
    { rewrite <- Hl. by apply lookup_lt_Some in Hk. }
    simpl in Hkv. apply list_elem_of_lookup in Hkv as [p Hp].
    destruct (Forall2_lookup_l _ _ _ _ _ HF Hp) as (e & He & _ & Hfn & _).
    exists e. split; [by eapply list_elem_of_lookup_2|].
    apply list_elem_of_lookup in Hin as [q Hq].
    destruct (Forall2_lookup_l _ _ _ _ _ Hfn Hq) as (f' & Hf' & Hkf).
    assert (f' = f) as -> by congruence.
    by eapply list_elem_of_lookup_2. }
  intros e i j t1 t2 f1 f2 He Hi1 Hi2 Hj1 Hj2 H1 H2.
  apply list_elem_of_lookup in He as [p Hp].
  destruct (Forall2_lookup_r _ _ _ _ _ HF Hp) as ([k members] & Hd & _ & Hfn & Hclose).
  simpl in *.
  apply list_elem_of_lookup in H1 as [q1 Hq1], H2 as [q2 Hq2].
  destruct (Forall2_lookup_r _ _ _ _ _ Hfn Hq1) as (m1 & Hm1 & Hsf1).
  destruct (Forall2_lookup_r _ _ _ _ _ Hfn Hq2) as (m2 & Hm2 & Hsf2).
  assert (forall m f i t, sf !! m = Some f -> fnames !! i = Some f -> dts !! i = Some t ->
                          sd !! m = Some t) as Hback.
  { intros m f i0 t Hmf Hif Hit.
    destruct (lookup_lt_is_Some_2 sd m) as [t' Ht'].
    { rewrite <- Hl. by apply lookup_lt_Some in Hmf. }
    destruct (Horig m t' f Ht' Hmf) as (i' & Hi' & Hfi').
    assert (i' = i0) by (eapply NoDup_lookup; done). congruence. }
  eapply (Hclose m1 m2).
  - by eapply list_elem_of_lookup_2.
  - by eapply list_elem_of_lookup_2.
  - by eapply Hback.
  - by eapply Hback.
Qed.


Lemma within_margin_decide (a b : datetime) :
  Qltb (dt_diff_in_mins a b) margin = bool_decide (Z.abs (a - b) < minutes 30).
Proof.
  destruct (Qltb _ _) eqn:E; symmetry.
  - apply bool_decide_eq_true. by apply within_margin_iff.
  - apply bool_decide_eq_false. rewrite <- within_margin_iff. congruence.
Qed.


#[local] Arguments strftime : simpl never.
#[local] Arguments dt_diff_in_mins : simpl never.

Ltac cluster_eval :=
  repeat first
    [ progress simpl
    | rewrite within_margin_decide
    | rewrite bool_decide_eq_true_2 by (unfold minutes in *; lia)
    | rewrite bool_decide_eq_false_2 by (unfold minutes in *; lia)
    | rewrite decide_True by done
    | rewrite decide_False by (apply strftime_far; unfold minutes in *; lia) ].

Lemma clusters_two_close (a b : datetime) (fa fb : string) :
  a <= b -> b - a < minutes 30 ->
  (do '(d, _) <- build_clusters [a; b] [fa; fb];
   res_map (timeline_entry [a; b] [fa; fb]) d) = inr [new_entry a [fa; fb]].
Proof.
  intros Hab Hclose. unfold build_clusters, cluster_step, dict_append, new_entry.
  cluster_eval. done.
Qed.

Lemma clusters_two_far (a b : datetime) (fa fb : string) :
  minutes 30 <= b - a ->
  (do '(d, _) <- build_clusters [a; b] [fa; fb];
   res_map (timeline_entry [a; b] [fa; fb]) d)
  = inr [new_entry a [fa]; new_entry b [fb]].
Proof.
  intros Hfar. unfold build_clusters, cluster_step, dict_append, new_entry.
  cluster_eval. done.
Qed.

Lemma group_two (t1 t2 : datetime) (f1 f2 : string) :
  group_files_by_date [t1; t2] [f1; f2] =
    if decide (t1 <= t2) then
      (do '(d, _) <- build_clusters [t1; t2] [f1; f2];
       res_map (timeline_entry [t1; t2] [f1; f2]) d)
    else
      (do '(d, _) <- build_clusters [t2; t1] [f2; f1];
       res_map (timeline_entry [t2; t1] [f2; f1]) d).
Proof.
  unfold group_files_by_date, argsort, enumerate, merge_sort. simpl.
  destruct (decide (date_le (0%nat, t1) (1%nat, t2))) as [H|H];
    unfold date_le in H; simpl in H;
    [rewrite decide_True by done|rewrite decide_False by done]; done.
Qed.

Lemma clusters_three (t0 : datetime) (f1 f2 f3 : string) :
  (do '(d, _) <- build_clusters [t0; t0 + minutes 20; t0 + minutes 35] [f1; f2; f3];
   res_map (timeline_entry [t0; t0 + minutes 20; t0 + minutes 35] [f1; f2; f3]) d)
  = inr [new_entry t0 [f1; f2]; new_entry (t0 + minutes 35) [f3]].
Proof.
  unfold build_clusters, cluster_step, dict_append, new_entry.
  cluster_eval. done.
Qed.

(** C1, as amended.  Of three images acquired at [t0], [t0 + 20 min] and
    [t0 + 35 min], the first two form one cluster, whose representative is
    [t0], and the third one starts a cluster of its own: the only
    representative it is compared with is [t0], 35 minutes away; the second
    image is a member of a cluster, not a representative, and its distance
    of 15 minutes plays no role. *)
Theorem C1_third_image_starts_new_cluster (t0 : datetime) (f1 f2 f3 : string) :
  group_files_by_date [t0; t0 + minutes 20; t0 + minutes 35] [f1; f2; f3]
  = inr [new_entry t0 [f1; f2]; new_entry (t0 + minutes 35) [f3]].
Proof.
  rewrite group_sorted.
  - apply clusters_three.
  - unfold minutes. repeat constructor; lia.
  - done.
Qed.

(** C1 as stated fails: on 2020-01-01 at 00:00, 00:20 and 00:35 the third
    image is not in the timeline entry of the second one. *)
Lemma C1_third_image_not_with_second :
  exists tl : Timeline,
    group_files_by_date
      [1577836800000000; 1577836800000000 + minutes 20; 1577836800000000 + minutes 35]
      ["img_a.JP2"; "img_b.JP2"; "img_c.JP2"] = inr tl
    /\ ~ (exists e : TimelineEntry,
            e ∈ tl /\ "img_b.JP2" ∈ t_fnames e /\ "img_c.JP2" ∈ t_fnames e).
Proof.
  eexists. split; [vm_compute; reflexivity|].
  intros (e & He & Hb & Hc).
  apply elem_of_cons in He as [->|He]; simpl in *.
  - apply elem_of_cons in Hc as [Hc|Hc]; [done|].
    apply elem_of_cons in Hc as [Hc|Hc]; [done|]. by apply elem_of_nil in Hc.
  - apply elem_of_cons in He as [->|He]; [|by apply elem_of_nil in He]. simpl in *.
    apply elem_of_cons in Hb as [Hb|Hb]; [done|]. by apply elem_of_nil in Hb.
Qed.

(** C9.  In any scene with distinct file names, [group_files_by_date]
    returns a timeline in which every image is in an entry and two images
    acquired exactly 30 minutes apart are never in the same entry; when the
    scene has two images only, acquired less than 30 minutes apart (29.999
    minutes, say), the timeline has one entry, with both. *)
Theorem C9_threshold_is_strict (dts : list datetime) (fnames : list string) :
  length dts = length fnames -> NoDup fnames ->
  exists tl : Timeline,
    group_files_by_date dts fnames = inr tl
    /\ (forall (i : nat) (f : string), fnames !! i = Some f ->
          exists e : TimelineEntry, e ∈ tl /\ f ∈ t_fnames e)
    /\ (forall (i j : nat) (t1 t2 : datetime) (f1 f2 : string),
          dts !! i = Some t1 -> fnames !! i = Some f1 ->
          dts !! j = Some t2 -> fnames !! j = Some f2 ->
          Z.abs (t1 - t2) = minutes 30 ->
          forall e : TimelineEntry, e ∈ tl -> ~ (f1 ∈ t_fnames e /\ f2 ∈ t_fnames e))
    /\ (forall (t1 t2 : datetime) (f1 f2 : string),
          dts = [t1; t2] -> fnames = [f1; f2] ->
          Z.abs (t1 - t2) < minutes 30 ->
          exists e : TimelineEntry, tl = [e] /\ f1 ∈ t_fnames e /\ f2 ∈ t_fnames e).
Proof.
  intros Hlen Hnd.
  destruct (group_files_by_date_spec dts fnames Hlen Hnd) as (tl & Htl & Hcov & Hclose).
  exists tl. split; [done|]. split; [done|]. split.
  - intros i j t1 t2 f1 f2 Hi1 Hi2 Hj1 Hj2 Hdiff e He [H1 H2].
    pose proof (Hclose e i j t1 t2 f1 f2 He Hi1 Hi2 Hj1 Hj2 H1 H2).
    unfold minutes in Hdiff. lia.
  - intros t1 t2 f1 f2 -> -> Hdiff.
    rewrite group_two in Htl.
    destruct (decide (t1 <= t2)).
    + rewrite clusters_two_close in Htl by lia. injection Htl as <-.
      eexists. split; [done|]. simpl. split; [by left|]. right. by left.
    + rewrite clusters_two_close in Htl by lia. injection Htl as <-.
      eexists. split; [done|]. simpl. split; [|by left]. right. by left.
Qed.

Lemma C9_threshold_is_strict_witness :
  exists tl : Timeline,
    group_files_by_date [1577836800000000; 1577836800000000 + minutes 30]
      ["img_a.JP2"; "img_b.JP2"] = inr tl
    /\ (forall (i : nat) (f : string), ["img_a.JP2"; "img_b.JP2"] !! i = Some f ->
          exists e : TimelineEntry, e ∈ tl /\ f ∈ t_fnames e)
    /\ (forall (i j : nat) (t1 t2 : datetime) (f1 f2 : string),
          [1577836800000000; 1577836800000000 + minutes 30] !! i = Some t1 ->
          ["img_a.JP2"; "img_b.JP2"] !! i = Some f1 ->
          [1577836800000000; 1577836800000000 + minutes 30] !! j = Some t2 ->
          ["img_a.JP2"; "img_b.JP2"] !! j = Some f2 ->
          Z.abs (t1 - t2) = minutes 30 ->
          forall e : TimelineEntry, e ∈ tl -> ~ (f1 ∈ t_fnames e /\ f2 ∈ t_fnames e))
    /\ (forall (t1 t2 : datetime) (f1 f2 : string),
          [1577836800000000; 1577836800000000 + minutes 30] = [t1; t2] ->
          ["img_a.JP2"; "img_b.JP2"] = [f1; f2] ->
          Z.abs (t1 - t2) < minutes 30 ->
          exists e : TimelineEntry, tl = [e] /\ f1 ∈ t_fnames e /\ f2 ∈ t_fnames e).
Proof.
  apply (C9_threshold_is_strict
           [1577836800000000; 1577836800000000 + minutes 30]
           ["img_a.JP2"; "img_b.JP2"]).
  - reflexivity.
  - apply (bool_decide_unpack _). vm_compute. exact I.
Defined.

(** ** The pair generator *)

Lemma entries_of_counts (tl : Timeline) (a b c : Z) :
  t_n_images <$> tl = [a; b; c] ->
  exists e0 e1 e2 : TimelineEntry,
    tl = [e0; e1; e2] /\ t_n_images e0 = a /\ t_n_images e1 = b /\ t_n_images e2 = c.
Proof.
  destruct tl as [|e0 [|e1 [|e2 [|]]]]; try discriminate.
  intros H. injection H as H0 H1 H2. by exists e0, e1, e2.
Qed.

(** The lookahead is clamped: once it reaches the number of dates left, a
    larger one changes nothing. *)
Lemma pairs_step_clamp (tl : Timeline) (idxs : list Z) (n1 n2 L : Z) (b : bool)
    (st : pairs_state) (kt : nat * Z) :
  dates_left st <= L -> L - 1 <= n1 -> L - 1 <= n2 ->
  pairs_step tl idxs n1 b st kt = pairs_step tl idxs n2 b st kt
  /\ forall st', pairs_step tl idxs n1 b st kt = inr st' -> dates_left st' <= L.
Proof.
  intros HL H1 H2. unfold pairs_step. destruct kt as [k t_idx].
  destruct (py_getitem tl t_idx) as [e|entry]; simpl; [done|].
  rewrite (Z.min_r (n1 + 1)) by lia. rewrite (Z.min_r (n2 + 1)) by lia.
  split; [done|]. intros st'.
  destruct (res_fold _ _ _); simpl; [done|]. intros [= <-]. simpl. lia.
Qed.

Lemma load_pairs_clamp (tl : Timeline) (idxs : list Z) (n : Z) (b : bool) :
  Z.of_nat (length idxs) - 1 <= n ->
  load_pairs_from_same_date_and_next_dates tl idxs n b
  = load_pairs_from_same_date_and_next_dates tl idxs (Z.of_nat (length idxs) - 1) b.
Proof.
  intros Hn. unfold load_pairs_from_same_date_and_next_dates.
  set (L := Z.of_nat (length idxs)).
  f_equal.
  assert (forall l st, dates_left st <= L ->
            res_fold (pairs_step tl idxs n b) l st
            = res_fold (pairs_step tl idxs (L - 1) b) l st) as H.
  { induction l as [|kt l IH]; intros st Hst; simpl; [done|].
    destruct (pairs_step_clamp tl idxs n (L - 1) L b st kt Hst Hn ltac:(lia)) as [Heq Hdl].
    rewrite <- Heq. destruct (pairs_step tl idxs n b st kt) as [e|st'] eqn:E; simpl; [done|].
    apply IH. by apply Hdl. }
  apply H. simpl. lia.
Qed.

(** C7.  On three selected dates with 2, 1 and 3 images and lookahead 1 the
    pair generator returns 9 pairs: (0,1) within the first date, (3,4), (3,5),
    (4,5) within the third, 2 pairs between the first and the second date, 3
    between the second and the third; no pair occurs twice and each has its
    smaller index first.  The lookahead is clamped to the dates that remain:
    from 2 on (there are never more than 2 dates after one of 3) it changes
    nothing. *)
Theorem C7_pairs_for_2_1_3_images (tl : Timeline) :
  t_n_images <$> tl = [2; 1; 3] ->
  let pairs := [(0, 1); (0, 2); (1, 2); (2, 3); (2, 4); (2, 5); (3, 4); (3, 5); (4, 5)] in
  load_pairs_from_same_date_and_next_dates tl [0; 1; 2] 1 true = inr pairs
  /\ length pairs = 9%nat
  /\ NoDup pairs
  /\ Forall (fun p => p.1 < p.2) pairs
  /\ forall next_dates : Z, 2 <= next_dates ->
       load_pairs_from_same_date_and_next_dates tl [0; 1; 2] next_dates true
       = load_pairs_from_same_date_and_next_dates tl [0; 1; 2] 2 true.
Proof.
  intros H. destruct (entries_of_counts _ _ _ _ H) as (e0 & e1 & e2 & -> & H0 & H1 & H2).
  destruct e0, e1, e2. simpl in H0, H1, H2. subst.
  split; [vm_compute; reflexivity|]. split; [done|]. split; [|split].
  - apply (bool_decide_unpack _). vm_compute. exact I.
  - repeat constructor.
  - intros n Hn. by rewrite (load_pairs_clamp _ _ n) by (simpl; lia).
Qed.

Lemma C7_pairs_for_2_1_3_images_witness :
  load_pairs_from_same_date_and_next_dates timeline_2_1_3 [0; 1; 2] 1 true
  = inr [(0, 1); (0, 2); (1, 2); (2, 3); (2, 4); (2, 5); (3, 4); (3, 5); (4, 5)].
Proof.
  apply (C7_pairs_for_2_1_3_images timeline_2_1_3). reflexivity.
Defined.

(** ** The camera-model store *)

(** C2 at a scene of one image [geo/img_01.JP2]: [Scene.__init__] stores its
    initial model in [out/rpcs_init/img_01.rpc]; loading the new images of
    date 0 then looks up [out/rpcs_init/img_01RPC_adj.rpc], because
    [load_rpcs_from_dir] puts its default suffix ["RPC_adj"] into the name,
    and raises: the model that was saved is not the one that is looked up. *)
Lemma C2_saved_model_is_not_found :
  init_rpc_fname
    {| geotiff_dir := "geo"; rpc_dir := "geo"; rpc_src := "geotiff"; dst_dir := "out";
       ba_method := "ba_bruteforce"; geotiff_label := None; n_dates := 1;
       cam_model := "rpc"; correction_params := ["R"]; predefined_matches := false;
       ref_cam_weight := 1; clean_outliers := true; reset := true;
       remove_FT_files := false |} "geo/img_01.JP2"
  = "out/rpcs_init/img_01.rpc"
  /\ rpc_path "out/rpcs_init" default_suffix "rpc" "geo/img_01.JP2"
     = "out/rpcs_init/img_01RPC_adj.rpc"
  /\ exists w : World,
       (io s <- Scene_init [] one_image_args;
        load_data_from_dates s [0] "out/ba_bruteforce" false) one_image_world
       = (inl (FileNotFoundError "out/rpcs_init/img_01RPC_adj.rpc"), w)
       /\ fs_files (w_fs w) !! "out/rpcs_init/img_01.rpc" = Some (RpcFile (rpc_of 1))
       /\ fs_files (w_fs w) !! "out/rpcs_init/img_01RPC_adj.rpc" = None.
Proof.
  split; [vm_compute; reflexivity|]. split; [vm_compute; reflexivity|].
  eexists. split; [vm_compute; reflexivity|]. split; vm_compute; reflexivity.
Qed.

(** What [load_offsets_from_dir] makes of an offsets file. *)
Lemma load_offsets_reads_col_offset (w : World) (P_dir suffix fname : string)
    (d : gmap string json) (c wd h : json) :
  fs_files (w_fs w) !! offsets_path P_dir suffix fname = Some (JsonFile d) ->
  d !! "col_offset" = Some c -> d !! "width" = Some wd -> d !! "height" = Some h ->
  (load_offsets_from_dir [fname] P_dir suffix w).1
  = inr [{| l_col0 := c; l_row0 := c; l_width := wd; l_height := h |}].
Proof.
  intros Hfile Hc Hw Hh.
  unfold load_offsets_from_dir, load_dict_from_json, read_file, json_getitem.
  unfold io_map, io_bind, emit, get_fs, io_ret. simpl.
  rewrite Hfile. simpl. rewrite Hc. simpl. rewrite Hw. simpl. rewrite Hh. done.
Qed.

(** What [save_projection_matrices] leaves in the file it writes. *)
Lemma save_projection_matrices_file (w w' : World) (fn : string)
    (P : list (list Q)) (offset : crop_offset) :
  save_projection_matrices [fn] [P] [offset] w = (inr tt, w') ->
  exists d : gmap string json,
    fs_files (w_fs w') !! fn = Some (JsonFile d)
    /\ d !! "col_offset" = Some (JInt (py_int (col0 offset)))
    /\ d !! "row_offset" = Some (JInt (py_int (row0 offset)))
    /\ d !! "width" = Some (JInt (py_int (width offset)))
    /\ d !! "height" = Some (JInt (py_int (height offset))).
Proof.
  unfold save_projection_matrices, save_dict_to_json, write_file, os_makedirs.
  unfold io_fold, io_bind, io_lift, emit, get_fs, put_fs, io_ret, io_raise. simpl.
  destruct (decide (dirname fn = "")); [done|]. simpl.
  destruct (nth_res P 0) as [|r0]; [done|].
  destruct (nth_res P 1) as [|r1]; [done|].
  destruct (nth_res P 2) as [|r2]; [done|]. simpl.
  destruct (bool_decide (dirname fn = "") || _); [|done].
  intros [= <-]. simpl. eexists. split; [apply lookup_insert_eq|].
  repeat split; reflexivity.
Qed.

(** C10.  Whatever an offsets file holds under ["row_offset"],
    [load_offsets_from_dir] fills both [col0] and [row0] with what it holds
    under ["col_offset"]; after [save_projection_matrices] has written the
    file of an image, it returns the column offset as row offset, so that a row
    offset that differs from the column offset does not come back. *)
Theorem C10_row0_is_read_from_col_offset (w : World) (P_dir suffix fname : string) :
  (forall (d : gmap string json) (c r wd h : json),
     fs_files (w_fs w) !! offsets_path P_dir suffix fname = Some (JsonFile d) ->
     d !! "col_offset" = Some c -> d !! "row_offset" = Some r ->
     d !! "width" = Some wd -> d !! "height" = Some h ->
     (load_offsets_from_dir [fname] P_dir suffix w).1
     = inr [{| l_col0 := c; l_row0 := c; l_width := wd; l_height := h |}])
  /\ (forall (w0 : World) (P : list (list Q)) (offset : crop_offset),
        save_projection_matrices [offsets_path P_dir suffix fname] [P] [offset] w0
        = (inr tt, w) ->
        exists o : loaded_crop_offset,
          (load_offsets_from_dir [fname] P_dir suffix w).1 = inr [o]
          /\ l_col0 o = JInt (py_int (col0 offset))
          /\ l_row0 o = JInt (py_int (col0 offset))
          /\ (py_int (col0 offset) <> py_int (row0 offset) ->
              l_row0 o <> JInt (py_int (row0 offset)))).
Proof.
  split.
  - intros d c r wd h Hfile Hc _ Hw Hh. by eapply load_offsets_reads_col_offset.
  - intros w0 P offset Hsave.
    destruct (save_projection_matrices_file _ _ _ _ _ Hsave) as (d & Hfile & Hc & _ & Hw & Hh).
    eexists. split; [by eapply load_offsets_reads_col_offset|]. simpl.
    split; [done|]. split; [done|]. intros Hne [= Heq]. done.
Qed.

Lemma C10_row0_is_read_from_col_offset_witness :
  exists o : loaded_crop_offset,
    (load_offsets_from_dir ["geo/img_01.JP2"] "out/P_adj" "pinhole_adj"
       (save_projection_matrices
          [offsets_path "out/P_adj" "pinhole_adj" "geo/img_01.JP2"]
          [[[1%Q; 0%Q; 0%Q; 0%Q]; [0%Q; 1%Q; 0%Q; 0%Q]; [0%Q; 0%Q; 0%Q; 1%Q]]]
          [{| col0 := 5; row0 := 7; width := 100; height := 200 |}]
          one_image_world).2).1 = inr [o]
    /\ l_col0 o = JInt 5
    /\ l_row0 o = JInt 5
    /\ (5 <> 7 -> l_row0 o <> JInt 7).
Proof.
  apply (proj2 (C10_row0_is_read_from_col_offset
                  (save_projection_matrices
                     [offsets_path "out/P_adj" "pinhole_adj" "geo/img_01.JP2"]
                     [[[1%Q; 0%Q; 0%Q; 0%Q]; [0%Q; 1%Q; 0%Q; 0%Q]; [0%Q; 0%Q; 0%Q; 1%Q]]]
                     [{| col0 := 5; row0 := 7; width := 100; height := 200 |}]
                     one_image_world).2
                  "out/P_adj" "pinhole_adj" "geo/img_01.JP2")
           one_image_world
           [[1%Q; 0%Q; 0%Q; 0%Q]; [0%Q; 1%Q; 0%Q; 0%Q]; [0%Q; 0%Q; 0%Q; 1%Q]]
           {| col0 := 5; row0 := 7; width := 100; height := 200 |}).
  vm_compute. reflexivity.
Defined.

(** ** Reasoning about [IO] computations *)

Lemma io_bind_inr {A B : Type} (m : IO A) (k : A -> IO B) (w w' : World) (b : B) :
  io_bind m k w = (inr b, w') ->
  exists (a : A) (w1 : World), m w = (inr a, w1) /\ k a w1 = (inr b, w').
Proof.
  unfold io_bind. destruct (m w) as [[e|a] w1]; [done|]. intros H. by exists a, w1.
Qed.

Lemma io_lift_inr {A : Type} (r : res A) (w w' : World) (a : A) :
  io_lift r w = (inr a, w') -> r = inr a /\ w' = w.
Proof. unfold io_lift. by intros [= -> ->]. Qed.

Lemma io_ret_inr {A : Type} (x a : A) (w w' : World) :
  io_ret x w = (inr a, w') -> a = x /\ w' = w.
Proof. unfold io_ret. by intros [= -> ->]. Qed.

(** ** The adjustment-state tracker *)

Lemma mark_one_length (adj_id : string) (t_idx : Z) (st : Timeline * bool) (idx : nat) :
  length (mark_one adj_id t_idx st idx).1 = length st.1.
Proof.
  unfold mark_one. destruct (st.1 !! idx); [|done].
  destruct (_ && _); [|done]. simpl. by rewrite length_insert.
Qed.

Lemma mark_one_ge (adj_id : string) (t_idx : Z) (st : Timeline * bool) (idx pos : nat) :
  t_idx <= Z.of_nat pos ->
  (mark_one adj_id t_idx st idx).1 !! pos = st.1 !! pos.
Proof.
  intros Hge. unfold mark_one. destruct (st.1 !! idx) as [e|]; [|done].
  destruct (bool_decide _) eqn:E1; simpl; [|done].
  destruct (Z.of_nat idx <? t_idx) eqn:E2; simpl; [|done].
  apply Z.ltb_lt in E2. apply list_lookup_insert_ne. lia.
Qed.

Lemma mark_one_static (adj_id : string) (t_idx : Z) (st : Timeline * bool) (idx : nat) :
  t_fnames <$> (mark_one adj_id t_idx st idx).1 = t_fnames <$> st.1
  /\ t_id <$> (mark_one adj_id t_idx st idx).1 = t_id <$> st.1.
Proof.
  unfold mark_one. destruct (st.1 !! idx) as [e|] eqn:E; [|done].
  destruct (_ && _); [|done]. simpl.
  rewrite !list_fmap_insert. simpl.
  split; apply list_insert_id; by rewrite list_lookup_fmap, E.
Qed.

Lemma mark_inner_ge (adj_id : string) (t_idx : Z) (idxs : list nat)
    (st : Timeline * bool) (pos : nat) :
  t_idx <= Z.of_nat pos ->
  (foldl (mark_one adj_id t_idx) st idxs).1 !! pos = st.1 !! pos.
Proof.
  intros Hge. revert st. induction idxs as [|i idxs IH]; intros st; simpl; [done|].
  rewrite IH. by apply mark_one_ge.
Qed.

Lemma mark_inner_static (adj_id : string) (t_idx : Z) (idxs : list nat)
    (st : Timeline * bool) :
  t_fnames <$> (foldl (mark_one adj_id t_idx) st idxs).1 = t_fnames <$> st.1
  /\ t_id <$> (foldl (mark_one adj_id t_idx) st idxs).1 = t_id <$> st.1.
Proof.
  revert st. induction idxs as [|i idxs IH]; intros st; simpl; [done|].
  destruct (IH (mark_one adj_id t_idx st i)) as [-> ->]. apply mark_one_static.
Qed.

Lemma mark_adjusted_dates_ge (timeline_adj : Timeline) (t_idx : Z)
    (st : Timeline * bool) (pos : nat) :
  t_idx <= Z.of_nat pos ->
  (mark_adjusted_dates timeline_adj t_idx st).1 !! pos = st.1 !! pos.
Proof.
  intros Hge. unfold mark_adjusted_dates. revert st.
  induction timeline_adj as [|d tl IH]; intros st; simpl; [done|].
  rewrite IH. by apply mark_inner_ge.
Qed.

Lemma mark_adjusted_dates_static (timeline_adj : Timeline) (t_idx : Z)
    (st : Timeline * bool) :
  t_fnames <$> (mark_adjusted_dates timeline_adj t_idx st).1 = t_fnames <$> st.1
  /\ t_id <$> (mark_adjusted_dates timeline_adj t_idx st).1 = t_id <$> st.1.
Proof.
  unfold mark_adjusted_dates. revert st.
  induction timeline_adj as [|d tl IH]; intros st; simpl; [done|].
  destruct (IH (foldl (mark_one (t_id d) t_idx) st (seq 0 (length st.1)))) as [-> ->].
  apply mark_inner_static.
Qed.

(** What [check_adjusted_dates] can do to the scene: nothing but replace the
    timeline by a marked one. *)
Lemma check_adjusted_dates_scene (s s' : Scene) (input_dir : string) (t_idx : Z)
    (w w' : World) (found : bool) :
  check_adjusted_dates s input_dir t_idx w = (inr (found, s'), w') ->
  exists timeline_adj : Timeline,
    s' = set_timeline s (mark_adjusted_dates timeline_adj t_idx (timeline s, false)).1
    \/ s' = s.
Proof.
  unfold check_adjusted_dates. intros H.
  apply io_bind_inr in H as (is_dir & w1 & _ & H).
  destruct is_dir.
  - apply io_bind_inr in H as (adj_paths & w2 & _ & H).
    apply io_bind_inr in H as (found_paths & w3 & _ & H).
    apply io_bind_inr in H as (datetimes_adj & w4 & _ & H).
    apply io_bind_inr in H as (timeline_adj & w5 & _ & H).
    exists timeline_adj. left.
    destruct (mark_adjusted_dates _ _ _) as [tl fnd]. simpl.
    apply io_ret_inr in H as [[= -> ->] _]. done.
  - exists []. right. apply io_ret_inr in H as [[= -> ->] _]. done.
Qed.

(** C6.  Whatever files exist on disk, [check_adjusted_dates], called with
    the index [t_idx] of the date being processed, leaves every timeline
    entry at a position [>= t_idx] as it is: it never sets [adjusted] there. *)
Theorem C6_no_entry_marked_from_t_idx_on (s s' : Scene) (input_dir : string)
    (t_idx : Z) (w w' : World) (found : bool) (pos : nat) :
  check_adjusted_dates s input_dir t_idx w = (inr (found, s'), w') ->
  t_idx <= Z.of_nat pos ->
  timeline s' !! pos = timeline s !! pos.
Proof.
  intros H Hge. apply check_adjusted_dates_scene in H as (tl_adj & [-> | ->]); [|done].
  simpl. by apply mark_adjusted_dates_ge.
Qed.

Lemma C6_no_entry_marked_from_t_idx_on_witness :
  timeline checked_scene.2 !! 1%nat = timeline adjusted_scene !! 1%nat.
Proof.
  apply (C6_no_entry_marked_from_t_idx_on adjusted_scene checked_scene.2
           "out/ba_sequential" 1 adjusted_scene_world
           (check_adjusted_dates adjusted_scene "out/ba_sequential" 1
              adjusted_scene_world).2
           checked_scene.1 1%nat).
  - vm_compute. reflexivity.
  - lia.
Defined.

(** In that scene the adjusted models of all three dates are on disk; with
    [t_idx = 1] the first date is marked and the other two are not. *)
Example check_adjusted_dates_marks_earlier_dates_only :
  Scene_init [] (sequential_args None false None) adjusted_scene_world
  = (inr adjusted_scene, (Scene_init [] (sequential_args None false None)
                            adjusted_scene_world).2)
  /\ checked_scene.1 = true
  /\ t_adjusted <$> timeline checked_scene.2 = [true; false; false].
Proof. split; [|split]; vm_compute; reflexivity. Qed.

(** ** Calls of the optimisation core in the trace *)

Lemma ba_calls_app (t1 t2 : list io_event) :
  ba_calls (t1 ++ t2) = ba_calls t1 ++ ba_calls t2.
Proof. unfold ba_calls. apply omap_app. Qed.


Lemma quiet_calls {A : Type} (m : IO A) (w : World) :
  quiet m -> ba_calls (w_trace (m w).2) = ba_calls (w_trace w).
Proof.
  intros Hm. destruct (Hm w) as (evs & -> & Hevs).
  by rewrite ba_calls_app, Hevs, app_nil_r.
Qed.

Lemma quiet_ret {A : Type} (a : A) : quiet (io_ret a).
Proof. intros w. exists []. by rewrite app_nil_r. Qed.

Lemma quiet_raise {A : Type} (e : exn) : quiet (@io_raise A e).
Proof. intros w. exists []. by rewrite app_nil_r. Qed.

Lemma quiet_lift {A : Type} (r : res A) : quiet (io_lift r).
Proof. intros w. exists []. by rewrite app_nil_r. Qed.

Lemma quiet_get_fs : quiet get_fs.
Proof. intros w. exists []. by rewrite app_nil_r. Qed.

Lemma quiet_put_fs (fs : FS) : quiet (put_fs fs).
Proof. intros w. exists []. simpl. by rewrite app_nil_r. Qed.

Lemma quiet_bind {A B : Type} (m : IO A) (k : A -> IO B) :
  quiet m -> (forall a : A, quiet (k a)) -> quiet (io_bind m k).
Proof.
  intros Hm Hk w. unfold io_bind. destruct (Hm w) as (evs1 & H1 & Hc1).
  destruct (m w) as [[e|a] w1]; simpl in *; [by exists evs1|].
  destruct (Hk a w1) as (evs2 & H2 & Hc2).
  exists (evs1 ++ evs2). rewrite H2, H1, app_assoc. split; [done|].
  by rewrite ba_calls_app, Hc1, Hc2.
Qed.

Lemma quiet_emit (ev : io_event) :
  (forall c : ba_call, ev <> EvBundleAdjust c) -> quiet (emit ev).
Proof.
  intros Hev w. exists [ev]. split; [done|].
  destruct ev; try done. by destruct (Hev call).
Qed.

Lemma quiet_fold {A S : Type} (body : S -> A -> IO S) (l : list A) (st : S) :
  (forall (st' : S) (x : A), quiet (body st' x)) -> quiet (io_fold body l st).
Proof.
  intros Hb. revert st. induction l as [|x l IH]; intros st; simpl.
  - apply quiet_ret.
  - apply quiet_bind; [apply Hb|]. intros st'. apply IH.
Qed.

Lemma quiet_map {A B : Type} (f : A -> IO B) (l : list A) :
  (forall x : A, quiet (f x)) -> quiet (io_map f l).
Proof.
  intros Hf. induction l as [|x l IH]; simpl.
  - apply quiet_ret.
  - apply quiet_bind; [apply Hf|]. intros y.
    apply quiet_bind; [apply IH|]. intros ys. apply quiet_ret.
Qed.

Create HintDb quiet.

#[local] Hint Resolve quiet_ret quiet_raise quiet_lift quiet_get_fs quiet_put_fs : quiet.

Ltac quiet_step :=
  match goal with
  | |- quiet (io_bind _ _) => apply quiet_bind; [|intros]
  | |- quiet (io_map _ _) => apply quiet_map; intros
  | |- quiet (io_fold _ _ _) => apply quiet_fold; intros
  | |- quiet (emit _) => apply quiet_emit; intros; discriminate
  | |- quiet (match ?x with _ => _ end) => destruct x
  | |- quiet _ => solve [auto with quiet]
  end.

Ltac quiet_tac := repeat quiet_step.

Lemma quiet_os_path_isdir (p : string) : quiet (os_path_isdir p).
Proof. unfold os_path_isdir. quiet_tac. Qed.

Lemma quiet_os_path_exists (p : string) : quiet (os_path_exists p).
Proof. unfold os_path_exists. quiet_tac. Qed.

Lemma quiet_os_makedirs (p : string) : quiet (os_makedirs p).
Proof. unfold os_makedirs. quiet_tac. Qed.

Lemma quiet_shutil_rmtree (p : string) : quiet (shutil_rmtree p).
Proof. unfold shutil_rmtree. quiet_tac. Qed.

Lemma quiet_read_file (p : string) : quiet (read_file p).
Proof. unfold read_file. quiet_tac. Qed.

Lemma quiet_write_file (p : string) (f : file) : quiet (write_file p f).
Proof. unfold write_file. quiet_tac. Qed.

Lemma quiet_shutil_copyfile (src dst : string) : quiet (shutil_copyfile src dst).
Proof. unfold shutil_copyfile. quiet_tac. Qed.

Lemma quiet_glob_in_dir (dir ext : string) : quiet (glob_in_dir dir ext).
Proof. unfold glob_in_dir. quiet_tac. Qed.

Lemma quiet_glob_recursive_name (dir name : string) : quiet (glob_recursive_name dir name).
Proof. unfold glob_recursive_name. quiet_tac. Qed.

#[local] Hint Resolve quiet_os_path_isdir quiet_os_path_exists quiet_os_makedirs
  quiet_shutil_rmtree quiet_read_file quiet_write_file quiet_shutil_copyfile
  quiet_glob_in_dir quiet_glob_recursive_name : quiet.

Lemma quiet_get_acquisition_date (p : string) : quiet (get_acquisition_date p).
Proof. unfold get_acquisition_date. quiet_tac. Qed.

Lemma quiet_rpc_from_rpc_file (p : string) : quiet (rpc_from_rpc_file p).
Proof. unfold rpc_from_rpc_file. quiet_tac. Qed.

#[local] Hint Resolve quiet_get_acquisition_date quiet_rpc_from_rpc_file : quiet.

Lemma quiet_load_rpcs_from_dir (l : list string) (rpc_dir suffix extension : string) :
  quiet (load_rpcs_from_dir l rpc_dir suffix extension).
Proof. unfold load_rpcs_from_dir. quiet_tac. Qed.

#[local] Hint Resolve quiet_load_rpcs_from_dir : quiet.

Lemma quiet_check_adjusted_dates (s : Scene) (input_dir : string) (t_idx : Z) :
  quiet (check_adjusted_dates s input_dir t_idx).
Proof. unfold check_adjusted_dates. quiet_tac. Qed.

Lemma quiet_load_data_from_dates (s : Scene) (l : list Z) (input_dir : string)
    (adjusted : bool) :
  quiet (load_data_from_dates s l input_dir adjusted).
Proof. unfold load_data_from_dates. quiet_tac. Qed.

#[local] Hint Resolve quiet_check_adjusted_dates quiet_load_data_from_dates : quiet.

Lemma quiet_load_prev_adjusted_dates (s : Scene) (t_idx : Z) (input_dir : string)
    (previous_dates : Z) :
  quiet (load_prev_adjusted_dates s t_idx input_dir previous_dates).
Proof. unfold load_prev_adjusted_dates. quiet_tac. Qed.

#[local] Hint Resolve quiet_load_prev_adjusted_dates : quiet.

Lemma quiet_set_ba_input_data (s : Scene) (t_indices : list Z)
    (input_dir output_dir : string) (previous_dates : Z) :
  quiet (set_ba_input_data s t_indices input_dir output_dir previous_dates).
Proof. unfold set_ba_input_data. quiet_tac. Qed.

Lemma quiet_reset_ba_params (s : Scene) : quiet (reset_ba_params s).
Proof. unfold reset_ba_params. quiet_tac. Qed.

Lemma quiet_rm_tmp_files_after_ba (s : Scene) : quiet (rm_tmp_files_after_ba s).
Proof. unfold rm_tmp_files_after_ba. quiet_tac. Qed.

Lemma quiet_compute_reprojection_error
    (reprojection_errors : pipeline_t -> list RPCModel -> list RPCModel -> res (Q * Q))
    (s : Scene) :
  quiet (compute_reprojection_error_before_and_after_bundle_adjust reprojection_errors s).
Proof. unfold compute_reprojection_error_before_and_after_bundle_adjust. quiet_tac. Qed.

#[local] Hint Resolve quiet_set_ba_input_data quiet_reset_ba_params
  quiet_rm_tmp_files_after_ba quiet_compute_reprojection_error : quiet.

(** ** What the methods do to the scene *)


Lemma evolves_refl (s : Scene) : evolves s s.
Proof. by repeat split. Qed.

Lemma evolves_trans (s1 s2 s3 : Scene) : evolves s1 s2 -> evolves s2 s3 -> evolves s1 s3.
Proof.
  intros (H1 & H2 & H3 & H4 & H5 & H6 & H7) (G1 & G2 & G3 & G4 & G5 & G6 & G7).
  repeat split; congruence.
Qed.

Lemma evolves_set_input (s : Scene) (n : Z) (adj new : list SatelliteImage) :
  evolves s (set_input s n adj new).
Proof. by repeat split. Qed.

Lemma evolves_check_adjusted_dates (s s' : Scene) (input_dir : string) (t_idx : Z)
    (w w' : World) (found : bool) :
  check_adjusted_dates s input_dir t_idx w = (inr (found, s'), w') ->
  evolves s s' /\ n_adj s' = n_adj s /\ images_adj s' = images_adj s
  /\ images_new s' = images_new s.
Proof.
  intros H. apply check_adjusted_dates_scene in H as (tl_adj & [-> | ->]).
  - destruct (mark_adjusted_dates_static tl_adj t_idx (timeline s, false)) as [Hf Hi].
    by repeat split.
  - split; [apply evolves_refl|done].
Qed.

Lemma io_map_length {A B : Type} (f : A -> IO B) (l : list A) (w w' : World)
    (ys : list B) :
  io_map f l w = (inr ys, w') -> length ys = length l.
Proof.
  revert w w' ys. induction l as [|x l IH]; intros w w' ys; simpl.
  - by intros [= <- _].
  - intros H. apply io_bind_inr in H as (y & w1 & _ & H).
    apply io_bind_inr in H as (ys' & w2 & H2 & H).
    apply io_ret_inr in H as [-> _]. simpl. f_equal. by eapply IH.
Qed.

Lemma paths_of_images (fnames : list string) (rpcs : list RPCModel) :
  length rpcs = length fnames ->
  geotiff_path <$> ((fun '(fn, m) => {| geotiff_path := fn; rpc := m |})
                      <$> zip fnames rpcs) = fnames.
Proof.
  revert rpcs. induction fnames as [|fn fnames IH]; intros [|m rpcs] Hlen; try done.
  simpl. f_equal. apply IH. simpl in Hlen. lia.
Qed.

(** [load_data_from_dates], when it returns, has appended one image for
    each file name of the entries at [timeline_indices]. *)
Lemma load_data_from_dates_spec (s s' : Scene) (timeline_indices : list Z)
    (input_dir : string) (adjusted : bool) (w w' : World) :
  load_data_from_dates s timeline_indices input_dir adjusted w = (inr s', w') ->
  exists (entries : list TimelineEntry) (loaded : list SatelliteImage),
    res_map (py_getitem (timeline s)) timeline_indices = inr entries
    /\ geotiff_path <$> loaded = concat (t_fnames <$> entries)
    /\ s' = (if adjusted
             then set_input s (n_adj s + Z.of_nat (length loaded))
                    (images_adj s ++ loaded) (images_new s)
             else set_input s (n_adj s + 0) (images_adj s) (images_new s ++ loaded)).
Proof.
  unfold load_data_from_dates. intros H.
  apply io_bind_inr in H as (entries & w1 & He & H).
  apply io_lift_inr in He as [He ->].
  apply io_bind_inr in H as (loaded & w2 & Hl & H).
  exists entries, loaded. split; [done|].
  assert (geotiff_path <$> loaded = concat (t_fnames <$> entries)) as Hpaths.
  { destruct (0 <? Z.of_nat (length (concat (t_fnames <$> entries)))) eqn:E.
    - apply io_bind_inr in Hl as (im_rpcs & w3 & Hr & Hl).
      apply io_ret_inr in Hl as [-> _].
      apply paths_of_images. unfold load_rpcs_from_dir in Hr.
      by apply io_map_length in Hr.
    - apply io_ret_inr in Hl as [-> _]. apply Z.ltb_ge in E.
      destruct (concat _); [done|simpl in E; lia]. }
  split; [done|].
  assert (Z.of_nat (length (concat (t_fnames <$> entries))) = Z.of_nat (length loaded)) as Hn.
  { by rewrite <- Hpaths, length_fmap. }
  destruct adjusted; apply io_ret_inr in H as [-> _]; by rewrite ?Hn.
Qed.


Lemma load_prev_adjusted_dates_spec (s s' : Scene) (t_idx : Z) (input_dir : string)
    (previous_dates : Z) (w w' : World) :
  load_prev_adjusted_dates s t_idx input_dir previous_dates w = (inr s', w') ->
  input_ok s -> evolves s s' /\ input_ok s' /\ images_new s' = images_new s.
Proof.
  unfold load_prev_adjusted_dates. intros H Hok.
  apply io_bind_inr in H as ([found s1] & w1 & Hc & H).
  apply evolves_check_adjusted_dates in Hc as (Hev & Hn & Ha & Hnew).
  destruct found.
  - apply io_bind_inr in H as (es & w2 & _ & H).
    apply load_data_from_dates_spec in H as (entries & loaded & _ & _ & ->).
    split; [|split].
    + eapply evolves_trans; [done|]. apply evolves_set_input.
    + unfold input_ok in *. simpl. rewrite Hn, Ha, Hok, length_app. lia.
    + done.
  - apply io_ret_inr in H as [-> _]. split; [done|]. split; [|done].
    unfold input_ok in *. congruence.
Qed.

(** [set_ba_input_data], when it returns, leaves input data whose images
    after the first [n_adj] are the images of the entries at [t_indices]. *)
Lemma set_ba_input_data_spec (s s' : Scene) (t_indices : list Z)
    (input_dir output_dir : string) (previous_dates : Z) (w w' : World) :
  set_ba_input_data s t_indices input_dir output_dir previous_dates w = (inr s', w') ->
  evolves s s'
  /\ exists (data : ba_data_t) (entries : list TimelineEntry),
       ba_data s' = Some data
       /\ in_dir data = input_dir /\ out_dir data = output_dir
       /\ res_map (py_getitem (timeline s')) t_indices = inr entries
       /\ 0 <= n_adj s'
       /\ drop (Z.to_nat (n_adj s')) (geotiff_path <$> images data)
          = concat (t_fnames <$> entries).
Proof.
  unfold set_ba_input_data. intros H.
  apply io_bind_inr in H as (s1 & w1 & H1 & H).
  apply io_bind_inr in H as (s2 & w2 & H2 & H).
  apply io_ret_inr in H as [-> _].
  assert (evolves (init_ba_input_data s) s1 /\ input_ok s1 /\ images_new s1 = []) as (Hev1 & Hok1 & Hnew1).
  { destruct (0 <? previous_dates).
    - apply io_bind_inr in H1 as (t_min & w0 & _ & H1).
      apply load_prev_adjusted_dates_spec in H1; [done|]. by unfold input_ok.
    - apply io_ret_inr in H1 as [-> _]. split; [apply evolves_refl|]. by split. }
  apply load_data_from_dates_spec in H2 as (entries & loaded & He & Hpaths & ->).
  split.
  - eapply evolves_trans; [apply (evolves_set_input s 0 [] [])|].
    eapply evolves_trans; [exact Hev1|]. by repeat split.
  - eexists _, entries. split; [done|]. simpl. split; [done|]. split; [done|].
    split; [done|]. unfold input_ok in Hok1. rewrite Hnew1, Z.add_0_r, Hok1. simpl.
    split; [lia|].
    rewrite Nat2Z.id, fmap_app, drop_app_length'; [done|]. by rewrite length_fmap.
Qed.

(** ** The sequential strategy *)

Lemma py_getitem_static (tl tl' : Timeline) (i : Z) (e' : TimelineEntry) :
  t_fnames <$> tl' = t_fnames <$> tl -> py_getitem tl' i = inr e' ->
  exists e : TimelineEntry, py_getitem tl i = inr e /\ t_fnames e = t_fnames e'.
Proof.
  intros Hst. unfold py_getitem.
  assert (length tl' = length tl) as ->.
  { by rewrite <- (length_fmap t_fnames tl'), Hst, length_fmap. }
  destruct (_ && _); [|done].
  set (pos := Z.to_nat _).
  destruct (tl' !! pos) as [x|] eqn:E'; [|done]. intros [= ->].
  assert ((t_fnames <$> tl) !! pos = Some (t_fnames e')) as H.
  { by rewrite <- Hst, list_lookup_fmap, E'. }
  rewrite list_lookup_fmap in H. destruct (tl !! pos) as [e|]; [|done].
  exists e. split; [done|]. simpl in H. congruence.
Qed.

Lemma call_for_static (tl tl' : Timeline) (t_idx : Z) (flag : bool) (c : ba_call) :
  t_fnames <$> tl' = t_fnames <$> tl -> call_for tl' t_idx flag c -> call_for tl t_idx flag c.
Proof.
  intros Hst (Hflag & e' & He' & Hp). split; [done|].
  destruct (py_getitem_static tl tl' t_idx e' Hst He') as (e & He & Hfn).
  exists e. split; [done|]. congruence.
Qed.

Section Strategies.

Variable pipeline_run : ba_call -> FS -> res pipeline_t * FS.
Variable reprojection_errors : pipeline_t -> list RPCModel -> list RPCModel -> res (Q * Q).

Lemma bundle_adjust_trace (s : Scene) (data : ba_data_t) (w : World) :
  ba_data s = Some data ->
  exists c : ba_call,
    w_trace (bundle_adjust pipeline_run s w).2 = w_trace w ++ [EvBundleAdjust c]
    /\ c_data c = data
    /\ x_fix_ref_cam (c_extra c) = fix_ref_cam s
    /\ x_n_adj (c_extra c) = n_adj s
    /\ forall x s', (bundle_adjust pipeline_run s w).1 = inr (x, s') -> evolves s s'.
Proof.
  intros Hdata. unfold bundle_adjust. rewrite Hdata.
  eexists. unfold io_bind, emit, io_ret. simpl.
  destruct (pipeline_run _ _) as [[e|p] fs']; simpl.
  - split; [reflexivity|]. split; [reflexivity|]. split; [reflexivity|].
    split; [reflexivity|]. intros y s2 Hy. discriminate Hy.
  - split; [reflexivity|]. split; [reflexivity|]. split; [reflexivity|].
    split; [reflexivity|]. intros y s2 [= _ <-]. by repeat split.
Qed.

Lemma sequential_step_trace (ba_dir : string) (s : Scene) (idx : nat) (t_idx : Z)
    (w : World) :
  exists evs : list io_event,
    w_trace (sequential_step pipeline_run reprojection_errors ba_dir s (idx, t_idx) w).2
    = w_trace w ++ evs
    /\ ((ba_calls evs = []
         /\ exists e : exn,
              (sequential_step pipeline_run reprojection_errors ba_dir s (idx, t_idx) w).1
              = inl e)
        \/ (exists c : ba_call,
              ba_calls evs = [c]
              /\ call_for (timeline s) t_idx (step_flag s idx) c
              /\ forall s' : Scene,
                   (sequential_step pipeline_run reprojection_errors ba_dir s (idx, t_idx) w).1
                   = inr s' ->
                   evolves (set_fix_ref_cam s (step_flag s idx)) s')).
Proof.
  remember (sequential_step pipeline_run reprojection_errors ba_dir s (idx, t_idx) w)
    as r eqn:Er.
  unfold sequential_step in Er.
  destruct (quiet_set_ba_input_data s [t_idx] ba_dir ba_dir (n_dates (settings s)) w)
    as (evs1 & Ht1 & Hc1).
  unfold io_bind at 1 in Er.
  destruct (set_ba_input_data s [t_idx] ba_dir ba_dir (n_dates (settings s)) w)
    as [[e|s1] w1] eqn:E1; simpl in Ht1.
  { subst r. exists evs1. split; [done|]. left. split; [done|]. by exists e. }
  apply set_ba_input_data_spec in E1
    as (Hev1 & data & entries & Hdata & _ & _ & Hentries & Hnn & Hdrop).
  assert (exists e1, py_getitem (timeline s1) t_idx = inr e1 /\ entries = [e1])
    as (e1 & He1 & ->).
  { simpl in Hentries. destruct (py_getitem (timeline s1) t_idx) as [|e1]; [done|].
    simpl in Hentries. injection Hentries as <-. by exists e1. }
  simpl in Hdrop. rewrite app_nil_r in Hdrop.
  destruct Hev1 as (Hs1 & Hf1 & Hsel1 & Htr1 & Haoi1 & Hfn1 & Hid1).
  set (flag := step_flag s idx).
  assert ((if (bool_decide (idx = 0%nat) && fix_ref_cam s1)
              || (bool_decide (n_dates (settings s1) = 0) && fix_ref_cam s1)
           then set_fix_ref_cam s1 true else set_fix_ref_cam s1 false)
          = set_fix_ref_cam s1 flag) as Hflag.
  { unfold flag, step_flag. rewrite Hs1, Hf1.
    match goal with |- (if ?b then _ else _) = _ => by destruct b end. }
  rewrite Hflag in Er. clear Hflag.
  destruct (bundle_adjust_trace (set_fix_ref_cam s1 flag) data w1 Hdata)
    as (c & Ht2 & Hcd & Hcf & Hcn & Hev2).
  assert (call_for (timeline s) t_idx flag c) as Hcall.
  { eapply call_for_static; [exact Hfn1|]. split; [done|].
    exists e1. split; [done|]. unfold new_image_paths. rewrite Hcn, Hcd. simpl. exact Hdrop. }
  unfold io_bind at 1 in Er.
  destruct (bundle_adjust pipeline_run (set_fix_ref_cam s1 flag) w1)
    as [[e|[x s3]] w2] eqn:E2; simpl in Ht2.
  { subst r. exists (evs1 ++ [EvBundleAdjust c]). simpl. rewrite Ht2, Ht1, app_assoc.
    split; [done|]. right. exists c. rewrite ba_calls_app, Hc1.
    split; [done|]. split; [done|]. intros s' Hs'. discriminate Hs'. }
  assert (quiet (io entry <- io_lift (py_getitem (timeline s3) t_idx);
                 io _ <- os_makedirs
                           (dirname (ba_dir +:+ "/pts3d_adj/" +:+ t_id entry +:+ "_pts3d_adj.ply"));
                 io _ <- shutil_copyfile (ba_dir +:+ "/pts3d_adj.ply")
                           (ba_dir +:+ "/pts3d_adj/" +:+ t_id entry +:+ "_pts3d_adj.ply");
                 io _ <- compute_reprojection_error_before_and_after_bundle_adjust
                           reprojection_errors s3;
                 io_ret s3)) as Hq by quiet_tac.
  destruct (Hq w2) as (evs3 & Ht3 & Hc3).
  subst r.
  exists (evs1 ++ [EvBundleAdjust c] ++ evs3).
  rewrite Ht3, Ht2, Ht1, <- !app_assoc. split; [done|].
  right. exists c. rewrite !ba_calls_app, Hc1, Hc3. split; [done|]. split; [done|].
  intros s' Hs'.
  assert (s' = s3) as ->.
  { match type of Hs' with (?m w2).1 = _ =>
      destruct (m w2) as [[e|s''] w'] eqn:E3; [done|] end. simpl in Hs'.
    injection Hs' as ->.
    apply io_bind_inr in E3 as (entry & w3 & _ & E3).
    apply io_bind_inr in E3 as (? & w4 & _ & E3).
    apply io_bind_inr in E3 as (? & w5 & _ & E3).
    apply io_bind_inr in E3 as (? & w6 & _ & E3).
    by apply io_ret_inr in E3 as [-> _]. }
  eapply evolves_trans; [|by apply (Hev2 x s3)].
  by repeat split.
Qed.


Lemma io_fold_cons {A S : Type} (body : S -> A -> IO S) (x : A) (l : list A)
    (st : S) (w : World) :
  io_fold body (x :: l) st w
  = match body st x w with
    | (inl e, w') => (inl e, w')
    | (inr st', w') => io_fold body l st' w'
    end.
Proof. reflexivity. Qed.

Lemma sequential_loop_trace (ba_dir : string) (sel : list Z) :
  forall (idx0 : nat) (s : Scene) (w : World),
  exists evs : list io_event,
    w_trace (io_fold (sequential_step pipeline_run reprojection_errors ba_dir)
               (zip (seq idx0 (length sel)) sel) s w).2 = w_trace w ++ evs
    /\ (length (ba_calls evs) <= length sel)%nat
    /\ (forall s' : Scene,
          (io_fold (sequential_step pipeline_run reprojection_errors ba_dir)
             (zip (seq idx0 (length sel)) sel) s w).1 = inr s' ->
          length (ba_calls evs) = length sel /\ settings s' = settings s)
    /\ forall (k : nat) (c : ba_call), ba_calls evs !! k = Some c ->
         exists t_idx : Z,
           sel !! k = Some t_idx
           /\ call_for (timeline s) t_idx
                (flag_at (n_dates (settings s)) idx0 (fix_ref_cam s) k) c.
Proof.
  induction sel as [|t_idx sel IH]; intros idx0 s w.
  { exists []. simpl. rewrite app_nil_r. split; [done|]. split; [done|].
    split; [by intros s' [= <-]|]. intros k c Hk. done. }
  remember (io_fold (sequential_step pipeline_run reprojection_errors ba_dir)
              (zip (seq idx0 (length (t_idx :: sel))) (t_idx :: sel)) s w) as r eqn:Er.
  change (zip (seq idx0 (length (t_idx :: sel))) (t_idx :: sel))
    with ((idx0, t_idx) :: zip (seq (S idx0) (length sel)) sel) in Er.
  rewrite io_fold_cons in Er.
  destruct (sequential_step_trace ba_dir s idx0 t_idx w) as (evs1 & Ht1 & Hcases).
  destruct (sequential_step pipeline_run reprojection_errors ba_dir s (idx0, t_idx) w)
    as [[e|s1] w1] eqn:E1; simpl in Ht1, Hcases.
  - subst r. simpl. exists evs1. split; [done|].
    destruct Hcases as [[Hc _]|(c & Hc & Hcall & _)]; rewrite Hc; simpl.
    + split; [lia|]. split; [done|]. intros k c' Hk. done.
    + split; [lia|]. split; [done|]. intros [|k] c' Hk; [|done].
      injection Hk as <-. by exists t_idx.
  - destruct Hcases as [[_ [e He]]|(c & Hc & Hcall & Hev)]; [done|].
    specialize (Hev s1 eq_refl).
    destruct Hev as (Hs1 & Hf1 & _ & _ & _ & Hfn1 & _). simpl in Hs1, Hf1, Hfn1.
    destruct (IH (S idx0) s1 w1) as (evs2 & Ht2 & Hlen & Hok & Hcalls).
    subst r. simpl. exists (evs1 ++ evs2). rewrite Ht2, Ht1, app_assoc.
    split; [done|]. rewrite ba_calls_app, Hc. simpl.
    split; [lia|]. split.
    + intros s' Hs'. destruct (Hok s' Hs') as [-> ->]. done.
    + intros [|k] c' Hk; simpl in Hk.
      * injection Hk as <-. by exists t_idx.
      * destruct (Hcalls k c' Hk) as (t' & Ht' & Hcall').
        exists t'. split; [done|].
        rewrite Hs1, Hf1 in Hcall'. simpl.
        eapply call_for_static; [exact Hfn1|]. exact Hcall'.
Qed.

Lemma flag_at_later (n_dates : Z) (idx : nat) (cur : bool) (k : nat) :
  flag_at n_dates (S idx) cur k = bool_decide (n_dates = 0) && cur.
Proof.
  revert idx cur. induction k as [|k IH]; intros idx cur; simpl.
  - done.
  - rewrite IH. unfold next_flag. simpl. by destruct (bool_decide (n_dates = 0)), cur.
Qed.

Lemma flag_at_first (n_dates : Z) (cur : bool) (k : nat) :
  flag_at n_dates 0 cur k = cur && (bool_decide (k = 0%nat) || bool_decide (n_dates = 0)).
Proof.
  destruct k as [|k]; simpl.
  - unfold next_flag. simpl. by destruct cur, (bool_decide (n_dates = 0)).
  - rewrite flag_at_later. unfold next_flag. simpl.
    by destruct cur, (bool_decide (n_dates = 0)).
Qed.

(** [run_sequential_bundle_adjustment] calls the optimisation core once for
    each selected date, in the order of the selection, until a call or what
    follows it raises. *)
Lemma run_sequential_trace (s : Scene) (sel : list Z) (w : World) :
  selected_timeline_indices s = Some sel ->
  exists evs : list io_event,
    w_trace (run_sequential_bundle_adjustment pipeline_run reprojection_errors s w).2
    = w_trace w ++ evs
    /\ (length (ba_calls evs) <= length sel)%nat
    /\ (is_ok (run_sequential_bundle_adjustment pipeline_run reprojection_errors s w).1
        = true -> length (ba_calls evs) = length sel)
    /\ forall (k : nat) (c : ba_call), ba_calls evs !! k = Some c ->
         exists t_idx : Z,
           sel !! k = Some t_idx
           /\ call_for (timeline s) t_idx
                (fix_ref_cam s
                 && (bool_decide (k = 0%nat) || bool_decide (n_dates (settings s) = 0))) c.
Proof.
  intros Hsel.
  remember (run_sequential_bundle_adjustment pipeline_run reprojection_errors s w)
    as r eqn:Er.
  unfold run_sequential_bundle_adjustment in Er. rewrite Hsel in Er.
  unfold io_bind at 1 in Er.
  set (ba_dir := os_path_join (dst_dir (settings s)) (ba_method (settings s))) in *.
  destruct (quiet_os_makedirs ba_dir w) as (evs0 & Ht0 & Hc0).
  destruct (os_makedirs ba_dir w) as [[e|[]] w0] eqn:E0; cbn [fst snd] in Ht0;
    cbv beta iota in Er.
  { subst r. cbn [fst snd]. exists evs0. split; [done|]. rewrite Hc0. simpl.
    split; [lia|]. split; [done|]. intros k c Hk. done. }
  unfold io_bind at 1 in Er. unfold enumerate in Er.
  destruct (sequential_loop_trace ba_dir sel 0 (set_FT_predefined_pairs s []) w0)
    as (evs1 & Ht1 & Hlen & Hok & Hcalls).
  simpl in Hcalls. setoid_rewrite flag_at_first in Hcalls.
  destruct (io_fold _ _ _ w0) as [[e|s1] w1] eqn:E1; cbn [fst snd] in Ht1, Hok;
    cbv beta iota in Er.
  { subst r. cbn [fst snd]. exists (evs0 ++ evs1). rewrite Ht1, Ht0, app_assoc.
    split; [done|]. rewrite ba_calls_app, Hc0. simpl. split; [done|]. split; [done|].
    done. }
  destruct (Hok s1 eq_refl) as [Hlen1 Hs1].
  assert (quiet (if remove_FT_files (settings s1) then rm_tmp_files_after_ba s1
                 else io_ret tt)) as Hq by quiet_tac.
  destruct (Hq w1) as (evs2 & Ht2 & Hc2).
  exists (evs0 ++ evs1 ++ evs2).
  assert (w_trace r.2 = w_trace w ++ evs0 ++ evs1 ++ evs2) as Htr.
  { subst r. unfold io_bind.
    destruct (if remove_FT_files (settings s1) then _ else _) as [[e|[]] w2];
      simpl in *; [|destruct sel; simpl]; by rewrite Ht2, Ht1, Ht0, <- !app_assoc. }
  split; [done|]. rewrite !ba_calls_app, Hc0, Hc2, app_nil_r. simpl.
  split; [lia|]. split; [done|]. done.
Qed.

Lemma reset_ba_params_cases (s : Scene) (w : World) :
  reset_ba_params s w =
  let ba_dir := dst_dir (settings s) +:+ "/" +:+ ba_method (settings s) in
  if bool_decide (ba_dir ∈ fs_dirs (w_fs w)) then
    (inr (cleared s),
     {| w_fs := fs_rmtree ba_dir (w_fs w);
        w_trace := w_trace w ++ [EvExists ba_dir; EvRmtree ba_dir] |})
  else if bool_decide (is_Some (fs_files (w_fs w) !! ba_dir)) then
    (inl (FileNotFoundError ba_dir),
     {| w_fs := w_fs w; w_trace := w_trace w ++ [EvExists ba_dir; EvRmtree ba_dir] |})
  else
    (inr (cleared s), {| w_fs := w_fs w; w_trace := w_trace w ++ [EvExists ba_dir] |}).
Proof.
  unfold reset_ba_params, os_path_exists, shutil_rmtree, io_bind, emit, get_fs, put_fs,
    io_ret, io_raise.
  cbv zeta. simpl.
  set (ba_dir := dst_dir (settings s) +:+ "/" +:+ ba_method (settings s)).
  destruct (decide (ba_dir ∈ fs_dirs (w_fs w))) as [Hin|Hnin].
  - repeat (rewrite (bool_decide_eq_true_2 (ba_dir ∈ fs_dirs (w_fs w))) by done; simpl).
    by rewrite <- app_assoc.
  - repeat (rewrite (bool_decide_eq_false_2 (ba_dir ∈ fs_dirs (w_fs w))) by done; simpl).
    destruct (bool_decide (is_Some _)); simpl; [|done].
    repeat (rewrite (bool_decide_eq_false_2 (ba_dir ∈ fs_dirs (w_fs w))) by done; simpl).
    by rewrite <- app_assoc.
Qed.

Lemma prelude_selection (s s1 : Scene) :
  prelude s = inr s1 ->
  s1 = set_selected_timeline_indices s (Some (selection s)).
Proof.
  unfold prelude, selection. destruct s as [st sel fx n ia im tc aoi tl bd bp]. simpl.
  destruct sel as [sel|]; simpl.
  - destruct (get_timeline_attributes _ sel); simpl; [done|].
    destruct (res_map _ _); simpl; [done|]. by intros [= <-].
  - destruct (res_map _ _); simpl; [done|]. by intros [= <-].
Qed.

Lemma run_refinement_unfold (s : Scene) (w : World) :
  run_bundle_adjustment_for_RPC_refinement pipeline_run reprojection_errors s w
  = match prelude s with
    | inl e => (inl e, w)
    | inr s1 =>
        (io s2 <- (if reset (settings s1) then reset_ba_params s1 else io_ret s1);
         if decide (ba_method (settings s2) = "ba_sequential") then
           run_sequential_bundle_adjustment pipeline_run reprojection_errors s2
         else if decide (ba_method (settings s2) = "ba_global") then
           run_global_bundle_adjustment pipeline_run s2
         else if decide (ba_method (settings s2) = "ba_bruteforce") then
           run_bruteforce_bundle_adjustment pipeline_run s2
         else io_raise SystemExit) w
    end.
Proof.
  unfold run_bundle_adjustment_for_RPC_refinement, prelude.
  unfold io_bind at 1.
  destruct (selected_timeline_indices s) as [sel|] eqn:Esel.
  - unfold io_bind at 1, io_lift at 1.
    destruct (get_timeline_attributes s sel); simpl; [done|].
    unfold io_bind at 1, io_lift at 1.
    destruct (res_map _ _); simpl; done.
  - unfold io_ret at 1. unfold io_bind at 1, io_lift at 1. cbn [res_bind].
    destruct (res_map _ _); simpl; done.
Qed.



Lemma cleared_static (s : Scene) :
  t_fnames <$> timeline (cleared s) = t_fnames <$> timeline s.
Proof.
  unfold cleared. simpl. rewrite <- list_fmap_compose. by apply list_fmap_ext.
Qed.

(** The sequential strategy through [run_bundle_adjustment_for_RPC_refinement]. *)
Lemma run_refinement_sequential (s : Scene) (w : World) :
  ba_method (settings s) = "ba_sequential" ->
  let r := run_bundle_adjustment_for_RPC_refinement pipeline_run reprojection_errors s w in
  let ba_dir := dst_dir (settings s) +:+ "/" +:+ ba_method (settings s) in
  exists evs : list io_event,
    w_trace r.2 = w_trace w ++ evs
    /\ (length (ba_calls evs) <= length (selection s))%nat
    /\ (is_ok r.1 = true -> length (ba_calls evs) = length (selection s))
    /\ (forall (k : nat) (c : ba_call), ba_calls evs !! k = Some c ->
          exists (t_idx : Z) (e : TimelineEntry),
            selection s !! k = Some t_idx /\ py_getitem (timeline s) t_idx = inr e
            /\ new_image_paths c = t_fnames e)
    /\ (reset (settings s) = true ->
        evs = []
        \/ exists rest : list io_event,
             evs = EvExists ba_dir :: rest
             /\ (ba_dir ∈ fs_dirs (w_fs w) ->
                 exists rest' : list io_event,
                   rest = EvRmtree ba_dir :: rest' /\ ba_calls rest' = ba_calls evs)).
Proof.
  intros Hm. cbv zeta. rewrite run_refinement_unfold.
  destruct (prelude s) as [e|s1] eqn:Ep.
  { exists []. simpl. rewrite app_nil_r. split; [done|]. split; [lia|].
    split; [done|]. split; [done|]. intros _. by left. }
  apply prelude_selection in Ep as ->.
  set (s1 := set_selected_timeline_indices s (Some (selection s))).
  assert (forall s2 w2,
            selected_timeline_indices s2 = Some (selection s) ->
            ba_method (settings s2) = "ba_sequential" ->
            t_fnames <$> timeline s2 = t_fnames <$> timeline s ->
            exists evs : list io_event,
              w_trace (run_sequential_bundle_adjustment pipeline_run
                         reprojection_errors s2 w2).2 = w_trace w2 ++ evs
              /\ (length (ba_calls evs) <= length (selection s))%nat
              /\ (is_ok (run_sequential_bundle_adjustment pipeline_run
                           reprojection_errors s2 w2).1 = true ->
                  length (ba_calls evs) = length (selection s))
              /\ (forall (k : nat) (c : ba_call), ba_calls evs !! k = Some c ->
                    exists (t_idx : Z) (e : TimelineEntry),
                      selection s !! k = Some t_idx
                      /\ py_getitem (timeline s) t_idx = inr e
                      /\ new_image_paths c = t_fnames e)) as Hseq.
  { intros s2 w2 Hsel2 Hm2 Hst2.
    destruct (run_sequential_trace s2 (selection s) w2 Hsel2)
      as (evs & Ht & Hlen & Hok & Hcalls).
    exists evs. split; [done|]. split; [done|]. split; [done|].
    intros k c Hk. destruct (Hcalls k c Hk) as (t_idx & Ht_idx & Hcall).
    apply (call_for_static (timeline s)) in Hcall; [|done].
    destruct Hcall as (_ & e & He & Hp). by exists t_idx, e. }
  change (reset (settings s1)) with (reset (settings s)).
  destruct (reset (settings s)) eqn:Er.
  - unfold io_bind. rewrite reset_ba_params_cases. cbv zeta.
    change (dst_dir (settings s1) +:+ "/" +:+ ba_method (settings s1))
      with (dst_dir (settings s) +:+ "/" +:+ ba_method (settings s)).
    set (ba_dir := dst_dir (settings s) +:+ "/" +:+ ba_method (settings s)).
    destruct (bool_decide (ba_dir ∈ fs_dirs (w_fs w))) eqn:Ed.
    + rewrite decide_True by done.
      match goal with |- context [run_sequential_bundle_adjustment _ _ ?s2 ?w2] =>
        destruct (Hseq s2 w2 eq_refl Hm (cleared_static s1))
          as (evs & Ht & Hlen & Hok & Hcalls) end.
      exists ([EvExists ba_dir; EvRmtree ba_dir] ++ evs).
      rewrite Ht. simpl. rewrite <- app_assoc. split; [done|].
      split; [done|]. split; [done|]. split; [done|].
      intros _. right. eexists. split; [done|]. intros _. by eexists.
    + destruct (bool_decide (is_Some (fs_files (w_fs w) !! ba_dir))) eqn:Ef.
      * exists [EvExists ba_dir; EvRmtree ba_dir]. simpl.
        split; [done|]. split; [lia|]. split; [done|]. split; [done|].
        intros _. right. eexists. split; [done|].
        intros Hin. apply bool_decide_eq_false in Ed. done.
      * rewrite decide_True by done.
        match goal with |- context [run_sequential_bundle_adjustment _ _ ?s2 ?w2] =>
          destruct (Hseq s2 w2 eq_refl Hm (cleared_static s1))
            as (evs & Ht & Hlen & Hok & Hcalls) end.
        exists ([EvExists ba_dir] ++ evs).
        rewrite Ht. simpl. rewrite <- app_assoc. split; [done|].
        split; [done|]. split; [done|]. split; [done|].
        intros _. right. eexists. split; [done|].
        intros Hin. apply bool_decide_eq_false in Ed. done.
  - unfold io_bind, io_ret. rewrite decide_True by done.
    destruct (Hseq s1 w eq_refl Hm eq_refl) as (evs & Ht & Hlen & Hok & Hcalls).
    exists evs. split; [done|]. split; [done|]. split; [done|]. split; [done|].
    intros Hf. done.
Qed.

Lemma Scene_init_scene (ft : list (string * json)) (args : Args) (s : Scene)
    (w w1 : World) :
  Scene_init ft args w = (inr s, w1) ->
  ba_method (settings s) = default "ba_bruteforce" (a_ba_method args)
  /\ dst_dir (settings s) = a_output_dir args
  /\ reset (settings s) = default true (a_reset args)
  /\ n_dates (settings s) = default 1 (a_n_dates args)
  /\ selected_timeline_indices s = a_timeline_indices args
  /\ fix_ref_cam s = default false (a_fix_ref_cam args).
Proof.
  unfold Scene_init. cbv zeta. intros H.
  apply io_bind_inr in H as (ok1 & w2 & _ & H).
  destruct ok1; [|done]. simpl negb in H. cbv iota in H.
  apply io_bind_inr in H as (ok2 & w3 & _ & H).
  destruct ok2; [|done]. simpl negb in H. cbv iota in H.
  destruct (negb (forallb _ _)); [done|].
  apply io_bind_inr in H as (? & w4 & _ & H).
  apply io_bind_inr in H as (tl & w5 & _ & H).
  apply io_bind_inr in H as (aoi & w6 & _ & H).
  apply io_bind_inr in H as (? & w7 & _ & H).
  apply io_bind_inr in H as (? & w8 & _ & H).
  apply io_ret_inr in H as [-> _]. simpl. done.
Qed.


End Strategies.

(** ** The strategies on the example scenes *)






(** The sequential strategy on the example scene: three calls; with one
    anchor date the flag is set for the first call only, with no anchor date
    it is set for all three. *)
Example sequential_flags_with_one_anchor_date :
  exists (s' : Scene) (w' : World),
    run_sequential_bundle_adjustment example_pipeline example_reprojection_errors
      (scene_with "ba_sequential" (Some [0; 1; 2]) true 1 false) adjusted_scene_world
    = (inr s', w')
    /\ call_summary <$> ba_calls (w_trace w')
       = [(["geo/a.JP2"], 0, true); (["geo/a.JP2"; "geo/b.JP2"], 1, false);
          (["geo/b.JP2"; "geo/c.JP2"], 1, false)].
Proof. eexists _, _. split; vm_compute; reflexivity. Qed.

Example sequential_flags_without_anchor_dates :
  exists (s' : Scene) (w' : World),
    run_sequential_bundle_adjustment example_pipeline example_reprojection_errors
      (scene_with "ba_sequential" (Some [0; 1; 2]) true 0 false) adjusted_scene_world
    = (inr s', w')
    /\ call_summary <$> ba_calls (w_trace w')
       = [(["geo/a.JP2"], 0, true); (["geo/b.JP2"], 0, true); (["geo/c.JP2"], 0, true)].
Proof. eexists _, _. split; vm_compute; reflexivity. Qed.

(** C5 at a scene whose three dates were adjusted by an earlier run, with
    the selection [2; 1] and [reset] set to false.  The turn for date 2 marks
    the dates 0 and 1 as adjusted; the mark of date 1 is still there in the
    turn for date 1, where it is the closest adjusted date, so that the
    input set of that turn holds the image of date 1 twice, as anchor and as
    image to adjust. *)
Lemma C5_anchor_and_new_image_coincide :
  exists (s' : Scene) (w' : World),
    orchestrate (sequential_args (Some [2; 1]) false (Some false)) adjusted_scene_world
    = (inr s', w')
    /\ call_summary <$> ba_calls (w_trace w')
       = [(["geo/b.JP2"; "geo/c.JP2"], 1, false); (["geo/b.JP2"; "geo/b.JP2"], 1, false)]
    /\ ~ NoDup ["geo/b.JP2"; "geo/b.JP2"].
Proof.
  eexists _, _. split; [vm_compute; reflexivity|]. split; [vm_compute; reflexivity|].
  intros H. apply NoDup_cons in H as [H _]. apply H. by left.
Qed.

(** * Further properties of the timeline construction *)

Lemma cluster_step_cases (sd : list datetime) (st st' : dict * list datetime) (i : nat) :
  cluster_step sd st i = inr st' ->
  (exists (k : string) (v : list nat),
     dict_get st.1 k = Some v /\ st'.1 = dict_setitem st.1 k (v ++ [i]) /\ st'.2 = st.2)
  \/ (exists t : datetime,
        sd !! i = Some t /\ st'.1 = dict_setitem st.1 (strftime t) [i]
        /\ st'.2 = st.2 ++ [t]).
Proof.
  destruct st as [d seen]. unfold cluster_step. unfold nth_res at 1.
  destruct (sd !! i) as [t|] eqn:Ht; [|done]. simpl.
  destruct (0 <? length _)%nat.
  - destruct (nth_res _ _) as [|diff]; [done|]. simpl.
    destruct (Qltb diff margin).
    + destruct (nth_res seen _) as [|ref_date]; [done|]. simpl.
      unfold dict_append. destruct (dict_get d (strftime ref_date)) as [v|] eqn:Hv; [|done].
      simpl. intros [= <-]. left. by exists (strftime ref_date), v.
    + simpl. intros [= <-]. right. by exists t.
  - simpl. intros [= <-]. right. by exists t.
Qed.

Lemma dict_get_Some (d : dict) (k : string) (v : list nat) :
  dict_get d k = Some v -> exists p : nat, d !! p = Some (k, v).
Proof.
  induction d as [|[k' v'] d IH]; simpl; [done|].
  destruct (decide (k' = k)) as [->|].
  - intros [= ->]. by exists 0%nat.
  - intros H. destruct (IH H) as [p Hp]. by exists (S p).
Qed.

Lemma dict_setitem_length (d : dict) (k : string) (v : list nat) :
  k ∈ d.*1 -> length (dict_setitem d k v) = length d.
Proof.
  induction d as [|[k' v'] d IH]; simpl; [by intros ?%elem_of_nil|].
  destruct (decide (k' = k)); [done|].
  intros [?|H]%elem_of_cons; [done|]. simpl. by rewrite IH.
Qed.

(** One turn of the clustering loop adds the image [i] to one cluster, at
    its end, and leaves the first member of every cluster, the image acquired
    at the date of the representative, where it is. *)
Lemma cluster_step_members (sd : list datetime) (i : nat) (st st' : dict * list datetime) :
  clusters_inv sd i st -> clusters_inv sd (S i) st' ->
  cluster_step sd st i = inr st' ->
  concat st.1.*2 ≡ₚ seq 0 i ->
  Forall2 (fun kv r => exists m0 : nat, head kv.2 = Some m0 /\ sd !! m0 = Some r) st.1 st.2 ->
  concat st'.1.*2 ≡ₚ seq 0 (S i)
  /\ Forall2 (fun kv r => exists m0 : nat, head kv.2 = Some m0 /\ sd !! m0 = Some r)
       st'.1 st'.2.
Proof.
  intros Hinv Hinv' Hstep Hperm Hhead.
  destruct (clusters_inv_keys _ _ _ Hinv) as [Hkeys Hnd].
  rewrite seq_S. simpl.
  apply cluster_step_cases in Hstep as [(k & v & Hget & H1 & H2)|(t & Ht & H1 & H2)].
  - destruct (dict_get_Some _ _ _ Hget) as [p Hp].
    rewrite (dict_setitem_lookup _ p k v) in H1 by done.
    rewrite H1, H2. split.
    + rewrite <- Hperm. rewrite list_fmap_insert. simpl.
      assert (st.1.*2 !! p = Some v) as Hpv by (by rewrite list_lookup_fmap, Hp).
      rewrite <- (take_drop_middle _ _ _ Hpv) at 2.
      rewrite insert_take_drop by (by eapply lookup_lt_Some).
      rewrite !concat_app. simpl. rewrite <- !(assoc_L app).
      f_equiv. f_equiv. apply Permutation_app_comm.
    + apply Forall2_same_length_lookup_2.
      * rewrite length_insert. by eapply Forall2_length.
      * intros q kv r Hq Hr.
        destruct (decide (q = p)) as [->|Hne].
        -- rewrite list_lookup_insert_eq in Hq by (by eapply lookup_lt_Some).
           injection Hq as <-. simpl.
           destruct (Forall2_lookup_l _ _ _ _ _ Hhead Hp) as (r' & Hr' & m0 & Hm0 & Hsd).
           simpl in Hm0. assert (r' = r) as -> by congruence.
           exists m0. split; [|done]. destruct v; [done|]. simpl in *. done.
        -- rewrite list_lookup_insert_ne in Hq by done.
           destruct (Forall2_lookup_l _ _ _ _ _ Hhead Hq) as (r' & Hr' & Hx).
           assert (r' = r) as -> by congruence. done.
  - assert (strftime t ∉ st.1.*1) as Hfresh.
    { intros Hin. apply (dict_setitem_length _ _ [i]) in Hin.
      destruct Hinv as (Hf & _), Hinv' as (Hf' & _).
      apply Forall2_length in Hf, Hf'. rewrite H1, H2, length_app in Hf'. simpl in Hf'. lia. }
    rewrite dict_setitem_fresh in H1 by done. rewrite H1, H2. split.
    + rewrite fmap_app, concat_app. simpl. by rewrite Hperm.
    + apply Forall2_app; [done|]. constructor; [|constructor]. by exists i.
Qed.

Lemma build_clusters_members (sd : list datetime) (sf : list string) :
  StronglySorted Z.le sd -> length sf = length sd ->
  exists st : dict * list datetime,
    build_clusters sd sf = inr st /\ clusters_inv sd (length sd) st
    /\ concat st.1.*2 ≡ₚ seq 0 (length sd)
    /\ Forall2 (fun kv r => exists m0 : nat, head kv.2 = Some m0 /\ sd !! m0 = Some r)
         st.1 st.2.
Proof.
  intros Hs Hlen. unfold build_clusters, enumerate.
  rewrite fst_zip by (rewrite length_seq; lia). rewrite Hlen.
  assert (forall n k st, (k + n <= length sd)%nat -> clusters_inv sd k st ->
            concat st.1.*2 ≡ₚ seq 0 k ->
            Forall2 (fun kv r => exists m0 : nat, head kv.2 = Some m0 /\ sd !! m0 = Some r)
              st.1 st.2 ->
            exists st', res_fold (cluster_step sd) (seq k n) st = inr st'
                        /\ clusters_inv sd (k + n) st'
                        /\ concat st'.1.*2 ≡ₚ seq 0 (k + n)
                        /\ Forall2 (fun kv r => exists m0 : nat,
                                      head kv.2 = Some m0 /\ sd !! m0 = Some r)
                             st'.1 st'.2) as Hloop.
  { induction n as [|n IH]; intros k st Hk Hinv Hp Hh; simpl.
    - exists st. rewrite Nat.add_0_r. done.
    - destruct (cluster_step_inv sd k st Hs ltac:(lia) Hinv) as (st1 & Hst1 & Hinv1).
      destruct (cluster_step_members sd k st st1 Hinv Hinv1 Hst1 Hp Hh) as [Hp1 Hh1].
      rewrite Hst1. simpl.
      destruct (IH (S k) st1 ltac:(lia) Hinv1 Hp1 Hh1) as (st2 & -> & Hinv2 & Hp2 & Hh2).
      exists st2. replace (k + S n)%nat with (S k + n)%nat by lia. done. }
  apply (Hloop (length sd) 0%nat ([], [])); [lia| |done|constructor].
  split; [constructor|]. split; [|split].
  - intros p q a b _ Ha. done.
  - intros r Hr. by apply elem_of_nil in Hr.
  - intros m Hm. lia.
Qed.

Lemma res_map_lookup {A B : Type} (f : A -> res B) (P : nat -> A -> B -> Prop)
    (l : list A) :
  (forall (p : nat) (x : A), l !! p = Some x -> exists y : B, f x = inr y /\ P p x y) ->
  exists ys : list B,
    res_map f l = inr ys /\ length ys = length l
    /\ forall (p : nat) (x : A) (y : B), l !! p = Some x -> ys !! p = Some y -> P p x y.
Proof.
  revert P. induction l as [|x l IH]; intros P H; simpl.
  - exists []. split; [done|]. split; [done|]. intros p x y Hx. done.
  - destruct (H 0%nat x eq_refl) as (y & Hy & HP).
    destruct (IH (fun p => P (S p))) as (ys & Hys & Hlen & HF).
    { intros p x' Hp. by apply (H (S p)). }
    exists (y :: ys). rewrite Hy, Hys. simpl. split; [done|]. split; [by rewrite Hlen|].
    intros [|p] x' y' Hx' Hy'; simpl in *.
    + by injection Hx' as <-; injection Hy' as <-.
    + by eapply HF.
Qed.

Lemma take_indices_inv {A : Type} (l : list A) (idxs : list nat) (out : list A) :
  take_indices l idxs = inr out -> Forall2 (fun i x => l !! i = Some x) idxs out.
Proof.
  unfold take_indices. revert out. induction idxs as [|i idxs IH]; intros out; simpl.
  - intros [= <-]. constructor.
  - unfold nth_res at 1. destruct (l !! i) as [x|] eqn:E; [|done]. simpl.
    destruct (res_map _ idxs) as [|xs]; [done|]. simpl. intros [= <-].
    constructor; [done|]. by apply IH.
Qed.

Lemma lookups_Permutation {A : Type} (l : list A) (idxs : list nat) (out : list A) :
  Forall2 (fun i x => l !! i = Some x) idxs out -> idxs ≡ₚ seq 0 (length l) -> out ≡ₚ l.
Proof.
  intros HF Hperm.
  assert (out = omap (fun i => l !! i) idxs) as ->.
  { clear Hperm. induction HF as [|i x idxs out Hi HF IH]; [done|].
    simpl. rewrite Hi. simpl. by f_equal. }
  rewrite Hperm. clear.
  assert (forall k, omap (fun i => l !! i) (seq k (length l - k)) = drop k l) as H.
  { intros k. remember (length l - k)%nat as n eqn:En. revert k En.
    induction n as [|n IH]; intros k En; simpl.
    - by rewrite drop_ge by lia.
    - destruct (lookup_lt_is_Some_2 l k ltac:(lia)) as [x Hx]. rewrite Hx.
      rewrite IH by lia. by rewrite (drop_S _ _ _ Hx). }
  specialize (H 0%nat). rewrite Nat.sub_0_r, drop_0 in H. by rewrite H.
Qed.

Lemma argsort_Permutation (dts : list datetime) : argsort dts ≡ₚ seq 0 (length dts).
Proof.
  unfold argsort. rewrite merge_sort_Permutation. unfold enumerate.
  rewrite fst_zip; [done|]. by rewrite length_seq.
Qed.

(** The timeline entries made of the clusters: the entry of a cluster holds
    the names of its members, in their order, and the date of its
    representative. *)
Lemma timeline_entries_shape (sd : list datetime) (sf : list string)
    (st : dict * list datetime) :
  length sf = length sd -> clusters_inv sd (length sd) st ->
  Forall2 (fun kv r => exists m0 : nat, head kv.2 = Some m0 /\ sd !! m0 = Some r)
    st.1 st.2 ->
  exists tl : Timeline,
    res_map (timeline_entry sd sf) st.1 = inr tl
    /\ length tl = length st.1
    /\ forall (p : nat) (kv : string * list nat) (e : TimelineEntry),
         st.1 !! p = Some kv -> tl !! p = Some e ->
         exists r : datetime,
           st.2 !! p = Some r
           /\ e = new_entry r (t_fnames e)
           /\ t_fnames e <> []
           /\ Forall2 (fun m f => sf !! m = Some f) kv.2 (t_fnames e).
Proof.
  intros Hlen (Hf & _ & _ & _) Hhead.
  apply res_map_lookup. intros p [k members] Hp.
  destruct (Forall2_lookup_l _ _ _ _ _ Hf Hp) as (r & Hr & Hk & Hne & Hm).
  destruct (Forall2_lookup_l _ _ _ _ _ Hhead Hp) as (r' & Hr' & m0 & Hm0 & Hsd).
  assert (r' = r) as -> by congruence.
  simpl in *. destruct members as [|m members']; [done|].
  simpl in Hm0. injection Hm0 as ->.
  set (members := m0 :: members') in *.
  destruct (take_indices_ok sf members) as (fs & Hfs & HF).
  { apply Forall_forall. intros m Hmin. rewrite Hlen. by destruct (Hm m Hmin). }
  eexists. unfold timeline_entry. unfold nth_res at 1. simpl.
  unfold nth_res at 1. rewrite Hsd. simpl. fold members. rewrite Hfs. simpl.
  split; [done|]. exists r. split; [done|]. simpl.
  assert (length fs = length members) as Hl by (symmetry; by eapply Forall2_length).
  split; [|split; [|done]].
  - unfold new_entry. simpl. rewrite Hk, Hl. done.
  - intros ->. done.
Qed.

(** What [group_files_by_date] returns on as many names as dates: the
    entries, made of representatives [reps] that are 30 minutes or more
    apart, in ascending order. *)
Lemma group_files_by_date_structure (dts : list datetime) (fnames : list string) :
  length dts = length fnames ->
  exists (reps : list datetime) (tl : Timeline),
    group_files_by_date dts fnames = inr tl
    /\ concat (t_fnames <$> tl) ≡ₚ fnames
    /\ Forall2 (fun r e => e = new_entry r (t_fnames e) /\ t_fnames e <> []) reps tl
    /\ (forall (p q : nat) (a b : datetime), (p < q)%nat ->
          reps !! p = Some a -> reps !! q = Some b -> a + 1800000000 <= b)
    /\ (forall r : datetime, r ∈ reps -> r ∈ dts)
    /\ (forall (e : TimelineEntry) (f : string), e ∈ tl -> f ∈ t_fnames e ->
          exists (i : nat) (t : datetime),
            fnames !! i = Some f /\ dts !! i = Some t
            /\ t_datetime e <= t < t_datetime e + 1800000000).
Proof.
  intros Hlen. unfold group_files_by_date.
  destruct (argsort_take dts fnames Hlen)
    as (sd & sf & Hsd & Hsf & Hl & Hs & Horig & Hconv).
  rewrite Hsd, Hsf. simpl.
  assert (sf ≡ₚ fnames) as Hsfp.
  { eapply lookups_Permutation; [by apply take_indices_inv|].
    rewrite <- Hlen. apply argsort_Permutation. }
  destruct (build_clusters_members sd sf Hs Hl) as ([d seen] & -> & Hinv & Hperm & Hhead).
  simpl.
  destruct (timeline_entries_shape sd sf (d, seen) Hl Hinv Hhead) as (tl & Htl & Hltl & Hsh).
  simpl in *. rewrite Htl.
  pose proof Hinv as (Hf & Hsep & Hreps & _). simpl in *.
  assert (length seen = length d) as Hls by (symmetry; by eapply Forall2_length).
  exists seen, tl. split; [done|]. split; [|split; [|split; [|split]]].
  - rewrite <- Hsfp.
    apply (lookups_Permutation sf (concat d.*2)); [|by rewrite Hl].
    assert (forall (p : nat) (kv : string * list nat) (e : TimelineEntry),
              d !! p = Some kv -> tl !! p = Some e ->
              Forall2 (fun m f => sf !! m = Some f) kv.2 (t_fnames e)) as Hsh'.
    { intros p kv e Hp He. by destruct (Hsh p kv e Hp He) as (r & _ & _ & _ & HF). }
    clear -Hsh' Hltl. revert tl Hltl Hsh'.
    induction d as [|kv d IH]; intros [|e tl] Hltl Hsh; simpl in *; try done.
    apply Forall2_app.
    + exact (Hsh 0%nat kv e eq_refl eq_refl).
    + apply IH; [lia|]. intros p kv' e' Hp He'. exact (Hsh (S p) kv' e' Hp He').
  - apply Forall2_same_length_lookup_2; [lia|].
    intros p r e Hr He.
    destruct (lookup_lt_is_Some_2 d p) as [kv Hkv].
    { rewrite <- Hls. by eapply lookup_lt_Some. }
    destruct (Hsh p kv e Hkv He) as (r' & Hr' & H1 & H2 & _).
    assert (r' = r) as -> by congruence. done.
  - done.
  - intros r Hr. destruct (Hreps r Hr) as (m & _ & Hm).
    destruct (lookup_lt_is_Some_2 sf m) as [f Hf'].
    { rewrite Hl. by eapply lookup_lt_Some. }
    destruct (Horig m r f Hm Hf') as (i & Hi & _). by eapply list_elem_of_lookup_2.
  - intros e f He Hfe.
    apply list_elem_of_lookup in He as [p Hp].
    destruct (lookup_lt_is_Some_2 d p) as [kv Hkv].
    { rewrite <- Hltl. by eapply lookup_lt_Some. }
    destruct (Hsh p kv e Hkv Hp) as (r & Hr & He & _ & HF).
    apply list_elem_of_lookup in Hfe as [q Hq].
    destruct (Forall2_lookup_r _ _ _ _ _ HF Hq) as (m & Hm & Hsfm).
    destruct (Forall2_lookup_l _ _ _ _ _ Hf Hkv) as (r' & Hr' & _ & _ & Hmem).
    assert (r' = r) as -> by congruence.
    destruct (Hmem m) as (_ & t & Ht & Hwin); [by eapply list_elem_of_lookup_2|].
    destruct (Horig m t f Ht Hsfm) as (i & Hi & Hfi).
    exists i, t. split; [done|]. split; [done|]. rewrite He. simpl. done.
Qed.

(** X1.  Every image is in exactly one entry of the timeline: the names of the
    entries, put end to end, are the input names in another order; no entry
    is empty, [n_images] counts its names, and the entry is not marked
    adjusted. *)
Theorem group_files_by_date_partitions_the_images (dts : list datetime)
    (fnames : list string) :
  length dts = length fnames ->
  exists tl : Timeline,
    group_files_by_date dts fnames = inr tl
    /\ concat (t_fnames <$> tl) ≡ₚ fnames
    /\ Forall (fun e => t_fnames e <> []
                        /\ t_n_images e = Z.of_nat (length (t_fnames e))
                        /\ t_adjusted e = false /\ t_image_weights e = []) tl
    /\ foldr Z.add 0 (t_n_images <$> tl) = Z.of_nat (length fnames).
Proof.
  intros Hlen.
  destruct (group_files_by_date_structure dts fnames Hlen)
    as (reps & tl & Htl & Hperm & Hsh & _).
  exists tl. split; [done|]. split; [done|].
  assert (Forall (fun e => t_fnames e <> []
                        /\ t_n_images e = Z.of_nat (length (t_fnames e))
                        /\ t_adjusted e = false /\ t_image_weights e = []) tl) as Hall.
  { apply Forall_forall. intros e He. apply list_elem_of_lookup in He as [p Hp].
    destruct (Forall2_lookup_r _ _ _ _ _ Hsh Hp) as (r & _ & -> & Hne). done. }
  split; [done|].
  rewrite <- Hperm. clear -Hall.
  induction Hall as [|e tl (_ & Hn & _) _ IH]; [done|].
  rewrite !fmap_cons. cbn [foldr concat]. rewrite length_app, Nat2Z.inj_add, <- IH, Hn. done.
Qed.

Lemma group_files_by_date_partitions_the_images_witness :
  exists tl : Timeline,
    group_files_by_date [day 1; day 0; day 0 + minutes 10] ["b.JP2"; "a1.JP2"; "a2.JP2"]
    = inr tl
    /\ concat (t_fnames <$> tl) ≡ₚ ["b.JP2"; "a1.JP2"; "a2.JP2"]
    /\ Forall (fun e => t_fnames e <> []
                        /\ t_n_images e = Z.of_nat (length (t_fnames e))
                        /\ t_adjusted e = false /\ t_image_weights e = []) tl
    /\ foldr Z.add 0 (t_n_images <$> tl) = 3.
Proof.
  apply (group_files_by_date_partitions_the_images
           [day 1; day 0; day 0 + minutes 10] ["b.JP2"; "a1.JP2"; "a2.JP2"]).
  reflexivity.
Defined.

(** X2.  The timeline is in chronological order: the date of an entry is the
    earliest acquisition of its images, the dates of two entries are 30
    minutes or more apart, in ascending order, so that no two entries have
    the same id; every image of an entry was acquired in the 30 minutes that
    start at the date of the entry. *)
Theorem group_files_by_date_is_chronological (dts : list datetime)
    (fnames : list string) (tl : Timeline) :
  length dts = length fnames -> group_files_by_date dts fnames = inr tl ->
  (forall (p q : nat) (e1 e2 : TimelineEntry), (p < q)%nat ->
     tl !! p = Some e1 -> tl !! q = Some e2 ->
     t_datetime e1 + minutes 30 <= t_datetime e2)
  /\ NoDup (t_id <$> tl)
  /\ (forall e : TimelineEntry, e ∈ tl ->
        t_id e = strftime (t_datetime e) /\ t_datetime e ∈ dts)
  /\ (forall (e : TimelineEntry) (f : string), e ∈ tl -> f ∈ t_fnames e ->
        exists (i : nat) (t : datetime),
          fnames !! i = Some f /\ dts !! i = Some t
          /\ t_datetime e <= t < t_datetime e + minutes 30).
Proof.
  intros Hlen Htl.
  destruct (group_files_by_date_structure dts fnames Hlen)
    as (reps & tl' & Htl' & _ & Hsh & Hsep & Hin & Hwin).
  assert (tl' = tl) as -> by congruence.
  assert (forall p e, tl !! p = Some e -> reps !! p = Some (t_datetime e)) as Hrep.
  { intros p e Hp. destruct (Forall2_lookup_r _ _ _ _ _ Hsh Hp) as (r & Hr & -> & _). done. }
  assert (forall (p q : nat) (e1 e2 : TimelineEntry), (p < q)%nat ->
            tl !! p = Some e1 -> tl !! q = Some e2 ->
            t_datetime e1 + minutes 30 <= t_datetime e2) as Hchron.
  { intros p q e1 e2 Hpq H1 H2. unfold minutes.
    pose proof (Hsep p q _ _ Hpq (Hrep _ _ H1) (Hrep _ _ H2)). lia. }
  assert (forall e : TimelineEntry, e ∈ tl -> t_id e = strftime (t_datetime e)) as Hid.
  { intros e He. apply list_elem_of_lookup in He as [p Hp].
    destruct (Forall2_lookup_r _ _ _ _ _ Hsh Hp) as (r & Hr & -> & _). done. }
  split; [done|]. split; [|split].
  - apply NoDup_alt. intros p q k Hp Hq.
    apply list_lookup_fmap_Some in Hp as (e1 & -> & H1).
    apply list_lookup_fmap_Some in Hq as (e2 & Heq & H2).
    rewrite (Hid e1), (Hid e2) in Heq by (by eapply list_elem_of_lookup_2).
    destruct (decide (p = q)) as [|Hne]; [done|exfalso].
    unfold minutes in Hchron.
    destruct (decide (p < q)%nat).
    + pose proof (Hchron p q _ _ ltac:(done) H1 H2).
      eapply (strftime_far (t_datetime e1) (t_datetime e2)); [lia|done].
    + pose proof (Hchron q p _ _ ltac:(lia) H2 H1).
      eapply (strftime_far (t_datetime e1) (t_datetime e2)); [lia|done].
  - intros e He. split; [by apply Hid|].
    apply list_elem_of_lookup in He as [p Hp]. apply Hin.
    eapply list_elem_of_lookup_2. by apply Hrep.
  - intros e f He Hf. destruct (Hwin e f He Hf) as (i & t & ? & ? & ?).
    exists i, t. unfold minutes. split; [done|]. split; [done|]. lia.
Qed.

Lemma group_files_by_date_is_chronological_witness :
  let tl := [new_entry (day 0) ["a1.JP2"; "a2.JP2"]; new_entry (day 1) ["b.JP2"]] in
  (forall (p q : nat) (e1 e2 : TimelineEntry), (p < q)%nat ->
     tl !! p = Some e1 -> tl !! q = Some e2 ->
     t_datetime e1 + minutes 30 <= t_datetime e2)
  /\ NoDup (t_id <$> tl)
  /\ (forall e : TimelineEntry, e ∈ tl ->
        t_id e = strftime (t_datetime e)
        /\ t_datetime e ∈ [day 1; day 0; day 0 + minutes 10])
  /\ (forall (e : TimelineEntry) (f : string), e ∈ tl -> f ∈ t_fnames e ->
        exists (i : nat) (t : datetime),
          ["b.JP2"; "a1.JP2"; "a2.JP2"] !! i = Some f
          /\ [day 1; day 0; day 0 + minutes 10] !! i = Some t
          /\ t_datetime e <= t < t_datetime e + minutes 30).
Proof.
  apply (group_files_by_date_is_chronological
           [day 1; day 0; day 0 + minutes 10] ["b.JP2"; "a1.JP2"; "a2.JP2"]).
  - reflexivity.
  - vm_compute. reflexivity.
Defined.

Lemma res_map_nth_res_fail {A : Type} (l : list A) (idxs : list nat) (i : nat) :
  i ∈ idxs -> (length l <= i)%nat -> res_map (nth_res l) idxs = inl IndexError.
Proof.
  intros Hin Hi. induction idxs as [|j idxs IH]; [by apply elem_of_nil in Hin|].
  simpl. unfold nth_res at 1. destruct (l !! j) as [x|] eqn:E; [|done]. simpl.
  apply elem_of_cons in Hin as [->|Hin].
  - apply lookup_lt_Some in E. lia.
  - by rewrite IH.
Qed.

Lemma res_map_nth_res_take {A : Type} (l : list A) (n : nat) (idxs : list nat) :
  Forall (fun i => (i < n)%nat) idxs ->
  res_map (nth_res (take n l)) idxs = res_map (nth_res l) idxs.
Proof.
  induction 1 as [|i idxs Hi _ IH]; [done|]. simpl.
  unfold nth_res at 1 3. rewrite lookup_take_lt by done. by rewrite IH.
Qed.

(** X3.  The two input lists are meant to have one length.  With fewer names
    than dates the call raises [IndexError]; names beyond the number of dates
    are ignored; without dates the timeline is empty. *)
Theorem group_files_by_date_lengths (dts : list datetime) (fnames : list string) :
  ((length fnames < length dts)%nat -> group_files_by_date dts fnames = inl IndexError)
  /\ ((length dts <= length fnames)%nat ->
      group_files_by_date dts fnames
      = group_files_by_date dts (take (length dts) fnames))
  /\ (dts = [] -> group_files_by_date dts fnames = inr []).
Proof.
  assert (Forall (fun i => (i < length dts)%nat) (argsort dts)) as Hlt.
  { apply Forall_forall. intros i Hi. rewrite argsort_Permutation in Hi.
    apply elem_of_seq in Hi. lia. }
  split; [|split].
  - intros Hshort. unfold group_files_by_date.
    destruct (take_indices_ok dts (argsort dts) Hlt) as (sd & -> & _). simpl.
    unfold take_indices.
    rewrite (res_map_nth_res_fail fnames (argsort dts) (length dts - 1)); [done| |lia].
    rewrite argsort_Permutation. apply elem_of_seq. lia.
  - intros _. unfold group_files_by_date, take_indices.
    by rewrite res_map_nth_res_take.
  - intros ->. reflexivity.
Qed.

Lemma group_files_by_date_lengths_witness :
  group_files_by_date [day 0; day 1] ["a.JP2"] = inl IndexError.
Proof.
  apply (proj1 (group_files_by_date_lengths [day 0; day 1] ["a.JP2"])). simpl. lia.
Defined.

(** * Further properties of the pair generator *)

Lemma elem_of_arange (a b x : Z) : x ∈ arange a b <-> a <= x < b.
Proof.
  unfold arange. rewrite list_elem_of_fmap. split.
  - intros (i & -> & Hi). apply elem_of_seq in Hi. lia.
  - intros H. exists (Z.to_nat (x - a)). split; [lia|]. apply elem_of_seq. lia.
Qed.

Lemma NoDup_arange (a b : Z) : NoDup (arange a b).
Proof.
  unfold arange. apply NoDup_fmap_2; [|apply NoDup_seq].
  intros i j H. lia.
Qed.

Lemma elem_of_concat {A : Type} (x : A) (ls : list (list A)) :
  x ∈ concat ls <-> exists l : list A, x ∈ l /\ l ∈ ls.
Proof.
  induction ls as [|l ls IH]; simpl.
  - split; [by intros ?%elem_of_nil|]. intros (l & _ & H). by apply elem_of_nil in H.
  - rewrite elem_of_app, IH. split.
    + intros [H|(l' & H1 & H2)]; [exists l; split; [done|by left]|].
      exists l'. split; [done|by right].
    + intros (l' & H1 & H2). apply elem_of_cons in H2 as [->|H2]; [by left|].
      right. by exists l'.
Qed.

Lemma NoDup_concat {A : Type} (ls : list (list A)) :
  Forall (fun l => NoDup l) ls ->
  (forall (p q : nat) (l1 l2 : list A) (x : A), (p < q)%nat ->
     ls !! p = Some l1 -> ls !! q = Some l2 -> x ∈ l1 -> x ∈ l2 -> False) ->
  NoDup (concat ls).
Proof.
  induction 1 as [|l ls Hl _ IH]; intros Hdisj; simpl; [constructor|].
  apply NoDup_app. split; [done|]. split.
  - intros x Hx Hin. apply elem_of_concat in Hin as (l' & Hx' & Hl').
    apply list_elem_of_lookup in Hl' as [q Hq].
    exact (Hdisj 0%nat (S q) l l' x ltac:(lia) eq_refl Hq Hx Hx').
  - apply IH. intros p q l1 l2 x Hpq H1 H2.
    exact (Hdisj (S p) (S q) l1 l2 x ltac:(lia) H1 H2).
Qed.

Lemma elem_of_pairs_of (A : list Z) (B : Z -> list Z) (i j : Z) :
  (i, j) ∈ pairs_of A B <-> i ∈ A /\ j ∈ B i.
Proof.
  unfold pairs_of. rewrite elem_of_concat. split.
  - intros (l & Hl & Hin). apply list_elem_of_fmap in Hin as (a & -> & Ha).
    apply list_elem_of_fmap in Hl as (b & [= -> ->] & Hb). done.
  - intros [Hi Hj]. exists ((fun cam_j => (i, cam_j)) <$> B i). split.
    + apply list_elem_of_fmap. by exists j.
    + apply list_elem_of_fmap. by exists i.
Qed.

Lemma NoDup_pairs_of (A : list Z) (B : Z -> list Z) :
  NoDup A -> (forall i, NoDup (B i)) -> NoDup (pairs_of A B).
Proof.
  intros HA HB. unfold pairs_of. induction HA as [|a A Hnotin HA IH]; [constructor|].
  rewrite fmap_cons. simpl. apply NoDup_app. split; [|split; [|done]].
  - apply NoDup_fmap_2; [|done]. by intros x y [= ->].
  - intros [i j] Hin Hin'.
    apply list_elem_of_fmap in Hin as (b & [= -> ->] & Hb).
    apply (elem_of_pairs_of A B a b) in Hin' as [Ha _]. done.
Qed.

Lemma py_getitem_nonneg {A : Type} (l : list A) (i : Z) (x : A) :
  0 <= i -> l !! Z.to_nat i = Some x -> py_getitem l i = inr x.
Proof.
  intros Hi Hx. unfold py_getitem.
  pose proof (lookup_lt_Some _ _ _ Hx) as Hlt.
  destruct (i <? 0) eqn:E; [apply Z.ltb_lt in E; lia|].
  destruct (0 <=? i) eqn:E1; [|apply Z.leb_gt in E1; lia].
  destruct (i <? Z.of_nat (length l)) eqn:E2; [|apply Z.ltb_ge in E2; lia].
  simpl. by rewrite Hx.
Qed.

Lemma cams_before_S (counts : list Z) (k : nat) (n : Z) :
  counts !! k = Some n -> cams_before counts (S k) = cams_before counts k + n.
Proof.
  intros Hk. unfold cams_before. rewrite (take_S_r _ _ _ Hk).
  rewrite foldr_app. simpl. generalize (take k counts). intros l.
  induction l as [|x l IH]; simpl; lia.
Qed.

Lemma cams_before_end (counts : list Z) (k : nat) :
  (length counts <= k)%nat -> cams_before counts k = foldr Z.add 0 counts.
Proof. intros Hk. unfold cams_before. by rewrite take_ge. Qed.

Lemma cams_before_mono (counts : list Z) (p q : nat) :
  Forall (fun n => 0 <= n) counts -> (p <= q)%nat ->
  cams_before counts p <= cams_before counts q.
Proof.
  intros Hpos Hpq. induction Hpq as [|q Hpq IH]; [lia|].
  destruct (counts !! q) as [n|] eqn:E.
  - rewrite (cams_before_S _ _ _ E).
    rewrite Forall_forall in Hpos. pose proof (Hpos n (list_elem_of_lookup_2 _ _ _ E)). lia.
  - apply lookup_ge_None in E. rewrite (cams_before_end _ (S q)) by lia.
    rewrite (cams_before_end _ q) in IH by lia. done.
Qed.

Lemma cams_before_0 (counts : list Z) : cams_before counts 0 = 0.
Proof. done. Qed.

Lemma elem_of_cams_of (counts : list Z) (k : nat) (x : Z) :
  x ∈ cams_of counts k <-> cams_before counts k <= x < cams_before counts (S k).
Proof. apply elem_of_arange. Qed.

(** The images of two selected dates have different numbers. *)
Lemma cams_of_disjoint (counts : list Z) (p q : nat) (x : Z) :
  Forall (fun n => 0 <= n) counts ->
  x ∈ cams_of counts p -> x ∈ cams_of counts q -> p = q.
Proof.
  intros Hpos Hp Hq. apply elem_of_cams_of in Hp, Hq.
  destruct (decide (p = q)) as [|Hne]; [done|exfalso].
  destruct (decide (p < q)%nat).
  - pose proof (cams_before_mono counts (S p) q Hpos ltac:(lia)). lia.
  - pose proof (cams_before_mono counts (S q) p Hpos ltac:(lia)). lia.
Qed.

Lemma cams_of_in_range (counts : list Z) (k : nat) (x : Z) :
  Forall (fun n => 0 <= n) counts ->
  x ∈ cams_of counts k -> (k < length counts)%nat /\ 0 <= x < foldr Z.add 0 counts.
Proof.
  intros Hpos Hx. apply elem_of_cams_of in Hx.
  assert (k < length counts)%nat as Hk.
  { destruct (decide (k < length counts)%nat); [done|exfalso].
    rewrite (cams_before_end _ k), (cams_before_end _ (S k)) in Hx by lia. lia. }
  split; [done|].
  pose proof (cams_before_mono counts 0 k Hpos ltac:(lia)).
  pose proof (cams_before_mono counts (S k) (length counts) Hpos ltac:(lia)).
  rewrite (cams_before_end _ (length counts)) in * by lia.
  rewrite cams_before_0 in *. lia.
Qed.

Section PairGenerator.

Variable tl : Timeline.
Variable idxs : list Z.
Variable counts : list Z.

Hypothesis Hvalid :
  Forall2 (fun t n => exists e : TimelineEntry,
                        py_getitem tl t = inr e /\ t_n_images e = n /\ 0 <= n) idxs counts.

Lemma counts_nonneg : Forall (fun n => 0 <= n) counts.
Proof.
  apply Forall_forall. intros n Hn. apply list_elem_of_lookup in Hn as [k Hk].
  by destruct (Forall2_lookup_r _ _ _ _ _ Hvalid Hk) as (t & _ & e & _ & _ & Hpos).
Qed.

Lemma count_cams_take (k : nat) :
  count_cams tl (take k idxs) = inr (cams_before counts k).
Proof.
  unfold count_cams, cams_before.
  assert (forall l1 l2,
            Forall2 (fun t n => exists e : TimelineEntry,
                                  py_getitem tl t = inr e /\ t_n_images e = n /\ 0 <= n) l1 l2 ->
            res_map (fun t_idx => do e <- py_getitem tl t_idx; inr (t_n_images e)) l1
            = inr l2) as H.
  { induction 1 as [|t n l1 l2 (e & He & Hn & _) _ IH]; [done|].
    simpl. rewrite He. simpl. rewrite IH. simpl. by rewrite Hn. }
  rewrite (H _ (take k counts)); [done|]. by apply Forall2_take.
Qed.

Lemma selected_entry (k : nat) (n : Z) :
  counts !! k = Some n ->
  exists (t : Z) (e : TimelineEntry),
    idxs !! k = Some t /\ py_getitem tl t = inr e /\ t_n_images e = n.
Proof.
  intros Hk. destruct (Forall2_lookup_r _ _ _ _ _ Hvalid Hk) as (t & Ht & e & He & Hn & _).
  by exists t, e.
Qed.

(** The inner loop over the next dates. *)
Lemma next_dates_fold (k : nat) (n : Z) (ds : list Z) (pairs : list (Z * Z)) :
  counts !! k = Some n ->
  Forall (fun d => 1 <= d /\ Z.of_nat k + d < Z.of_nat (length counts)) ds ->
  res_fold (next_dates_step tl idxs k (cams_before counts k) n) ds pairs
  = inr (pairs ++ concat ((fun d => pairs_of (cams_of counts k)
                                      (fun _ => cams_of counts (k + Z.to_nat d))) <$> ds)).
Proof.
  intros Hk Hds. revert pairs. induction Hds as [|d ds [Hd1 Hd2] _ IH]; intros pairs.
  - simpl. by rewrite app_nil_r.
  - simpl. unfold next_dates_step at 1.
    destruct (lookup_lt_is_Some_2 counts (k + Z.to_nat d)) as [m Hm]; [lia|].
    destruct (selected_entry _ _ Hm) as (t & e & Ht & He & Hn).
    rewrite (py_getitem_nonneg idxs _ t) by (try lia; by replace (Z.to_nat (Z.of_nat k + d)) with (k + Z.to_nat d)%nat by lia).
    simpl. rewrite He. simpl.
    replace (Z.to_nat (Z.of_nat k + d)) with (k + Z.to_nat d)%nat by lia.
    rewrite count_cams_take. simpl. rewrite IH. f_equal.
    rewrite <- (assoc_L app). f_equal. f_equal. unfold cams_of.
    rewrite (cams_before_S _ _ _ Hk), (cams_before_S _ _ _ Hm), Hn. done.
Qed.

(** One turn of the loop over the selected dates. *)
Lemma pairs_step_block (next_dates : Z) (intra_date : bool) (st : pairs_state)
    (k : nat) (t : Z) :
  idxs !! k = Some t ->
  cams_so_far st = cams_before counts k ->
  dates_left st = Z.of_nat (length counts) - Z.of_nat k ->
  pairs_step tl idxs next_dates intra_date st (k, t)
  = inr {| init_pairs := init_pairs st ++ date_block counts next_dates intra_date k;
           cams_so_far := cams_before counts (S k);
           dates_left := Z.of_nat (length counts) - Z.of_nat (S k) |}.
Proof.
  intros Ht Hcs Hdl. unfold pairs_step.
  destruct (Forall2_lookup_l _ _ _ _ _ Hvalid Ht) as (n & Hk & e & He & Hn & Hpos).
  rewrite He. simpl. rewrite Hcs, Hdl, Hn.
  replace (Z.of_nat (length counts) - Z.of_nat k - 1 + 1)
    with (Z.of_nat (length counts) - Z.of_nat k) by lia.
  rewrite (next_dates_fold k n) by
    (try done; apply Forall_forall; intros d Hd; apply elem_of_arange in Hd; lia).
  simpl. rewrite <- (cams_before_S _ _ _ Hk).
  replace (Z.of_nat (length counts) - Z.of_nat k - 1)
    with (Z.of_nat (length counts) - Z.of_nat (S k)) by lia.
  f_equal. f_equal. unfold date_block, cams_of.
  destruct intra_date; [|done]. by rewrite <- (assoc_L app).
Qed.

Lemma load_pairs_closed_form (next_dates : Z) (intra_date : bool) :
  load_pairs_from_same_date_and_next_dates tl idxs next_dates intra_date
  = inr (concat (date_block counts next_dates intra_date <$> seq 0 (length counts))).
Proof.
  unfold load_pairs_from_same_date_and_next_dates, enumerate.
  assert (length idxs = length counts) as Hlen by (by eapply Forall2_length).
  assert (forall (n k : nat) (st : pairs_state),
            (k + n = length counts)%nat ->
            cams_so_far st = cams_before counts k ->
            dates_left st = Z.of_nat (length counts) - Z.of_nat k ->
            exists st' : pairs_state,
              res_fold (pairs_step tl idxs next_dates intra_date)
                (zip (seq k n) (drop k idxs)) st = inr st'
              /\ init_pairs st'
                 = init_pairs st
                   ++ concat (date_block counts next_dates intra_date <$> seq k n)) as Hloop.
  { induction n as [|n IH]; intros k st Hkn Hcs Hdl.
    - exists st. simpl. by rewrite app_nil_r.
    - destruct (lookup_lt_is_Some_2 idxs k) as [t Ht]; [lia|].
      rewrite (drop_S _ _ _ Ht).
      change (zip (seq k (S n)) (t :: drop (S k) idxs))
        with ((k, t) :: zip (seq (S k) n) (drop (S k) idxs)).
      cbn [res_fold].
      rewrite (pairs_step_block _ _ _ _ _ Ht Hcs Hdl). cbn [res_bind].
      destruct (IH (S k) {| init_pairs := init_pairs st
                              ++ date_block counts next_dates intra_date k;
                            cams_so_far := cams_before counts (S k);
                            dates_left := Z.of_nat (length counts) - Z.of_nat (S k) |})
        as (st' & -> & Hst'); [lia|done|done|].
      exists st'. split; [done|]. rewrite Hst'. simpl. by rewrite <- (assoc_L app). }
  destruct (Hloop (length counts) 0%nat
              {| init_pairs := []; cams_so_far := 0;
                 dates_left := Z.of_nat (length idxs) |})
    as (st' & Hst' & Hp); [lia|done|simpl; lia|].
  rewrite drop_0, <- Hlen in Hst'. rewrite Hst'. simpl. by rewrite Hp.
Qed.

End PairGenerator.

Lemma lookup_arange (a b : Z) (p : nat) (x : Z) :
  arange a b !! p = Some x -> x = a + Z.of_nat p.
Proof.
  unfold arange. intros H. apply list_lookup_fmap_Some in H as (i & -> & Hi).
  apply lookup_seq in Hi as [-> _]. done.
Qed.

Lemma elem_of_date_block (counts : list Z) (next_dates : Z) (intra_date : bool)
    (k : nat) (i j : Z) :
  (i, j) ∈ date_block counts next_dates intra_date k <->
  i ∈ cams_of counts k
  /\ ((intra_date = true /\ i < j < cams_before counts (S k))
      \/ exists d : Z,
           1 <= d < Z.min (next_dates + 1) (Z.of_nat (length counts) - Z.of_nat k)
           /\ j ∈ cams_of counts (k + Z.to_nat d)).
Proof.
  unfold date_block. rewrite elem_of_app, elem_of_concat. split.
  - intros [H|(l & Hin & Hl)].
    + destruct intra_date; [|by apply elem_of_nil in H].
      apply elem_of_pairs_of in H as [Hi Hj]. apply elem_of_arange in Hj.
      split; [done|]. left. split; [done|]. lia.
    + apply list_elem_of_fmap in Hl as (d & -> & Hd). apply elem_of_arange in Hd.
      apply elem_of_pairs_of in Hin as [Hi Hj]. split; [done|]. right. by exists d.
  - intros [Hi [[-> Hj]|(d & Hd & Hj)]].
    + left. apply elem_of_pairs_of. split; [done|]. apply elem_of_arange. lia.
    + right. eexists. split; [|apply list_elem_of_fmap; exists d; split; [done|]].
      * by apply elem_of_pairs_of.
      * by apply elem_of_arange.
Qed.

Lemma NoDup_date_block (counts : list Z) (next_dates : Z) (intra_date : bool) (k : nat) :
  Forall (fun n => 0 <= n) counts -> NoDup (date_block counts next_dates intra_date k).
Proof.
  intros Hpos. unfold date_block. apply NoDup_app. split; [|split].
  - destruct intra_date; [|constructor].
    apply NoDup_pairs_of; [apply NoDup_arange|]. intros i. apply NoDup_arange.
  - intros [i j] H1 H2. destruct intra_date; [|by apply elem_of_nil in H1].
    apply elem_of_pairs_of in H1 as [Hi Hj]. apply elem_of_arange in Hj.
    apply elem_of_concat in H2 as (l & Hin & Hl).
    apply list_elem_of_fmap in Hl as (d & -> & Hd). apply elem_of_arange in Hd.
    apply elem_of_pairs_of in Hin as [_ Hj'].
    apply elem_of_cams_of in Hi.
    assert (j ∈ cams_of counts k) as Hjk by (apply elem_of_cams_of; lia).
    pose proof (cams_of_disjoint counts _ _ j Hpos Hjk Hj'). lia.
  - apply NoDup_concat.
    + apply Forall_fmap, Forall_forall. intros d _. simpl.
      apply NoDup_pairs_of; [apply NoDup_arange|]. intros _. apply NoDup_arange.
    + intros p q l1 l2 [i j] Hpq H1 H2 Hin1 Hin2.
      apply list_lookup_fmap_Some in H1 as (d1 & -> & Hd1).
      apply list_lookup_fmap_Some in H2 as (d2 & -> & Hd2).
      apply lookup_arange in Hd1, Hd2.
      apply elem_of_pairs_of in Hin1 as [_ Hj1], Hin2 as [_ Hj2].
      pose proof (cams_of_disjoint counts _ _ j Hpos Hj1 Hj2). lia.
Qed.

(** X4.  The pairs of [load_pairs_from_same_date_and_next_dates]: no pair occurs
    twice, and the images [i] and [j] form a pair exactly when [i] belongs to
    a selected date and [j] to the same date, if pairs within a date are
    asked for and [i < j], or to one of the [next_dates] dates that follow it
    in the selection. *)
Theorem load_pairs_characterised (tl : Timeline) (idxs counts : list Z)
    (next_dates : Z) (intra_date : bool) :
  Forall2 (fun t n => exists e : TimelineEntry,
                        py_getitem tl t = inr e /\ t_n_images e = n /\ 0 <= n) idxs counts ->
  exists pairs : list (Z * Z),
    load_pairs_from_same_date_and_next_dates tl idxs next_dates intra_date = inr pairs
    /\ NoDup pairs
    /\ Forall (fun p => 0 <= p.1 < p.2 /\ p.2 < foldr Z.add 0 counts) pairs
    /\ forall i j : Z,
         (i, j) ∈ pairs <->
         exists k d : nat,
           i ∈ cams_of counts k /\ j ∈ cams_of counts (k + d)
           /\ ((d = 0%nat /\ intra_date = true /\ i < j)
               \/ 1 <= Z.of_nat d <= next_dates).
Proof.
  intros Hvalid.
  pose proof (counts_nonneg tl idxs counts Hvalid) as Hpos.
  eexists. split; [by apply load_pairs_closed_form|].
  set (pairs := concat _).
  assert (forall i j : Z,
            (i, j) ∈ pairs <->
            exists k d : nat,
              i ∈ cams_of counts k /\ j ∈ cams_of counts (k + d)
              /\ ((d = 0%nat /\ intra_date = true /\ i < j)
                  \/ 1 <= Z.of_nat d <= next_dates)) as Hchar.
  { intros i j. unfold pairs. rewrite elem_of_concat. split.
    - intros (l & Hin & Hl). apply list_elem_of_fmap in Hl as (k & -> & Hk).
      apply elem_of_date_block in Hin as [Hi [[Hintra Hj]|(d & Hd & Hj)]].
      + exists k, 0%nat. split; [done|]. rewrite Nat.add_0_r. split.
        * apply elem_of_cams_of in Hi. apply elem_of_cams_of. lia.
        * left. split; [done|]. split; [done|lia].
      + exists k, (Z.to_nat d). split; [done|]. split; [done|]. right. lia.
    - intros (k & d & Hi & Hj & Hd).
      destruct (cams_of_in_range counts _ _ Hpos Hi) as [Hk _].
      destruct (cams_of_in_range counts _ _ Hpos Hj) as [Hkd _].
      exists (date_block counts next_dates intra_date k). split.
      + apply elem_of_date_block. split; [done|].
        destruct Hd as [(-> & Hintra & Hij)|Hd].
        * left. split; [done|]. rewrite Nat.add_0_r in Hj.
          apply elem_of_cams_of in Hj. lia.
        * right. exists (Z.of_nat d). rewrite Nat2Z.id. split; [lia|done].
      + apply list_elem_of_fmap. exists k. split; [done|]. apply elem_of_seq. lia. }
  split; [|split; [|done]].
  - apply NoDup_concat.
    + apply Forall_fmap, Forall_forall. intros k _. by apply NoDup_date_block.
    + intros p q l1 l2 [i j] Hpq H1 H2 Hin1 Hin2.
      apply list_lookup_fmap_Some in H1 as (k1 & -> & Hk1).
      apply list_lookup_fmap_Some in H2 as (k2 & -> & Hk2).
      apply lookup_seq in Hk1 as [-> _], Hk2 as [-> _].
      apply elem_of_date_block in Hin1 as [Hi1 _], Hin2 as [Hi2 _].
      pose proof (cams_of_disjoint counts _ _ i Hpos Hi1 Hi2). lia.
  - apply Forall_forall. intros [i j] Hin. apply Hchar in Hin as (k & d & Hi & Hj & Hd).
    destruct (cams_of_in_range counts _ _ Hpos Hi) as [_ Hi'].
    destruct (cams_of_in_range counts _ _ Hpos Hj) as [_ Hj']. simpl.
    split; [|lia]. split; [lia|].
    destruct Hd as [(_ & _ & Hij)|Hd]; [done|].
    apply elem_of_cams_of in Hi, Hj.
    pose proof (cams_before_mono counts (S k) (k + d) Hpos ltac:(lia)). lia.
Qed.

Lemma load_pairs_characterised_witness :
  exists pairs : list (Z * Z),
    load_pairs_from_same_date_and_next_dates timeline_2_1_3 [2; 0] 1 true = inr pairs
    /\ NoDup pairs
    /\ Forall (fun p => 0 <= p.1 < p.2 /\ p.2 < foldr Z.add 0 [3; 2]) pairs
    /\ forall i j : Z,
         (i, j) ∈ pairs <->
         exists k d : nat,
           i ∈ cams_of [3; 2] k /\ j ∈ cams_of [3; 2] (k + d)
           /\ ((d = 0%nat /\ true = true /\ i < j) \/ 1 <= Z.of_nat d <= 1).
Proof.
  apply (load_pairs_characterised timeline_2_1_3 [2; 0] [3; 2] 1 true).
  repeat constructor; eexists; (split; [reflexivity|split; [reflexivity|lia]]).
Defined.

Lemma py_getitem_error {A : Type} (l : list A) (i : Z) (e : exn) :
  py_getitem l i = inl e -> e = IndexError.
Proof.
  unfold py_getitem. destruct (_ && _); [|by intros [= <-]].
  destruct (l !! _); [done|by intros [= <-]].
Qed.

Lemma py_getitem_out_of_range {A : Type} (l : list A) (i : Z) :
  i < - Z.of_nat (length l) \/ Z.of_nat (length l) <= i -> py_getitem l i = inl IndexError.
Proof.
  intros Hi. unfold py_getitem.
  destruct (i <? 0) eqn:E; [apply Z.ltb_lt in E|apply Z.ltb_ge in E].
  - destruct (0 <=? i + Z.of_nat (length l)) eqn:E1; [apply Z.leb_le in E1; lia|done].
  - destruct (0 <=? i) eqn:E1; [|done].
    destruct (i <? Z.of_nat (length l)) eqn:E2; [apply Z.ltb_lt in E2; lia|done].
Qed.

Lemma res_map_error {A B : Type} (f : A -> res B) (l : list A) (e e0 : exn) :
  (forall x e', f x = inl e' -> e' = e0) -> res_map f l = inl e -> e = e0.
Proof.
  intros Hf. induction l as [|x l IH]; simpl; [done|].
  destruct (f x) as [e'|y] eqn:E; simpl; [intros [= <-]; by eapply Hf|].
  destruct (res_map f l); simpl; [intros [= <-]; by apply IH|done].
Qed.

Lemma res_fold_error {A S : Type} (body : S -> A -> res S) (l : list A) (st : S)
    (e e0 : exn) :
  (forall s x e', body s x = inl e' -> e' = e0) -> res_fold body l st = inl e -> e = e0.
Proof.
  intros Hb. revert st. induction l as [|x l IH]; intros st; simpl; [done|].
  destruct (body st x) as [e'|st'] eqn:E; simpl; [intros [= <-]; by eapply Hb|].
  apply IH.
Qed.

Lemma pairs_step_error (tl : Timeline) (idxs : list Z) (next_dates : Z)
    (intra_date : bool) (st : pairs_state) (kt : nat * Z) (e : exn) :
  pairs_step tl idxs next_dates intra_date st kt = inl e -> e = IndexError.
Proof.
  destruct kt as [k t]. unfold pairs_step.
  destruct (py_getitem tl t) as [e'|entry] eqn:E; simpl.
  { intros [= <-]. by eapply py_getitem_error. }
  destruct (res_fold _ _ _) as [e'|pairs2] eqn:E2; simpl; [|done].
  intros [= <-]. eapply res_fold_error; [|exact E2].
  intros pairs d e3. unfold next_dates_step.
  destruct (py_getitem idxs _) as [e1|t'] eqn:E3; simpl.
  { intros [= <-]. by eapply py_getitem_error. }
  destruct (py_getitem tl t') as [e1|entry'] eqn:E4; simpl.
  { intros [= <-]. by eapply py_getitem_error. }
  destruct (count_cams tl _) as [e1|c] eqn:E5; simpl; [|done].
  intros [= <-]. unfold count_cams in E5.
  destruct (res_map _ _) as [e2|ns] eqn:E6; simpl in E5; [|done].
  injection E5 as <-. eapply res_map_error; [|exact E6].
  intros x e4. cbv beta. destruct (py_getitem tl x) eqn:E7; simpl.
  - intros [= <-]. by eapply py_getitem_error.
  - intros Hx. discriminate Hx.
Qed.

(** X5.  A selected index outside the timeline makes the pair generator raise
    [IndexError]; an empty selection has no pairs. *)
Theorem load_pairs_index_out_of_range (tl : Timeline) (idxs : list Z)
    (next_dates : Z) (intra_date : bool) :
  (forall t : Z, t ∈ idxs ->
     t < - Z.of_nat (length tl) \/ Z.of_nat (length tl) <= t ->
     load_pairs_from_same_date_and_next_dates tl idxs next_dates intra_date
     = inl IndexError)
  /\ (idxs = [] ->
      load_pairs_from_same_date_and_next_dates tl idxs next_dates intra_date = inr []).
Proof.
  split; [|by intros ->].
  intros t Hin Hout. apply py_getitem_out_of_range in Hout.
  unfold load_pairs_from_same_date_and_next_dates.
  assert (forall (l : list (nat * Z)) (st : pairs_state),
            t ∈ l.*2 ->
            res_fold (pairs_step tl idxs next_dates intra_date) l st = inl IndexError) as H.
  { induction l as [|[k t'] l IH]; intros st Ht; [by apply elem_of_nil in Ht|].
    cbn [res_fold].
    destruct (pairs_step tl idxs next_dates intra_date st (k, t')) as [e|st'] eqn:E.
    - apply pairs_step_error in E as ->. done.
    - simpl. rewrite fmap_cons in Ht. apply elem_of_cons in Ht as [Ht|Ht]; [|by apply IH].
      simpl in Ht. subst t'. unfold pairs_step in E. by rewrite Hout in E. }
  rewrite H; [done|]. unfold enumerate. rewrite snd_zip; [done|]. by rewrite length_seq.
Qed.

Lemma load_pairs_index_out_of_range_witness :
  load_pairs_from_same_date_and_next_dates timeline_2_1_3 [0; 3] 1 true = inl IndexError.
Proof.
  apply (proj1 (load_pairs_index_out_of_range timeline_2_1_3 [0; 3] 1 true) 3).
  - apply (bool_decide_unpack _). vm_compute. exact I.
  - simpl. lia.
Defined.

(** * Further properties of file names and of the stores *)

(** ** Strings *)

Lemma str_app_cons (a : ascii) (s t : string) : String a s +:+ t = String a (s +:+ t).
Proof. reflexivity. Qed.

Lemma str_app_nil_l (s : string) : "" +:+ s = s.
Proof. reflexivity. Qed.

Lemma str_app_nil_r (s : string) : s +:+ "" = s.
Proof. induction s as [|a s IH]; [done|]. rewrite str_app_cons. by f_equal. Qed.

Lemma str_app_assoc (s1 s2 s3 : string) : (s1 +:+ s2) +:+ s3 = s1 +:+ (s2 +:+ s3).
Proof.
  induction s1 as [|a s1 IH]; [done|]. rewrite !str_app_cons. by f_equal.
Qed.

Lemma str_length_app (s1 s2 : string) :
  String.length (s1 +:+ s2) = (String.length s1 + String.length s2)%nat.
Proof.
  induction s1 as [|a s1 IH]; [done|]. rewrite str_app_cons. simpl. by f_equal.
Qed.

Lemma contains_char_cons (c a : ascii) (s : string) :
  contains (str c) (String a s) = false <-> a <> c /\ contains (str c) s = false.
Proof.
  cbn [contains str String.prefix].
  destruct (ascii_dec c a) as [->|Hne].
  - destruct s; simpl; split; try done; by intros [? _].
  - simpl. split; [intros H; split; [congruence|done]|by intros [_ H]].
Qed.

Lemma contains_char_app (c : ascii) (s1 s2 : string) :
  contains (str c) (s1 +:+ s2) = false <->
  contains (str c) s1 = false /\ contains (str c) s2 = false.
Proof.
  induction s1 as [|a s1 IH].
  - rewrite str_app_nil_l. split; [by intros H|by intros [_ H]].
  - rewrite str_app_cons, !contains_char_cons, IH. tauto.
Qed.

(** ** [rsplit_after], [basename] *)

Lemma rsplit_after_none (c : ascii) (done cur p : string) :
  contains (str c) p = false -> rsplit_after c done cur p = (done, cur +:+ p).
Proof.
  revert done cur. induction p as [|a p IH]; intros done cur Hp; cbn [rsplit_after].
  - by rewrite str_app_nil_r.
  - apply contains_char_cons in Hp as [Hne Hp].
    rewrite decide_False by done. rewrite IH by done.
    by rewrite str_app_assoc.
Qed.

Lemma rsplit_after_app (c : ascii) (done cur h t : string) :
  rsplit_after c done cur (h +:+ String c t)
  = rsplit_after c (done +:+ cur +:+ h +:+ str c) "" t.
Proof.
  revert done cur. induction h as [|a h IH]; intros done cur.
  - rewrite !str_app_nil_l. cbn [rsplit_after]. by rewrite decide_True.
  - rewrite !str_app_cons. cbn [rsplit_after].
    destruct (decide (a = c)) as [->|Hne]; rewrite IH; unfold str;
      by rewrite ?str_app_assoc, ?str_app_cons, ?str_app_nil_l.
Qed.

(** Every path is [head +:+ tail], with a [tail] free of [c] and a [head]
    that is empty or ends with [c]. *)
Lemma rsplit_after_spec (c : ascii) (p : string) :
  let '(head, tail) := rsplit_after c "" "" p in
  p = head +:+ tail /\ contains (str c) tail = false
  /\ (head = "" \/ exists h : string, head = h +:+ str c).
Proof.
  assert (forall done cur,
            contains (str c) cur = false ->
            (done = "" \/ exists h : string, done = h +:+ str c) ->
            let '(head, tail) := rsplit_after c done cur p in
            done +:+ cur +:+ p = head +:+ tail /\ contains (str c) tail = false
            /\ (head = "" \/ exists h : string, head = h +:+ str c)) as H.
  { induction p as [|a p IH]; intros done cur Hcur Hdone; cbn [rsplit_after].
    - by rewrite str_app_nil_r.
    - destruct (decide (a = c)) as [->|Hne].
      + specialize (IH (done +:+ cur +:+ str c) "" eq_refl).
        destruct (rsplit_after c (done +:+ cur +:+ str c) "" p) as [head tail].
        destruct IH as (H1 & H2 & H3).
        { right. exists (done +:+ cur). by rewrite str_app_assoc. }
        split; [|done]. rewrite <- H1. unfold str.
        by rewrite ?str_app_assoc, ?str_app_cons, ?str_app_nil_l.
      + specialize (IH done (cur +:+ str a)).
        destruct (rsplit_after c done (cur +:+ str a) p) as [head tail].
        destruct IH as (H1 & H2 & H3); [|done|].
        { apply contains_char_app. split; [done|]. apply contains_char_cons. done. }
        split; [|done]. rewrite <- H1. unfold str.
        by rewrite ?str_app_assoc, ?str_app_cons, ?str_app_nil_l. }
  specialize (H "" "" eq_refl (or_introl eq_refl)). rewrite !str_app_nil_l in H. done.
Qed.

Lemma basename_no_slash (p : string) : contains "/" p = false -> basename p = p.
Proof. intros H. unfold basename. by rewrite (rsplit_after_none slash). Qed.

Lemma basename_app (h t : string) :
  contains "/" t = false -> basename (h +:+ "/" +:+ t) = t.
Proof.
  intros H. unfold basename.
  change ("/" +:+ t) with (String slash t).
  rewrite rsplit_after_app. by rewrite (rsplit_after_none slash).
Qed.

(** ** [str.replace] *)

Lemma prefix_refl (s : string) : String.prefix s s = true.
Proof.
  induction s as [|a s IH]; [done|]. simpl. by destruct (ascii_dec a a).
Qed.

Lemma prefix_length (old s : string) :
  String.prefix old s = true -> (String.length old <= String.length s)%nat.
Proof.
  revert s. induction old as [|o old IH]; intros s; [simpl; lia|].
  destruct s as [|a s]; simpl; [done|]. destruct (ascii_dec o a); [|done].
  intros H. apply IH in H. lia.
Qed.

Lemma prefix_app_sep (c : ascii) (old s1 s2 : string) :
  contains (str c) old = false ->
  String.prefix old (s1 +:+ String c s2) = String.prefix old s1.
Proof.
  revert s1. induction old as [|o old IH]; intros s1 Hc.
  - by destruct s1.
  - apply contains_char_cons in Hc as [Hne Hc].
    destruct s1 as [|a s1].
    + rewrite str_app_nil_l. simpl. by destruct (ascii_dec o c).
    + rewrite str_app_cons. simpl. destruct (ascii_dec o a); [|done]. by apply IH.
Qed.

Lemma replace_go_skip_all (old new s : string) (n : nat) :
  (String.length s <= n)%nat -> replace_go old new n s = "".
Proof.
  revert n. induction s as [|a s IH]; intros n Hn; [done|].
  simpl in Hn. destruct n as [|n]; [lia|]. simpl. apply IH. lia.
Qed.

Lemma replace_go_self (old new : string) :
  old <> "" -> replace_go old new 0 old = new.
Proof.
  destruct old as [|a old]; [done|intros _].
  cbn [replace_go]. rewrite prefix_refl.
  rewrite replace_go_skip_all by (simpl; lia). by rewrite str_app_nil_r.
Qed.

(** An occurrence of [old] does not reach over a character that [old] does
    not contain: up to it, the replacement goes as if the text ended there. *)
Lemma replace_go_head (c : ascii) (old new h : string) (skip : nat) :
  contains (str c) old = false -> old <> "" -> (skip <= String.length h)%nat ->
  replace_go old new skip (h +:+ String c old)
  = replace_go old new skip h +:+ String c new.
Proof.
  intros Hc Hne. revert skip. induction h as [|a h IH]; intros skip Hskip.
  - simpl in Hskip. replace skip with 0%nat by lia.
    rewrite !str_app_nil_l. cbn [replace_go].
    assert (String.prefix old (String c old) = false) as ->.
    { destruct old as [|o old]; [done|]. apply contains_char_cons in Hc as [Ho _].
      simpl. by destruct (ascii_dec o c). }
    by rewrite replace_go_self.
  - rewrite str_app_cons. simpl in Hskip. destruct skip as [|n].
    + cbn [replace_go].
      rewrite <- str_app_cons, (prefix_app_sep c) by done.
      destruct (String.prefix old (String a h)) eqn:Hp.
      * apply prefix_length in Hp. simpl in Hp.
        rewrite IH by lia. by rewrite str_app_assoc.
      * rewrite IH by lia. by rewrite str_app_cons.
    + cbn [replace_go]. apply IH. lia.
Qed.

(** ** [os.path.splitext] *)

Lemma leading_dots_build (dots x : string) :
  leading_dots dots = (dots, "") ->
  (x = "" \/ exists (a : ascii) (r : string), x = String a r /\ a <> dot) ->
  leading_dots (dots +:+ x) = (dots, x).
Proof.
  intros Hd Hx. induction dots as [|d dots IH].
  - rewrite str_app_nil_l. destruct Hx as [->|(a & r & -> & Ha)]; [done|].
    simpl. by rewrite decide_False.
  - rewrite str_app_cons. simpl in *.
    destruct (decide (d = dot)) as [->|Hne]; [|done].
    destruct (leading_dots dots) as [ds r] eqn:E.
    injection Hd as -> ->. by rewrite IH.
Qed.

Lemma leading_dots_spec (s : string) :
  let '(dots, rest) := leading_dots s in
  s = dots +:+ rest /\ leading_dots dots = (dots, "")
  /\ (rest = "" \/ exists (a : ascii) (r : string), rest = String a r /\ a <> dot).
Proof.
  induction s as [|a s IH]; simpl.
  - split; [done|]. split; [done|by left].
  - destruct (decide (a = dot)) as [->|Hne].
    + destruct (leading_dots s) as [dots rest]. destruct IH as (-> & Hd & Hr).
      split; [done|]. split; [|done]. cbn [leading_dots].
      destruct (decide (dot = dot)); [|done]. by rewrite Hd.
    + split; [done|]. split; [done|]. right. by exists a, s.
Qed.

Lemma substring_0_app (s t : string) : String.substring 0 (String.length s) (s +:+ t) = s.
Proof.
  induction s as [|a s IH].
  - rewrite str_app_nil_l. by destruct t.
  - rewrite str_app_cons. simpl. by rewrite IH.
Qed.

Lemma substring_init (s : string) (c : ascii) :
  String.substring 0 (String.length (s +:+ str c) - 1) (s +:+ str c) = s.
Proof.
  rewrite str_length_app.
  replace (String.length s + String.length (str c) - 1)%nat with (String.length s)
    by (simpl; lia).
  apply substring_0_app.
Qed.

Lemma splitext_name_suffix (name suffix : string) :
  contains "." suffix = false ->
  splitext_name ((splitext_name name).1 +:+ suffix +:+ (splitext_name name).2)
  = ((splitext_name name).1 +:+ suffix, (splitext_name name).2)
  /\ (splitext_name name).1 +:+ (splitext_name name).2 = name.
Proof.
  intros Hsuf. destruct (splitext_name name) as [root ext] eqn:E. cbn [fst snd].
  unfold splitext_name in E.
  pose proof (leading_dots_spec name) as Hld.
  destruct (leading_dots name) as [dots rest] eqn:Eld.
  destruct Hld as (Hname & Hdots & Hrest).
  pose proof (rsplit_after_spec dot rest) as Hrs.
  destruct (rsplit_after dot "" "" rest) as [upto after] eqn:Ers.
  destruct Hrs as (Hr & Hafter & Hupto).
  destruct upto as [|u0 upto'].
  - (* no dot after the leading dots *)
    injection E as <- <-. rewrite !str_app_nil_r. split; [|done].
    rewrite str_app_nil_l in Hr. subst after.
    unfold splitext_name.
    assert (leading_dots (name +:+ suffix) = (dots, rest +:+ suffix)) as ->.
    { rewrite Hname, str_app_assoc. apply leading_dots_build; [done|].
      destruct Hrest as [->|(a & r & -> & Ha)].
      - rewrite str_app_nil_l. destruct suffix as [|a r]; [by left|].
        right. exists a, r. split; [done|].
        by apply (contains_char_cons dot) in Hsuf as [? _].
      - right. by exists a, (r +:+ suffix). }
    rewrite (rsplit_after_none dot) by (by apply contains_char_app).
    done.
  - (* the extension starts at the last dot *)
    destruct Hupto as [|(u & Hu)]; [done|]. rewrite Hu in *. clear Hu u0 upto'.
    rewrite substring_init in E. injection E as <- <-.
    assert (exists (a : ascii) (r : string), u = String a r /\ a <> dot) as (a & r & -> & Ha).
    { destruct Hrest as [->|(a & r & -> & Ha)].
      - destruct u; discriminate Hr.
      - destruct u as [|a' u'].
        + rewrite str_app_nil_l in Hr. injection Hr as -> _. done.
        + rewrite !str_app_cons in Hr. injection Hr as -> _. by exists a', u'. }
    set (u := String a r) in *.
    split.
    2:{ rewrite Hname, Hr. unfold str. by rewrite !str_app_assoc. }
    unfold splitext_name.
    assert (leading_dots ((dots +:+ u) +:+ suffix +:+ str dot +:+ after)
            = (dots, (u +:+ suffix) +:+ String dot after)) as ->.
    { unfold str, u. rewrite ?str_app_assoc, ?str_app_cons, ?str_app_nil_l.
      apply leading_dots_build; [done|]. right.
      exists a, (r +:+ suffix +:+ String dot after). by rewrite ?str_app_cons. }
    rewrite rsplit_after_app, !str_app_nil_l.
    rewrite (rsplit_after_none dot) by done. rewrite str_app_nil_l.
    destruct ((u +:+ suffix) +:+ str dot) as [|x y] eqn:Eu.
    { unfold u in Eu. rewrite !str_app_cons in Eu. discriminate Eu. }
    rewrite <- Eu. clear Eu x y.
    rewrite substring_init. by rewrite str_app_assoc.
Qed.

Lemma splitext_no_slash (name : string) :
  contains "/" name = false -> splitext name = splitext_name name.
Proof.
  intros H. unfold splitext. rewrite (rsplit_after_none slash) by done.
  rewrite str_app_nil_l. by destruct (splitext_name name).
Qed.

(** What [add_suffix_to_fname] makes of a path [head +:+ base] whose last
    component [base] is not empty. *)
Lemma add_suffix_to_fname_basename (fname suffix : string) :
  basename fname <> "" -> contains "/" suffix = false ->
  basename (add_suffix_to_fname fname suffix)
  = get_id fname +:+ suffix +:+ (splitext (basename fname)).2.
Proof.
  intros Hne Hsuf. unfold get_id, add_suffix_to_fname.
  pose proof (rsplit_after_spec slash fname) as Hsp.
  unfold basename in *.
  destruct (rsplit_after slash "" "" fname) as [head base] eqn:E. cbn [fst snd] in *.
  destruct Hsp as (Hf & Hb & Hh).
  rewrite splitext_no_slash by done.
  destruct (splitext_name_suffix base "" eq_refl) as [_ Hre].
  destruct (splitext_name base) as [root ext]. cbn [fst snd] in *.
  assert (contains "/" (root +:+ suffix +:+ ext) = false) as Hnew.
  { rewrite <- Hre in Hb. apply (contains_char_app slash) in Hb as [H1 H2].
    apply (contains_char_app slash). split; [done|].
    by apply (contains_char_app slash). }
  unfold str_replace. rewrite decide_False by done.
  destruct Hh as [->|(h & ->)].
  - rewrite str_app_nil_l in Hf. subst fname.
    rewrite replace_go_self by done.
    by rewrite (rsplit_after_none slash).
  - rewrite Hf. unfold str. rewrite str_app_assoc, str_app_cons, str_app_nil_l.
    rewrite (replace_go_head slash) by (try done; lia).
    rewrite rsplit_after_app. by rewrite (rsplit_after_none slash).
Qed.

Lemma get_id_no_slash (fn : string) : contains "/" (get_id fn) = false.
Proof.
  unfold get_id. pose proof (rsplit_after_spec slash fn) as Hsp. unfold basename.
  destruct (rsplit_after slash "" "" fn) as [head base]. cbn [fst snd].
  destruct Hsp as (_ & Hb & _). rewrite splitext_no_slash by done.
  destruct (splitext_name_suffix base "" eq_refl) as [_ Hre].
  rewrite <- Hre in Hb. by apply (contains_char_app slash) in Hb as [H1 _].
Qed.

Lemma get_id_add_suffix (fname suffix : string) :
  basename fname <> "" -> contains "/" suffix = false -> contains "." suffix = false ->
  get_id (add_suffix_to_fname fname suffix) = get_id fname +:+ suffix.
Proof.
  intros Hne Hsl Hdot.
  pose proof (add_suffix_to_fname_basename fname suffix Hne Hsl) as Hb.
  unfold get_id at 1. rewrite Hb. unfold get_id.
  pose proof (rsplit_after_spec slash fname) as Hsp. unfold basename in *.
  destruct (rsplit_after slash "" "" fname) as [head base] eqn:E. cbn [fst snd] in *.
  destruct Hsp as (_ & Hbase & _).
  rewrite (splitext_no_slash base) by done.
  destruct (splitext_name_suffix base suffix Hdot) as [Hs Hre].
  assert (contains "/" ((splitext_name base).1 +:+ suffix +:+ (splitext_name base).2) = false)
    as Hnew.
  { rewrite <- Hre in Hbase. apply (contains_char_app slash) in Hbase as [H1 H2].
    apply (contains_char_app slash). split; [done|].
    by apply (contains_char_app slash). }
  rewrite splitext_no_slash by done. by rewrite Hs.
Qed.

(** X6.  [add_suffix_to_fname] puts the suffix between the name and the
    extension of the last component of a path, and leaves that component
    free of slashes, so that [get_id] of the result is the id of the path
    followed by the suffix; the id itself never contains a slash. *)
Theorem get_id_of_suffixed_name (fname suffix : string) :
  basename fname <> "" -> contains "/" suffix = false -> contains "." suffix = false ->
  basename (add_suffix_to_fname fname suffix)
  = get_id fname +:+ suffix +:+ (splitext (basename fname)).2
  /\ get_id (add_suffix_to_fname fname suffix) = get_id fname +:+ suffix
  /\ contains "/" (get_id (add_suffix_to_fname fname suffix)) = false.
Proof.
  intros Hne Hsl Hdot. split; [|split].
  - by apply add_suffix_to_fname_basename.
  - by apply get_id_add_suffix.
  - rewrite get_id_add_suffix by done. apply (contains_char_app slash).
    split; [apply get_id_no_slash|done].
Qed.

Lemma get_id_of_suffixed_name_witness :
  basename (add_suffix_to_fname "geo/s2/img_01.JP2" "RPC_adj")
  = get_id "geo/s2/img_01.JP2" +:+ "RPC_adj" +:+ (splitext (basename "geo/s2/img_01.JP2")).2
  /\ get_id (add_suffix_to_fname "geo/s2/img_01.JP2" "RPC_adj")
     = get_id "geo/s2/img_01.JP2" +:+ "RPC_adj"
  /\ contains "/" (get_id (add_suffix_to_fname "geo/s2/img_01.JP2" "RPC_adj")) = false.
Proof.
  apply (get_id_of_suffixed_name "geo/s2/img_01.JP2" "RPC_adj"); [|reflexivity..].
  vm_compute. discriminate.
Defined.

(** ** [os.path.join] *)

Lemma rev_app_app (a b acc : string) :
  String.rev_app (a +:+ b) acc = String.rev_app b (String.rev_app a acc).
Proof.
  revert acc. induction a as [|c a IH]; intros acc; [done|].
  rewrite str_app_cons. simpl. apply IH.
Qed.

Lemma os_path_join_plain (a b : string) :
  a <> "" -> endswith a "/" = false -> startswith b "/" = false ->
  os_path_join a b = a +:+ "/" +:+ b.
Proof.
  intros Ha He Hb. unfold os_path_join. rewrite Hb, He. by rewrite decide_False.
Qed.

Lemma rpcs_init_dir_shape (dst : string) :
  exists P : string, os_path_join dst "rpcs_init" = P +:+ "rpcs_init".
Proof.
  unfold os_path_join. cbn [startswith String.prefix].
  destruct (ascii_dec _ _); [done|].
  destruct (decide (dst = "")); [by exists ""|].
  destruct (endswith dst "/"); [by exists dst|].
  exists (dst +:+ "/"). by rewrite str_app_assoc.
Qed.

Lemma startswith_slash_app (s t : string) :
  contains "/" s = false -> s <> "" -> startswith (s +:+ t) "/" = false.
Proof.
  intros Hs Hne. destruct s as [|a s]; [done|]. rewrite str_app_cons.
  apply (contains_char_cons slash) in Hs as [Ha _].
  unfold startswith. cbn [String.prefix]. destruct (ascii_dec "/"%char a) as [E|]; [|done].
  exfalso. apply Ha. by rewrite <- E.
Qed.

(** X7.  The file that [load_rpcs_from_dir] looks up for an image is
    [<rpc_dir>/<id><suffix>.<extension>].  With the suffix [""] this is, in
    [<output_dir>/rpcs_init], the file in which [load_scene] stores the
    initial model of the image; with the default suffix ["RPC_adj"] it is
    another file, for every image. *)
Theorem rpc_file_looked_up (st : Settings) (fn : string) :
  basename fn <> "" ->
  (forall rpc_dir suffix extension : string,
     contains "/" suffix = false -> contains "." suffix = false ->
     rpc_path rpc_dir suffix extension fn
     = os_path_join rpc_dir (get_id fn +:+ suffix +:+ "." +:+ extension))
  /\ rpc_path (os_path_join (dst_dir st) "rpcs_init") "" "rpc" fn = init_rpc_fname st fn
  /\ rpc_path (os_path_join (dst_dir st) "rpcs_init") default_suffix "rpc" fn
     <> init_rpc_fname st fn.
Proof.
  intros Hne.
  assert (forall rpc_dir suffix extension : string,
            contains "/" suffix = false -> contains "." suffix = false ->
            rpc_path rpc_dir suffix extension fn
            = os_path_join rpc_dir (get_id fn +:+ suffix +:+ "." +:+ extension)) as Hgen.
  { intros rpc_dir suffix extension Hsl Hdot. unfold rpc_path.
    rewrite (get_id_add_suffix fn suffix Hne Hsl Hdot).
    by rewrite !str_app_assoc. }
  split; [exact Hgen|].
  rewrite !Hgen by done. unfold init_rpc_fname, default_suffix.
  destruct (rpcs_init_dir_shape (dst_dir st)) as [P HP]. rewrite HP.
  assert (P +:+ "rpcs_init" <> "") as HD by (by destruct P).
  assert (endswith (P +:+ "rpcs_init") "/" = false) as HE.
  { unfold endswith, String.rev. rewrite rev_app_app.
    cbn [String.rev_app String.prefix]. by destruct (ascii_dec _ _). }
  pose proof (get_id_no_slash fn) as Hid.
  assert (forall t : string, startswith t "/" = false ->
            startswith (get_id fn +:+ t) "/" = false) as Hstart.
  { intros t Ht. destruct (decide (get_id fn = "")) as [->|Hid'].
    - by rewrite str_app_nil_l.
    - by apply startswith_slash_app. }
  split.
  - rewrite os_path_join_plain; [|done|done|by apply Hstart].
    by rewrite str_app_nil_l, !str_app_assoc.
  - rewrite os_path_join_plain; [|done|done|by apply Hstart].
    rewrite !str_app_assoc. intros Heq.
    do 4 apply String.app_inj in Heq. vm_compute in Heq. discriminate Heq.
Qed.

Lemma rpc_file_looked_up_witness :
  (forall rpc_dir suffix extension : string,
     contains "/" suffix = false -> contains "." suffix = false ->
     rpc_path rpc_dir suffix extension "geo/img_01.JP2"
     = os_path_join rpc_dir (get_id "geo/img_01.JP2" +:+ suffix +:+ "." +:+ extension))
  /\ rpc_path (os_path_join (dst_dir (settings adjusted_scene)) "rpcs_init") "" "rpc"
       "geo/img_01.JP2"
     = init_rpc_fname (settings adjusted_scene) "geo/img_01.JP2"
  /\ rpc_path (os_path_join (dst_dir (settings adjusted_scene)) "rpcs_init")
       default_suffix "rpc" "geo/img_01.JP2"
     <> init_rpc_fname (settings adjusted_scene) "geo/img_01.JP2".
Proof.
  apply (rpc_file_looked_up (settings adjusted_scene) "geo/img_01.JP2").
  vm_compute. discriminate.
Defined.

(** ** The camera-model store: saving and loading *)

Lemma save_rpcs_step (fn : string) (m : RPCModel) (w w1 : World) :
  (io _ <- os_makedirs (dirname fn); write_file fn (RpcFile m)) w = (inr tt, w1) ->
  fs_files (w_fs w1) = <[fn := RpcFile m]> (fs_files (w_fs w)).
Proof.
  unfold os_makedirs, write_file, io_bind, emit, get_fs, put_fs, io_raise. simpl.
  destruct (decide (dirname fn = "")); [done|]. simpl.
  destruct (bool_decide (dirname fn = "") || _); [|done].
  by intros [= <-].
Qed.

Lemma save_rpcs_files (names : list string) (rpcs : list RPCModel) (w w' : World) :
  save_rpcs names rpcs w = (inr tt, w') -> length rpcs = length names -> NoDup names ->
  Forall2 (fun p m => fs_files (w_fs w') !! p = Some (RpcFile m)) names rpcs
  /\ forall p : string, p ∉ names -> fs_files (w_fs w') !! p = fs_files (w_fs w) !! p.
Proof.
  unfold save_rpcs. revert rpcs w.
  induction names as [|fn names IH]; intros [|m rpcs] w Hs Hlen Hnd; try done.
  - injection Hs as <-. split; [constructor|done].
  - change (zip (fn :: names) (m :: rpcs)) with ((fn, m) :: zip names rpcs) in Hs.
    rewrite io_fold_cons in Hs.
    destruct ((io _ <- os_makedirs (dirname fn); write_file fn (RpcFile m)) w)
      as [[e|[]] w1] eqn:E; [done|].
    apply save_rpcs_step in E.
    apply NoDup_cons in Hnd as [Hnotin Hnd].
    destruct (IH rpcs w1 Hs ltac:(simpl in Hlen; lia) Hnd) as [HF Hother].
    split.
    + constructor; [|done]. rewrite (Hother fn Hnotin), E. apply lookup_insert_eq.
    + intros p Hp. apply not_elem_of_cons in Hp as [Hne Hp].
      rewrite (Hother p Hp), E. by apply lookup_insert_ne.
Qed.

Lemma rpc_from_rpc_file_stored (path : string) (m : RPCModel) (w : World) :
  fs_files (w_fs w) !! path = Some (RpcFile m) ->
  rpc_from_rpc_file path w
  = (inr m, {| w_fs := w_fs w; w_trace := w_trace w ++ [EvRead path] |}).
Proof.
  intros H. unfold rpc_from_rpc_file, read_file, io_bind, emit, get_fs, io_ret. simpl.
  by rewrite H.
Qed.

Lemma load_rpcs_from_dir_stored (fnames : list string) (rpc_dir suffix extension : string)
    (rpcs : list RPCModel) (w : World) :
  Forall2 (fun fn m => fs_files (w_fs w) !! rpc_path rpc_dir suffix extension fn
                       = Some (RpcFile m)) fnames rpcs ->
  load_rpcs_from_dir fnames rpc_dir suffix extension w
  = (inr rpcs,
     {| w_fs := w_fs w;
        w_trace := w_trace w
                   ++ ((fun fn => EvRead (rpc_path rpc_dir suffix extension fn)) <$> fnames) |}).
Proof.
  unfold load_rpcs_from_dir. intros HF. revert rpcs w HF.
  induction fnames as [|fn fnames IH]; intros rpcs w HF.
  - apply Forall2_nil_inv_l in HF as ->. simpl. unfold io_ret.
    rewrite app_nil_r. by destruct w.
  - apply Forall2_cons_inv_l in HF as (m & rpcs' & Hm & HF & ->).
    cbn [io_map]. unfold io_bind at 1.
    rewrite (rpc_from_rpc_file_stored _ m w Hm).
    unfold io_bind at 1.
    rewrite (IH rpcs' {| w_fs := w_fs w;
                         w_trace := w_trace w
                                    ++ [EvRead (rpc_path rpc_dir suffix extension fn)] |} HF).
    unfold io_ret. cbn [w_fs w_trace]. rewrite fmap_cons, <- (assoc_L app). done.
Qed.

(** X8.  The camera models saved by [save_rpcs] under the names that
    [load_rpcs_from_dir] derives from the image names come back, in order,
    when the names are distinct; loading reads one file per image and
    changes nothing in the file system. *)
Theorem save_rpcs_then_load_rpcs_from_dir (fnames : list string)
    (rpc_dir suffix extension : string) (rpcs : list RPCModel) (w w' : World) :
  length rpcs = length fnames ->
  NoDup (rpc_path rpc_dir suffix extension <$> fnames) ->
  save_rpcs (rpc_path rpc_dir suffix extension <$> fnames) rpcs w = (inr tt, w') ->
  load_rpcs_from_dir fnames rpc_dir suffix extension w'
  = (inr rpcs,
     {| w_fs := w_fs w';
        w_trace := w_trace w'
                   ++ ((fun fn => EvRead (rpc_path rpc_dir suffix extension fn)) <$> fnames) |}).
Proof.
  intros Hlen Hnd Hsave.
  destruct (save_rpcs_files _ _ _ _ Hsave) as [HF _]; [by rewrite length_fmap|done|].
  apply load_rpcs_from_dir_stored.
  by apply Forall2_fmap_l in HF.
Qed.

Lemma save_rpcs_then_load_rpcs_from_dir_witness :
  let fnames := ["geo/a.JP2"; "geo/b.JP2"] in
  let rpcs := [rpc_of 1; rpc_of 2] in
  let w' := (save_rpcs (rpc_path "out/rpcs_init" "" "rpc" <$> fnames) rpcs
               one_image_world).2 in
  load_rpcs_from_dir fnames "out/rpcs_init" "" "rpc" w'
  = (inr rpcs,
     {| w_fs := w_fs w';
        w_trace := w_trace w'
                   ++ ((fun fn => EvRead (rpc_path "out/rpcs_init" "" "rpc" fn)) <$> fnames) |}).
Proof.
  apply (save_rpcs_then_load_rpcs_from_dir ["geo/a.JP2"; "geo/b.JP2"]
           "out/rpcs_init" "" "rpc" [rpc_of 1; rpc_of 2] one_image_world).
  - reflexivity.
  - apply (bool_decide_unpack _). vm_compute. exact I.
  - vm_compute. reflexivity.
Defined.

Lemma zip_take_lengths {A B : Type} (l1 : list A) (l2 : list B) :
  zip l1 l2 = zip (take (length l2) l1) (take (length l1) l2).
Proof.
  revert l2. induction l1 as [|x l1 IH]; intros [|y l2]; simpl; try done.
  f_equal. apply IH.
Qed.

(** X9.  [save_rpcs] creates the directory of each file before it writes it,
    and so raises [FileNotFoundError] on a file name without directory part
    ([os.makedirs("")]), before anything is written; of two lists of
    different lengths it silently ignores what exceeds the shorter one; and
    it touches no file other than those it is given. *)
Theorem save_rpcs_edge_cases (names : list string) (rpcs : list RPCModel) (w : World) :
  (forall (fn : string) (m : RPCModel),
     dirname fn = "" ->
     save_rpcs (fn :: names) (m :: rpcs) w
     = (inl (FileNotFoundError ""),
        {| w_fs := w_fs w; w_trace := w_trace w ++ [EvMakedirs ""] |}))
  /\ save_rpcs names rpcs w
     = save_rpcs (take (length rpcs) names) (take (length names) rpcs) w
  /\ (forall (w' : World) (p : string),
        length rpcs = length names -> NoDup names ->
        save_rpcs names rpcs w = (inr tt, w') -> p ∉ names ->
        fs_files (w_fs w') !! p = fs_files (w_fs w) !! p).
Proof.
  split; [|split].
  - intros fn m Hd. unfold save_rpcs.
    change (zip (fn :: names) (m :: rpcs)) with ((fn, m) :: zip names rpcs).
    rewrite io_fold_cons. rewrite Hd.
    unfold os_makedirs, io_bind, emit, get_fs, io_raise. simpl. done.
  - unfold save_rpcs. by rewrite zip_take_lengths.
  - intros w' p Hlen Hnd Hsave Hp.
    by destruct (save_rpcs_files _ _ _ _ Hsave Hlen Hnd) as [_ ->].
Qed.

Lemma save_rpcs_edge_cases_witness :
  save_rpcs ["img_01.rpc"] [rpc_of 1] one_image_world
  = (inl (FileNotFoundError ""),
     {| w_fs := w_fs one_image_world;
        w_trace := w_trace one_image_world ++ [EvMakedirs ""] |}).
Proof.
  apply (proj1 (save_rpcs_edge_cases [] [] one_image_world) "img_01.rpc" (rpc_of 1)).
  reflexivity.
Defined.

(** ** Text files of paths: properties *)

Lemma LF_ne_CR : LF <> CR.
Proof. done. Qed.

Lemma universal_newlines_id (s : string) :
  contains (str CR) s = false -> universal_newlines s = s.
Proof.
  induction s as [|a s IH]; intros H; [done|].
  apply contains_char_cons in H as [Ha H]. cbn [universal_newlines].
  rewrite decide_False by done. by rewrite IH.
Qed.

Lemma save_list_of_paths_no_CR (paths : list string) :
  Forall (fun p => contains (str CR) p = false) paths ->
  contains (str CR) (save_list_of_paths paths) = false.
Proof.
  induction 1 as [|p paths Hp _ IH]; [done|].
  cbn [save_list_of_paths foldr]. apply contains_char_app. split; [done|].
  apply contains_char_app. split; [|done].
  apply contains_char_cons. split; [apply LF_ne_CR|done].
Qed.

Lemma readlines_go_line (cur p rest : string) :
  contains (str LF) p = false ->
  readlines_go cur (p +:+ String LF rest) = (cur +:+ p +:+ str LF) :: readlines_go "" rest.
Proof.
  revert cur. induction p as [|a p IH]; intros cur Hp.
  - rewrite !str_app_nil_l. cbn [readlines_go]. by rewrite decide_True.
  - apply contains_char_cons in Hp as [Ha Hp]. rewrite str_app_cons.
    cbn [readlines_go]. rewrite decide_False by done. rewrite IH by done.
    unfold str. by rewrite ?str_app_assoc, ?str_app_cons, ?str_app_nil_l.
Qed.

Lemma readlines_go_save (paths : list string) :
  Forall (fun p => contains (str LF) p = false) paths ->
  readlines_go "" (save_list_of_paths paths) = (fun p => p +:+ str LF) <$> paths.
Proof.
  induction 1 as [|p paths Hp _ IH]; [done|].
  cbn [save_list_of_paths foldr]. unfold str at 1. rewrite str_app_cons, str_app_nil_l.
  rewrite readlines_go_line by done. rewrite str_app_nil_l, fmap_cons. f_equal. exact IH.
Qed.

Lemma py_rstrip_LF (p : string) : py_rstrip (p +:+ str LF) = py_rstrip p.
Proof.
  induction p as [|a p IH]; [done|].
  rewrite str_app_cons. cbn [py_rstrip]. by rewrite IH.
Qed.

(** X10.  [load_list_of_paths] reads back what [save_list_of_paths] wrote,
    up to [strip]: when no path contains a line end ([\n] or [\r]), the
    paths come back stripped of the white space at their ends, hence as they
    were when they have none there.  A path with a line end inside comes back
    as two paths. *)
Theorem list_of_paths_round_trip :
  (forall paths : list string,
     Forall (fun p => contains (str LF) p = false /\ contains (str CR) p = false) paths ->
     load_list_of_paths (save_list_of_paths paths) = py_strip <$> paths
     /\ (Forall (fun p => py_strip p = p) paths ->
         load_list_of_paths (save_list_of_paths paths) = paths))
  /\ load_list_of_paths (save_list_of_paths []) = []
  /\ load_list_of_paths (save_list_of_paths ["a" +:+ str LF +:+ "b"]) = ["a"; "b"]
  /\ load_list_of_paths (save_list_of_paths [" a.txt "]) = ["a.txt"].
Proof.
  split; [|by split; [|split]; vm_compute].
  intros paths Hall.
  assert (load_list_of_paths (save_list_of_paths paths) = py_strip <$> paths) as Hload.
  { unfold load_list_of_paths, readlines.
    rewrite universal_newlines_id.
    2:{ apply save_list_of_paths_no_CR. eapply Forall_impl; [exact Hall|]. by intros p [_ H]. }
    rewrite readlines_go_save.
    2:{ eapply Forall_impl; [exact Hall|]. by intros p [H _]. }
    rewrite <- list_fmap_compose. apply list_fmap_ext. intros _ p _. simpl.
    unfold py_strip. by rewrite py_rstrip_LF. }
  split; [done|]. intros Hclean. rewrite Hload.
  clear -Hclean. induction Hclean as [|p paths Hp _ IH]; [done|].
  rewrite fmap_cons. by f_equal.
Qed.

Lemma list_of_paths_round_trip_witness :
  load_list_of_paths (save_list_of_paths ["geo/a.JP2"; "geo/dir with space/b.JP2"])
  = ["geo/a.JP2"; "geo/dir with space/b.JP2"].
Proof.
  apply (proj1 list_of_paths_round_trip ["geo/a.JP2"; "geo/dir with space/b.JP2"]).
  - repeat constructor.
  - repeat constructor.
Defined.

(** ** Arrays of pairs: properties *)


(** ** [load_matrices_from_dir]: properties *)

(** X12.  [load_matrices_from_dir] returns for the empty list of images only.
    For a list that is not empty it raises at the first image, and reads no
    other file: [FileNotFoundError] without the file of that image,
    [KeyError] without its key ["P"], and [TypeError] otherwise, since the
    matrix read from JSON is a list of lists, which [P[2, 3]] cannot index.
    The file system is as before. *)
Theorem load_matrices_from_dir_raises (fname : string) (fnames : list string)
    (P_dir suffix : string) (w : World) :
  let path := matrices_path P_dir suffix fname in
  let r := load_matrices_from_dir (fname :: fnames) P_dir suffix w in
  (exists e : exn, r.1 = inl e)
  /\ r.2 = {| w_fs := w_fs w; w_trace := w_trace w ++ [EvRead path] |}
  /\ (fs_files (w_fs w) !! path = None -> r.1 = inl (FileNotFoundError path))
  /\ (forall d : gmap string json,
        fs_files (w_fs w) !! path = Some (JsonFile d) ->
        (d !! "P" = None -> r.1 = inl (KeyError "P"))
        /\ (forall rows : list (list Q), d !! "P" = Some (JMatrix rows) ->
              r.1 = inl (TypeError "list indices must be integers or slices, not tuple")))
  /\ load_matrices_from_dir [] P_dir suffix w = (inr [], w).
Proof.
  cbv zeta. unfold load_matrices_from_dir. cbn [io_map].
  set (path := matrices_path P_dir suffix fname).
  unfold io_bind at 1.
  unfold load_dict_from_json, read_file, json_getitem, io_bind, emit, get_fs, io_ret,
    io_raise, io_lift. cbn [w_fs w_trace].
  destruct (fs_files (w_fs w) !! path) as [f|] eqn:Ef.
  - destruct f as [a b|m|m|d|];
      try (split; [by eexists|]; split; [done|]; split; [done|]; split; [|done];
           intros d' [=]).
    destruct (d !! "P") as [P|] eqn:EP.
    + destruct (json_getitem_pair P 2 3) as [e|[]] eqn:Ex.
      split; [by eexists|]. split; [done|]. split; [done|]. split; [|done].
      intros d' [= <-]. split; [by rewrite EP|].
      intros rows HP. rewrite EP in HP. injection HP as ->. simpl in Ex. by injection Ex as <-.
    + split; [by eexists|]. split; [done|]. split; [done|]. split; [|done].
      intros d' [= <-]. split; [done|]. intros rows HP. by rewrite EP in HP.
  - split; [by eexists|]. split; [done|]. split; [done|]. split; [|done].
    intros d' HP. done.
Qed.
